(** * Tanya: the Mafia game engine (extensions/players.py, game.py, utils.py)

    A shallow embedding of the game engine of the bot: the role classes and
    their class attributes, the per-player ledger fields, the night and day
    resolution procedures of [MafiaGame] and the message checks of
    [utils.py].  Players are Python objects compared by identity; here a
    player is named by its position in [game.players], which never shrinks
    (death is a flag), and every reference to a player ([killed_by],
    [protected_by], ...) is such a position. *)

From stdpp Require Import gmap strings list.
From Stdlib Require Import Ascii ZArith QArith Lia.

Local Close Scope Q_scope.
Local Open Scope string_scope.
Local Open Scope list_scope.

(** ** players.py: the two tier enumerations *)

Module AttackType.
Inductive t := basic | powerful | unstoppable.
Definition value (a : t) : Z :=
  match a with basic => 1 | powerful => 2 | unstoppable => 3 end%Z.
End AttackType.

Module DefenseType.
Inductive t := basic | powerful | unstoppable.
Definition value (d : t) : Z :=
  match d with basic => 1 | powerful => 2 | unstoppable => 3 end%Z.
End DefenseType.

(** The exceptions of the modelled code paths. *)
Inductive Exc :=
| IndexError | AttributeError | TypeError | MemberNotFound | Cancelled.

Global Instance Exc_eq_dec : EqDecision Exc.
Proof. solve_decision. Defined.

Inductive outcome (A : Type) :=
| Ret (a : A)
| Raise (e : Exc).
Arguments Ret {A} a.
Arguments Raise {A} e.

(** [AttackType.__gt__(self, other)] is [self.value > other.value]; both
    class attributes default to [None] on [Player].  [None > d] falls back
    to the reflected [d.__lt__(None)], which reads [None.value]. *)
Definition attack_gt (a : option AttackType.t) (d : option DefenseType.t)
  : outcome bool :=
  match a, d with
  | Some a, Some d => Ret (DefenseType.value d <? AttackType.value a)%Z
  | None, None => Raise TypeError
  | _, _ => Raise AttributeError
  end.

(** [DefenseType.__ge__(self, other)] is [self.value >= other.value]. *)
Definition defense_ge (d : option DefenseType.t) (a : option AttackType.t)
  : outcome bool :=
  match d, a with
  | Some d, Some a => Ret (AttackType.value a <=? DefenseType.value d)%Z
  | None, None => Raise TypeError
  | _, _ => Raise AttributeError
  end.

(** ** players.py: the role classes and their class attributes *)

Inductive PlayerClass :=
| Citizen | Doctor | Sheriff | Jailor | PI | Lookout
| Mafia | Janitor | Disguiser
| Survivor | Jester | Executioner | Arsonist.

Global Instance PlayerClass_eq_dec : EqDecision PlayerClass.
Proof. solve_decision. Defined.

Definition class_is_mafia (c : PlayerClass) : bool :=
  match c with Mafia | Janitor | Disguiser => true | _ => false end.

Definition class_is_citizen (c : PlayerClass) : bool :=
  match c with
  | Citizen | Doctor | Sheriff | Jailor | PI | Lookout => true
  | _ => false
  end.

Definition class_is_independent (c : PlayerClass) : bool :=
  match c with
  | Survivor | Jester | Executioner | Arsonist => true
  | _ => false
  end.

Definition class_attack_type (c : PlayerClass) : option AttackType.t :=
  match c with
  | Sheriff => Some AttackType.basic
  | Jailor => Some AttackType.unstoppable
  | Mafia | Janitor | Disguiser => Some AttackType.basic
  | Arsonist => Some AttackType.unstoppable
  | _ => None
  end.

Definition class_defense_type (c : PlayerClass) : option DefenseType.t :=
  match c with
  | Doctor => Some DefenseType.powerful
  | Jailor => Some DefenseType.powerful
  | Survivor => Some DefenseType.basic
  | Arsonist => Some DefenseType.basic
  | _ => None
  end.

Definition class_can_kill_mafia_at_night (c : PlayerClass) : bool :=
  match c with Sheriff => true | _ => false end.

Definition class_win_is_multi (c : PlayerClass) : bool :=
  match c with Survivor => true | _ => false end.

(** [Player.__str__]: the class name. *)
Definition class_name (c : PlayerClass) : string :=
  match c with
  | Citizen => "Citizen" | Doctor => "Doctor" | Sheriff => "Sheriff"
  | Jailor => "Jailor" | PI => "PI" | Lookout => "Lookout"
  | Mafia => "Mafia" | Janitor => "Janitor" | Disguiser => "Disguiser"
  | Survivor => "Survivor" | Jester => "Jester"
  | Executioner => "Executioner" | Arsonist => "Arsonist"
  end.

Definition __special_mafia__ : list PlayerClass := [Janitor; Disguiser].

(** ** The player objects *)

(** The [discord.Member] behind a player: what the engine reads of it. *)
Record Member := {
  name : string;
  mention : string;
  id : Z;
}.

Global Instance Member_eq_dec : EqDecision Member.
Proof. solve_decision. Defined.

(** The attribute [jailed]: a boolean on every player, which the class
    [Jailor] shadows with the player it holds in jail. *)
Inductive Jailed :=
| JFlag (b : bool)
| JPlayer (i : nat).

Definition jailed_truthy (j : Jailed) : bool :=
  match j with JFlag b => b | JPlayer _ => true end.

Record Player := {
  cls : PlayerClass;
  member : Member;
  is_godfather : bool;
  dead : bool;
  killed_by : option nat;
  visited_by : list nat;
  protected_by : option nat;
  cleaned_by : option nat;
  disguised_as : option nat;
  doused : bool;
  lynched : bool;
  night_role_blocked : bool;
  jailed : Jailed;
  cleans : Z;
  jails : Z;
  vests : Z;
  target : option nat;
}.

Definition is_mafia (p : Player) : bool := class_is_mafia (cls p).
Definition is_citizen (p : Player) : bool := class_is_citizen (cls p).
Definition is_independent (p : Player) : bool := class_is_independent (cls p).
Definition attack_type (p : Player) := class_attack_type (cls p).
Definition defense_type (p : Player) := class_defense_type (cls p).
Definition can_kill_mafia_at_night (p : Player) : bool :=
  class_can_kill_mafia_at_night (cls p).
Definition win_is_multi (p : Player) : bool := class_win_is_multi (cls p).
Definition str (p : Player) : string := class_name (cls p).

(** [role(member)]: a fresh instance carries the class defaults.  The
    class default of [visited_by] is [None]; [cleanup_attrs] assigns the
    empty list, for the first time in the [pre_day] that opens the first
    cycle, before any task is started, and from then on the attribute is
    a list.  The record has the list only, and a player that nobody has
    visited carries the empty list. *)
Definition new_player (c : PlayerClass) (m : Member) : Player :=
  {| cls := c; member := m; is_godfather := false; dead := false;
     killed_by := None; visited_by := []; protected_by := None;
     cleaned_by := None; disguised_as := None; doused := false;
     lynched := false; night_role_blocked := false; jailed := JFlag false;
     cleans := 3; jails := 3; vests := 4; target := None |}.

(** Attribute assignments. *)
Definition set_is_godfather (b : bool) (p : Player) : Player :=
  {| cls := cls p; member := member p; is_godfather := b; dead := dead p;
     killed_by := killed_by p; visited_by := visited_by p;
     protected_by := protected_by p; cleaned_by := cleaned_by p;
     disguised_as := disguised_as p; doused := doused p;
     lynched := lynched p; night_role_blocked := night_role_blocked p;
     jailed := jailed p; cleans := cleans p; jails := jails p;
     vests := vests p; target := target p |}.

Definition set_dead (b : bool) (p : Player) : Player :=
  {| cls := cls p; member := member p; is_godfather := is_godfather p;
     dead := b; killed_by := killed_by p; visited_by := visited_by p;
     protected_by := protected_by p; cleaned_by := cleaned_by p;
     disguised_as := disguised_as p; doused := doused p;
     lynched := lynched p; night_role_blocked := night_role_blocked p;
     jailed := jailed p; cleans := cleans p; jails := jails p;
     vests := vests p; target := target p |}.

Definition set_killed_by (k : option nat) (p : Player) : Player :=
  {| cls := cls p; member := member p; is_godfather := is_godfather p;
     dead := dead p; killed_by := k; visited_by := visited_by p;
     protected_by := protected_by p; cleaned_by := cleaned_by p;
     disguised_as := disguised_as p; doused := doused p;
     lynched := lynched p; night_role_blocked := night_role_blocked p;
     jailed := jailed p; cleans := cleans p; jails := jails p;
     vests := vests p; target := target p |}.

Definition set_visited_by (v : list nat) (p : Player) : Player :=
  {| cls := cls p; member := member p; is_godfather := is_godfather p;
     dead := dead p; killed_by := killed_by p; visited_by := v;
     protected_by := protected_by p; cleaned_by := cleaned_by p;
     disguised_as := disguised_as p; doused := doused p;
     lynched := lynched p; night_role_blocked := night_role_blocked p;
     jailed := jailed p; cleans := cleans p; jails := jails p;
     vests := vests p; target := target p |}.

Definition set_protected_by (k : option nat) (p : Player) : Player :=
  {| cls := cls p; member := member p; is_godfather := is_godfather p;
     dead := dead p; killed_by := killed_by p; visited_by := visited_by p;
     protected_by := k; cleaned_by := cleaned_by p;
     disguised_as := disguised_as p; doused := doused p;
     lynched := lynched p; night_role_blocked := night_role_blocked p;
     jailed := jailed p; cleans := cleans p; jails := jails p;
     vests := vests p; target := target p |}.

Definition set_cleaned_by (k : option nat) (p : Player) : Player :=
  {| cls := cls p; member := member p; is_godfather := is_godfather p;
     dead := dead p; killed_by := killed_by p; visited_by := visited_by p;
     protected_by := protected_by p; cleaned_by := k;
     disguised_as := disguised_as p; doused := doused p;
     lynched := lynched p; night_role_blocked := night_role_blocked p;
     jailed := jailed p; cleans := cleans p; jails := jails p;
     vests := vests p; target := target p |}.

Definition set_disguised_as (k : option nat) (p : Player) : Player :=
  {| cls := cls p; member := member p; is_godfather := is_godfather p;
     dead := dead p; killed_by := killed_by p; visited_by := visited_by p;
     protected_by := protected_by p; cleaned_by := cleaned_by p;
     disguised_as := k; doused := doused p;
     lynched := lynched p; night_role_blocked := night_role_blocked p;
     jailed := jailed p; cleans := cleans p; jails := jails p;
     vests := vests p; target := target p |}.

Definition set_doused (b : bool) (p : Player) : Player :=
  {| cls := cls p; member := member p; is_godfather := is_godfather p;
     dead := dead p; killed_by := killed_by p; visited_by := visited_by p;
     protected_by := protected_by p; cleaned_by := cleaned_by p;
     disguised_as := disguised_as p; doused := b;
     lynched := lynched p; night_role_blocked := night_role_blocked p;
     jailed := jailed p; cleans := cleans p; jails := jails p;
     vests := vests p; target := target p |}.

Definition set_lynched (b : bool) (p : Player) : Player :=
  {| cls := cls p; member := member p; is_godfather := is_godfather p;
     dead := dead p; killed_by := killed_by p; visited_by := visited_by p;
     protected_by := protected_by p; cleaned_by := cleaned_by p;
     disguised_as := disguised_as p; doused := doused p;
     lynched := b; night_role_blocked := night_role_blocked p;
     jailed := jailed p; cleans := cleans p; jails := jails p;
     vests := vests p; target := target p |}.

Definition set_night_role_blocked (b : bool) (p : Player) : Player :=
  {| cls := cls p; member := member p; is_godfather := is_godfather p;
     dead := dead p; killed_by := killed_by p; visited_by := visited_by p;
     protected_by := protected_by p; cleaned_by := cleaned_by p;
     disguised_as := disguised_as p; doused := doused p;
     lynched := lynched p; night_role_blocked := b;
     jailed := jailed p; cleans := cleans p; jails := jails p;
     vests := vests p; target := target p |}.

Definition set_jailed (j : Jailed) (p : Player) : Player :=
  {| cls := cls p; member := member p; is_godfather := is_godfather p;
     dead := dead p; killed_by := killed_by p; visited_by := visited_by p;
     protected_by := protected_by p; cleaned_by := cleaned_by p;
     disguised_as := disguised_as p; doused := doused p;
     lynched := lynched p; night_role_blocked := night_role_blocked p;
     jailed := j; cleans := cleans p; jails := jails p;
     vests := vests p; target := target p |}.

Definition set_cleans (n : Z) (p : Player) : Player :=
  {| cls := cls p; member := member p; is_godfather := is_godfather p;
     dead := dead p; killed_by := killed_by p; visited_by := visited_by p;
     protected_by := protected_by p; cleaned_by := cleaned_by p;
     disguised_as := disguised_as p; doused := doused p;
     lynched := lynched p; night_role_blocked := night_role_blocked p;
     jailed := jailed p; cleans := n; jails := jails p;
     vests := vests p; target := target p |}.

Definition set_jails (n : Z) (p : Player) : Player :=
  {| cls := cls p; member := member p; is_godfather := is_godfather p;
     dead := dead p; killed_by := killed_by p; visited_by := visited_by p;
     protected_by := protected_by p; cleaned_by := cleaned_by p;
     disguised_as := disguised_as p; doused := doused p;
     lynched := lynched p; night_role_blocked := night_role_blocked p;
     jailed := jailed p; cleans := cleans p; jails := n;
     vests := vests p; target := target p |}.

Definition set_vests (n : Z) (p : Player) : Player :=
  {| cls := cls p; member := member p; is_godfather := is_godfather p;
     dead := dead p; killed_by := killed_by p; visited_by := visited_by p;
     protected_by := protected_by p; cleaned_by := cleaned_by p;
     disguised_as := disguised_as p; doused := doused p;
     lynched := lynched p; night_role_blocked := night_role_blocked p;
     jailed := jailed p; cleans := cleans p; jails := jails p;
     vests := n; target := target p |}.

Definition set_target (k : option nat) (p : Player) : Player :=
  {| cls := cls p; member := member p; is_godfather := is_godfather p;
     dead := dead p; killed_by := killed_by p; visited_by := visited_by p;
     protected_by := protected_by p; cleaned_by := cleaned_by p;
     disguised_as := disguised_as p; doused := doused p;
     lynched := lynched p; night_role_blocked := night_role_blocked p;
     jailed := jailed p; cleans := cleans p; jails := jails p;
     vests := vests p; target := k |}.

(** [Player.visit], [protect], [kill], [clean], [disguise], [jail] and
    [cleanup_attrs], as updates of the object they are called on. *)
Definition visit (by_ : nat) (p : Player) : Player :=
  set_visited_by (visited_by p ++ [by_]) p.

Definition protect (by_ : nat) (p : Player) : Player :=
  visit by_ (set_protected_by (Some by_) p).

Definition kill (by_ : nat) (p : Player) : Player :=
  visit by_ (set_killed_by (Some by_) p).

Definition clean (by_ : nat) (p : Player) : Player :=
  visit by_ (set_cleaned_by (Some by_) p).

Definition disguise (target by_ : nat) (p : Player) : Player :=
  visit by_ (set_disguised_as (Some target) p).

Definition jail (by_ : nat) (p : Player) : Player :=
  visit by_ (set_protected_by (Some by_) (set_jailed (JFlag true) p)).

Definition cleanup_attrs (p : Player) : Player :=
  set_jailed (JFlag false)
    (set_disguised_as None
       (set_cleaned_by None
          (set_night_role_blocked false
             (set_protected_by None
                (set_killed_by None (set_visited_by [] p)))))).

(** ** game.py: the game object *)

(** The lines collected for the day embed ([notifs] and the arguments of
    [day_notification]). *)
Inductive Notif :=
| NGameStarted
| NNoOneKilled
| NKilledBy (victim killer : nat)
| NLynched (victim : nat).

Record MafiaGame := {
  players : list Player;
  is_day : bool;
  _day : Z;
  _day_notifications : gmap Z (list Notif);
}.

Definition set_players (ps : list Player) (g : MafiaGame) : MafiaGame :=
  {| players := ps; is_day := is_day g; _day := _day g;
     _day_notifications := _day_notifications g |}.

Definition set__day (d : Z) (g : MafiaGame) : MafiaGame :=
  {| players := players g; is_day := is_day g; _day := d;
     _day_notifications := _day_notifications g |}.

Definition set__day_notifications (n : gmap Z (list Notif)) (g : MafiaGame)
  : MafiaGame :=
  {| players := players g; is_day := is_day g; _day := _day g;
     _day_notifications := n |}.

(** [sum(1 for player in ... if ...)] *)
Definition count_players (f : Player -> bool) (ps : list Player) : nat :=
  length (filter (fun p => f p = true) ps).

Definition total_mafia (g : MafiaGame) : nat :=
  count_players (fun p => is_mafia p && negb (dead p)) (players g).

Definition total_citizens (g : MafiaGame) : nat :=
  count_players (fun p => is_citizen p && negb (dead p)) (players g).

Definition total_alive (g : MafiaGame) : nat :=
  count_players (fun p => negb (dead p)) (players g).

Definition total_players (g : MafiaGame) : nat := length (players g).

(** The block [Roles Alive] of the day embed, [alive_players] in
    [day_notification]: a [dict] from class names to counts, filled while
    iterating over [self.players] and skipping the dead; its items come in
    the order in which the keys were first inserted. *)
Fixpoint bump (key : string) (counts : list (string * nat))
  : list (string * nat) :=
  match counts with
  | [] => [(key, 1)]
  | (k, n) :: rest =>
      if String.eqb k key then (k, S n) :: rest else (k, n) :: bump key rest
  end.

Definition roles_alive (g : MafiaGame) : list (string * nat) :=
  fold_left (fun counts p => if dead p then counts else bump (str p) counts)
            (players g) [].

(** The property [godfather]: the first living player flagged as godfather,
    [None] when the loop falls through. *)
Fixpoint first_index {A} (f : A -> bool) (l : list A) (i : nat) : option nat :=
  match l with
  | [] => None
  | x :: l' => if f x then Some i else first_index f l' (S i)
  end.

Definition godfather (g : MafiaGame) : option nat :=
  first_index (fun p => is_godfather p && negb (dead p)) (players g) 0.

(** ** players.py: the win conditions *)

(** [any(player.can_kill_mafia_at_night for player in game.players
         if not player.dead)] *)
Definition any_can_kill_mafia_at_night (g : MafiaGame) : bool :=
  existsb (fun p => negb (dead p) && can_kill_mafia_at_night p) (players g).

(** Python's [/] on two integers is true division; the halves of the small
    counts compared here are exact, so the quotient is taken in [Q]. *)
Definition half (n : nat) : Q := (inject_Z (Z.of_nat n) / 2)%Q.

Definition Qge_bool (x y : Q) : bool := Qle_bool y x.
Definition Qgt_bool (x y : Q) : bool := negb (Qle_bool x y).

Definition Mafia_win_condition (g : MafiaGame) : bool :=
  if is_day g then
    if any_can_kill_mafia_at_night g then false
    else Qge_bool (inject_Z (Z.of_nat (total_mafia g))) (half (total_alive g))
  else Qgt_bool (inject_Z (Z.of_nat (total_mafia g))) (half (total_alive g)).

Definition Citizen_win_condition (g : MafiaGame) : bool :=
  Nat.eqb (total_mafia g) 0.

(** [self.dead and self.killed_by and not self.killed_by.is_mafia] *)
Definition killed_by_non_mafia (g : MafiaGame) (self : Player) : bool :=
  dead self &&
  match killed_by self with
  | None => false
  | Some k =>
      match players g !! k with
      | Some kp => negb (is_mafia kp)
      | None => false
      end
  end.

Definition win_condition (g : MafiaGame) (self : Player) : bool :=
  match cls self with
  | Citizen | Doctor | Sheriff | Jailor | PI | Lookout =>
      Citizen_win_condition g
  | Mafia | Janitor | Disguiser => Mafia_win_condition g
  | Survivor => negb (dead self)
  | Jester => lynched self || killed_by_non_mafia g self
  | Executioner =>
      match target self ≫= (fun t => players g !! t) with
      | Some tp =>
          lynched tp
          || (dead tp && negb (lynched tp) && lynched self)
          || killed_by_non_mafia g self
      | None => false
      end
  | Arsonist => Nat.eqb (total_alive g) 1 && negb (dead self)
  end.

Definition check_winner (g : MafiaGame) : bool :=
  existsb (fun p => negb (win_is_multi p) && win_condition g p) (players g).

Definition get_winners (g : MafiaGame) : list nat :=
  (filter (fun ip => win_condition g ip.2 = true) (imap pair (players g))).*1.

(** ** What the engine sends *)

Inductive Channel :=
| ChPlayer (i : nat)      (* player.channel *)
| ChChat                  (* game.chat *)
| ChInfo                  (* game.info *)
| ChMafia                 (* game.mafia_chat *)
| ChJail.                 (* game.jail *)

Inductive Message :=
| MSavedYou (protector : nat)
| MSavedFromAttack
| MCleaned (victim : nat)
| MKilledDuringNight (victim : nat)
| MYouAreTheGodfather
| MThumbsUp
| MPrompt (text : string)
| MNominatedForHanging (nominee : nat)
| MGodfatherCannotKill
| MGodfatherPrompt
| MAttackFailed
| MHasBeenJailed (jailee : nat)
| MSameAlignment (p1 p2 : nat)
| MNotSameAlignment (p1 p2 : nat)
| MSamePersonTwice
| MVestPrompt (remaining : Z)
| MNightEmbed (day : Z)
| MDayEmbed (edit : bool) (day : Z) (can_nominate : bool)
            (alive : list (string * nat)) (lines : list Notif).

Record Event := Send { channel : Channel; message : Message }.

Global Instance Channel_eq_dec : EqDecision Channel.
Proof. solve_decision. Defined.

Global Instance Notif_eq_dec : EqDecision Notif.
Proof. solve_decision. Defined.

Global Instance Message_eq_dec : EqDecision Message.
Proof. solve_decision. Defined.

Global Instance Event_eq_dec : EqDecision Event.
Proof. solve_decision. Defined.

(** The channels every living player reads. *)
Definition public (c : Channel) : bool :=
  match c with ChChat | ChInfo => true | _ => false end.

(** The text of the messages of night resolution, as the f-strings build
    it from the roster. *)
Definition member_name (ps : list Player) (i : nat) : string :=
  from_option (fun p => name (member p)) "" (ps !! i).
Definition member_mention (ps : list Player) (i : nat) : string :=
  from_option (fun p => mention (member p)) "" (ps !! i).
Definition role_name (ps : list Player) (i : nat) : string :=
  from_option str "" (ps !! i).

Definition render_notif (ps : list Player) (n : Notif) : string :=
  match n with
  | NGameStarted => "- Game has started!"
  | NNoOneKilled => "- No one was killed last night!"
  | NKilledBy v k =>
      "- " ++ member_mention ps v ++ " (" ++ role_name ps v
           ++ ") was killed by " ++ role_name ps k
  | NLynched v =>
      "- The town lynched **" ++ member_mention ps v ++ "**("
           ++ role_name ps v ++ ")"
  end.

Definition render_cleaned (ps : list Player) (victim : nat) : string :=
  "You cleaned " ++ member_name ps victim ++ " up, their role was "
                 ++ role_name ps victim.

Definition render_chat_kill (ps : list Player) (victim : nat) : string :=
  "- " ++ member_mention ps victim ++ " (" ++ role_name ps victim
       ++ ") was killed during the night!".

Definition render_saved (ps : list Player) (protector : nat) : string :=
  "You were killed last night, but " ++ role_name ps protector
    ++ " saved you!".

(** The text that [send] posts for a message of the resolution of a
    night, read on the roster; [None] for the messages of the other
    procedures, whose wording no property below depends on.  (The note to
    the mafia is a plain string in the source, not an f-string.) *)
Definition render (ps : list Player) (m : Message) : option string :=
  match m with
  | MSavedYou protector => Some (render_saved ps protector)
  | MSavedFromAttack =>
      Some "{player} was saved last night from your attack!"
  | MCleaned victim => Some (render_cleaned ps victim)
  | MKilledDuringNight victim => Some (render_chat_kill ps victim)
  | MYouAreTheGodfather => Some "You are the godfather!"
  | _ => None
  end.

(** ** The engine's effects: the game object, the messages sent so far
    (oldest first) and the random source [game._rand]. *)

Record World := {
  game : MafiaGame;
  sent : list Event;
  entropy : nat -> nat;
  drawn : nat;
}.

Definition M (A : Type) : Type := World -> outcome A * World.

Global Instance M_ret : MRet M := fun A a w => (Ret a, w).
Global Instance M_bind : MBind M := fun A B f m w =>
  match m w with
  | (Ret a, w') => f a w'
  | (Raise e, w') => (Raise e, w')
  end.

Definition raise {A} (e : Exc) : M A := fun w => (Raise e, w).

(** [try: m  except e: h] *)
Definition try_except {A} (m : M A) (e : Exc) (h : M A) : M A := fun w =>
  match m w with
  | (Raise e', w') =>
      if bool_decide (e' = e) then h w' else (Raise e', w')
  | r => r
  end.

Definition get_game : M MafiaGame := fun w => (Ret (game w), w).

Definition put_game (g : MafiaGame) : M unit := fun w =>
  (Ret tt, {| game := g; sent := sent w; entropy := entropy w;
              drawn := drawn w |}).

Definition send (c : Channel) (m : Message) : M unit := fun w =>
  (Ret tt, {| game := game w; sent := sent w ++ [Send c m];
              entropy := entropy w; drawn := drawn w |}).

(** [random._randbelow(n)]: the next value of the source, below [n]. *)
Definition randbelow (n : nat) : M nat := fun w =>
  (Ret (entropy w (drawn w) mod n),
   {| game := game w; sent := sent w; entropy := entropy w;
      drawn := S (drawn w) |}).

(** [random.choice(seq)]: [seq[randbelow(len(seq))]], [IndexError] on an
    empty sequence. *)
Definition choice {A} (l : list A) : M A :=
  match l with
  | [] => raise IndexError
  | x :: _ => i ← randbelow (length l); mret (nth i l x)
  end.

(** Reading a player object through a reference; a reference always names
    a roster position. *)
Definition get_player (i : nat) : M Player :=
  g ← get_game;
  match players g !! i with
  | Some p => mret p
  | None => raise IndexError
  end.

(** An attribute assignment on the object at position [i]. *)
Definition update_player (i : nat) (f : Player -> Player) : M unit :=
  g ← get_game; put_game (set_players (alter f i (players g)) g).

Fixpoint for_each {A} (l : list A) (body : A -> M unit) : M unit :=
  match l with
  | [] => mret tt
  | x :: l' => body x ;; for_each l' body
  end.

Definition when (b : bool) (m : M unit) : M unit := if b then m else mret tt.

(** Lifting a pure computation that may raise. *)
Definition lift {A} (o : outcome A) : M A := fun w => (o, w).

(** ** game.py: [choose_godfather] *)

Definition indexed (ps : list Player) : list (nat * Player) := imap pair ps.

Definition godfather_candidates (g : MafiaGame) : list nat :=
  (filter (fun ip => is_mafia ip.2 = true
                     /\ cls ip.2 ∉ __special_mafia__)
          (indexed (players g))).*1.

Definition choose_godfather : M unit :=
  g ← get_game;
  gf ← choice (godfather_candidates g);
  update_player gf (set_is_godfather true) ;;
  send (ChPlayer gf) MYouAreTheGodfather.

(** ** game.py: [day_notification] *)

(** [day_notification]: the lines passed are added to those of the
    current day, and the embed of the day is built from the roles alive,
    the invitation to nominate (from day 2 on) and all the lines of the
    day.  The first call of a day posts it in the info channel
    ([info.send]); a later call of the same day finds the message in
    [_day_notifications] and edits it in place ([msg.edit]), which
    [MDayEmbed true ...] records. *)
Definition edits_embed (g : MafiaGame) : bool :=
  bool_decide (is_Some (_day_notifications g !! _day g)).

Definition day_notification (ns : list Notif) : M unit :=
  g ← get_game;
  let current := default [] (_day_notifications g !! _day g) ++ ns in
  send ChInfo (MDayEmbed (edits_embed g) (_day g)
                 (bool_decide (1 < _day g)%Z) (roles_alive g) current) ;;
  put_game (set__day_notifications
              (<[_day g := current]> (_day_notifications g)) g).

(** ** game.py: [pre_day], the resolution of the night *)

Fixpoint fold_M {A S} (body : A -> S -> M S) (l : list A) (s : S) : M S :=
  match l with
  | [] => mret s
  | x :: l' => s' ← body x s; fold_M body l' s'
  end.

(** The test guarding the "saved" branch:
    [player.protected_by and
     killer.attack_type > player.protected_by.defense_type]. *)
Definition pre_day_saved (g : MafiaGame) (player killer : Player)
  : outcome bool :=
  match protected_by player with
  | None => Ret false
  | Some q =>
      match players g !! q with
      | Some protector =>
          attack_gt (attack_type killer) (defense_type protector)
      | None => Raise IndexError
      end
  end.

(** One round of the loop over [self.players]; the locals [notifs] and
    [killed] are threaded through.  Every player has a channel once
    [setup_channels] has run, so [if player.channel] is taken. *)
Definition pre_day_dies (i k : nat) (player : Player)
    (loc : list Notif * list nat) : M (list Notif * list nat) :=
  loc' ← match cleaned_by player with
         | Some cleaner =>
             (send (ChPlayer cleaner) (MCleaned i) ;; mret loc)
         | None =>
             (send ChChat (MKilledDuringNight i) ;;
              mret (loc.1 ++ [NKilledBy i k], loc.2 ++ [i]))
         end;
  update_player i (set_dead true) ;;
  when (is_godfather player)
       (choose_godfather ;; update_player i (set_is_godfather false)) ;;
  mret loc'.

Definition pre_day_survives (i : nat) (player killer : Player)
    (loc : list Notif * list nat) : M (list Notif * list nat) :=
  send (ChPlayer i) (MSavedYou (default 0 (protected_by player))) ;;
  when (is_mafia killer) (send ChMafia MSavedFromAttack) ;;
  mret loc.

Definition pre_day_player (i : nat) (loc : list Notif * list nat)
  : M (list Notif * list nat) :=
  player ← get_player i;
  if dead player then mret loc
  else
    match killed_by player with
    | None => mret loc
    | Some k =>
        killer ← get_player k;
        g ← get_game;
        saved ← lift (pre_day_saved g player killer);
        if saved : bool then pre_day_survives i player killer loc
        else pre_day_dies i k player loc
    end.

Definition roster_indices (g : MafiaGame) : list nat :=
  seq 0 (length (players g)).

Definition cleanup_everyone : M unit :=
  g ← get_game;
  for_each (roster_indices g) (fun i =>
    p ← get_player i;
    when (negb (dead p)) (update_player i cleanup_attrs)).

Definition pre_day : M unit :=
  g ← get_game;
  (if bool_decide (1 < _day g)%Z then
     loc ← fold_M pre_day_player (roster_indices g) ([], []);
     day_notification
       (match loc.2 with
        | [] => loc.1 ++ [NNoOneKilled]
        | _ => loc.1
        end)
   else day_notification [NGameStarted]) ;;
  cleanup_everyone.

(** ** utils.py: resolving a player from text *)

Record DiscordMessage := {
  m_channel : Channel;
  author : Member;
  content : string;
}.

(** Equality of [discord.Member] objects compares their ids. *)
Definition member_eqb (a b : Member) : bool := (id a =? id b)%Z.

Definition is_digit (a : ascii) : bool :=
  (48 <=? nat_of_ascii a)%nat && (nat_of_ascii a <=? 57)%nat.

Fixpoint string_to_list (s : string) : list ascii :=
  match s with
  | EmptyString => []
  | String a s' => a :: string_to_list s'
  end.

(** [int(digits)] *)
Definition int_of_digits (ds : list ascii) : Z :=
  fold_left (fun acc a => acc * 10 + (Z.of_nat (nat_of_ascii a) - 48))%Z ds 0%Z.

(** A final [$] also matches just before a newline that ends the text. *)
Definition before_final_newline (cs : list ascii) : list ascii :=
  match reverse cs with
  | a :: r => if Ascii.eqb a "010"%char then reverse r else cs
  | [] => cs
  end.

(** [([0-9]{15,20})$] anchored at the start of the text. *)
Definition match_digits (cs : list ascii) : option Z :=
  let accepts (ds : list ascii) :=
    forallb is_digit ds && (15 <=? length ds)%nat && (length ds <=? 20)%nat in
  if accepts cs then Some (int_of_digits cs)
  else if accepts (before_final_newline cs)
       then Some (int_of_digits (before_final_newline cs))
       else None.

(** [<@!?([0-9]{15,20})>$] anchored at the start of the text. *)
Definition match_mention (cs : list ascii) : option Z :=
  let body (rest : list ascii) : option Z :=
    let inner (r : list ascii) :=
      match reverse r with
      | a :: ds =>
          if Ascii.eqb a ">"%char
             && forallb is_digit ds
             && (15 <=? length ds)%nat && (length ds <=? 20)%nat
          then Some (int_of_digits (reverse ds)) else None
      | [] => None
      end in
    match inner rest with
    | Some z => Some z
    | None => inner (before_final_newline rest)
    end in
  match cs with
  | a :: b :: rest =>
      if Ascii.eqb a "<"%char && Ascii.eqb b "@"%char then
        match rest with
        | c :: rest' =>
            if Ascii.eqb c "!"%char then body rest' else body rest
        | [] => None
        end
      else None
  | _ => None
  end.

(** [re.match(...) or re.match(...)], then [int(match.group(1))]. *)
Definition match_user_id (arg : string) : option Z :=
  match match_digits (string_to_list arg) with
  | Some z => Some z
  | None => match_mention (string_to_list arg)
  end.

(** [str.split(sep)] for a non-empty separator. *)
Fixpoint split_go (sep : string) (skip : nat) (cur : string) (s : string)
  : list string :=
  match s with
  | EmptyString => [cur]
  | String c s' =>
      match skip with
      | S k => split_go sep k cur s'
      | O =>
          if String.prefix sep s
          then cur :: split_go sep (String.length sep - 1) "" s'
          else split_go sep 0 (cur ++ String c "") s'
      end
  end.

Definition split (sep s : string) : list string := split_go sep 0 "" s.

(** The dictionary [nominations] of [day_tasks]: a count per nominated
    player, and the key ["nomination"] once a vote is open. *)
Record Nominations := {
  counts : gmap nat nat;
  nomination : option nat;
}.

Definition no_nominations : Nominations :=
  {| counts := ∅; nomination := None |}.

(** A task that fails or is cancelled ends on its own: [asyncio.wait] does
    not re-raise, the state reached so far stays. *)
Definition confine (m : M unit) : M unit := fun w =>
  match m w with
  | (Raise _, w') => (Ret tt, w')
  | r => r
  end.

(** A task that fails before its first [await] is not waiting. *)
Definition attempt {A} (m : M (option A)) : M (option A) := fun w =>
  match m w with
  | (Raise _, w') => (Ret None, w')
  | r => r
  end.

Section Engine.

(** [fuzzywuzzy.process.extractBests(arg, choices, score_cutoff=80,
    limit=1)] over the member names in roster order: the position of the
    best-scoring name, when one reaches the cutoff. *)
Variable extractBests : string -> list string -> option nat.

(** [discord.utils.get(players, member__id=user_id)] *)
Definition get_by_member_id (ps : list Player) (user_id : Z) : option nat :=
  first_index (fun p => (id (member p) =? user_id)%Z) ps 0.

(** [discord.utils.get(game.players, member=m.author)] *)
Definition get_by_member (ps : list Player) (m : Member) : option nat :=
  first_index (fun p => member_eqb (member p) m) ps 0.

Definition get_mafia_player (g : MafiaGame) (arg : string) : outcome nat :=
  let result :=
    match match_user_id arg with
    | None =>
        extractBests arg (map (fun p => name (member p)) (players g))
    | Some user_id => get_by_member_id (players g) user_id
    end in
  match result with
  | Some i =>
      match players g !! i with
      | Some _ => Ret i
      | None => Raise MemberNotFound
      end
  | None => Raise MemberNotFound
  end.

(** *** [nomination_check] *)

Definition noms_needed (g : MafiaGame) (mafia : bool) : nat :=
  if mafia then (if (total_mafia g =? 0)%nat then 2 else 1) else 2.

Definition is_game_member (g : MafiaGame) (m : Member) : bool :=
  existsb (fun p => member_eqb m (member p)) (players g).

(** The closure [check] returned by [nomination_check]; the dictionary it
    mutates is passed in and out.  A result that is [False] or [None] is
    [false].  The note [... nominated, need one more] is handed to
    [game.ctx.create_task], a coroutine function that the check, a plain
    function, calls without awaiting it: nothing is sent. *)
Definition nomination_check (needed : nat) (chan : Channel) (mafia : bool)
    (m : DiscordMessage) (n : Nominations) : M (bool * Nominations) :=
  g ← get_game;
  if negb (bool_decide (m_channel m = chan)) then mret (false, n)
  else if negb (is_game_member g (author m)) then mret (false, n)
  else if negb (String.prefix ">>nominate " (content m)) then mret (false, n)
  else
    match get_mafia_player g (nth 1 (split ">>nominate " (content m)) "") with
    | Raise MemberNotFound => mret (false, n)
    | Raise e => raise e
    | Ret player =>
        let nominator := get_by_member (players g) (author m) in
        if bool_decide (nominator = Some player) then mret (false, n)
        else
          p ← get_player player;
          if dead p then mret (false, n)
          else if mafia && is_mafia p then mret (false, n)
          else
            let c := (default 0 (counts n !! player) + 1)%nat in
            let counted := <[player := c]> (counts n) in
            if (c =? needed)%nat then
              mret (true, {| counts := counted; nomination := Some player |})
            else
              mret (false, {| counts := counted;
                              nomination := nomination n |})
    end.

(** *** [private_channel_check]

    The check as utils.py defines it, with the factory's own parameters
    [game], [player] and [can_choose_self].  (The call in
    [Player.wait_for_player] passes a [mapping] as a further positional
    argument, and the one in [night_tasks] passes one to
    [mafia_kill_check]; neither factory takes it, and the checks below
    are those of the definitions.)  The note [You cannot chooose
    yourself] is handed to [game.ctx.create_task] and not awaited, like
    the note of [nomination_check]: nothing is sent. *)

Definition private_channel_check (player : nat) (can_choose_self : bool)
    (m : DiscordMessage) : M bool :=
  g ← get_game;
  me ← get_player player;
  if negb (bool_decide (m_channel m = ChPlayer player)) then mret false
  else if negb (member_eqb (author m) (member me)) then mret false
  else
    match get_mafia_player g (content m) with
    | Raise MemberNotFound => mret false
    | Raise e => raise e
    | Ret p =>
        if negb can_choose_self && bool_decide (player = p) then mret false
        else mret true
    end.

(** *** [mafia_kill_check] *)

Definition mafia_kill_check (m : DiscordMessage) : M bool :=
  g ← get_game;
  if negb (bool_decide (m_channel m = ChMafia)) then mret false
  else
    match godfather g with
    | None => raise AttributeError
    | Some gf =>
        gfp ← get_player gf;
        if negb (member_eqb (author m) (member gfp)) then mret false
        else
          match get_mafia_player g (content m) with
          | Raise MemberNotFound => mret false
          | Raise e => raise e
          | Ret p =>
              pp ← get_player p;
              if is_mafia pp then mret false else mret true
          end
    end.

(** *** players.py: the night and day tasks of the roles

    A task runs up to its first [await] when the phase starts, and from
    its last [await] to its end when the awaited answer arrives; between
    the two it holds no more than its locals.  [wait_for_player] is
    modelled by what it sends and by the player it returns: the answers
    of a task are the roster positions its solicitations settle on. *)

Definition prompt (self : nat) (text : string) : M unit :=
  send (ChPlayer self) (MPrompt text).

(** [Sheriff.night_task]: the test that turns the shot on the Sheriff. *)
Definition sheriff_backfires (g : MafiaGame) (target : Player) : bool :=
  is_citizen target
  || match disguised_as target with
     | Some d => from_option is_citizen false (players g !! d)
     | None => false
     end.

(** [PI.night_task]: the comparison of the two investigated players. *)
Definition PI_same_alignment (player1 player2 : Player) : bool :=
  (is_citizen player1 && is_citizen player2)
  || (is_mafia player1 && is_mafia player2).

(** [p for p in game.players if p.doused and not p.dead] *)
Definition doused_alive (g : MafiaGame) : list nat :=
  (filter (fun ip => doused ip.2 = true /\ dead ip.2 = false)
          (indexed (players g))).*1.

(** The part of [night_task] before its first [await]: [None] when the
    task ends there, else the locals it keeps while waiting. *)
Definition night_task_begin (self : nat) : M (option (list nat)) :=
  me ← get_player self;
  match cls me with
  | Doctor =>
      prompt self "Please provide the name of one player you would like to save from being killed tonight" ;;
      mret (Some [])
  | Sheriff =>
      prompt self "If you would like to shoot someone tonight, provide just their name" ;;
      mret (Some [])
  | Jailor =>
      match jailed me with
      | JPlayer _ => mret (Some [])
      | JFlag true => raise AttributeError
      | JFlag false => mret None
      end
  | PI =>
      prompt self "Who is the first person you want to investigate" ;;
      mret (Some [])
  | Lookout =>
      prompt self "Provide the player you want to watch tonight, at the end of the night I will let you know who visited them" ;;
      mret (Some [])
  | Janitor =>
      if (cleans me <=? 3)%Z then mret None
      else
        (prompt self "Provide the player you want to clean tonight" ;;
         mret (Some []))
  | Disguiser =>
      prompt self "Choose the mafia member you want to disguise" ;;
      mret (Some [])
  | Survivor =>
      if (vests me <=? 0)%Z then mret None
      else (send (ChPlayer self) (MVestPrompt (vests me)) ;; mret (Some []))
  | Arsonist =>
      update_player self (set_protected_by (Some self)) ;;
      g ← get_game;
      prompt self "Choose a target to douse, if you choose yourself you will ignite all doused targets" ;;
      mret (Some (doused_alive g))
  | Citizen | Mafia | Jester | Executioner => mret None
  end.

(** [PI.night_task]: the loop that asks for the second player.  Every
    round sends the solicitation; an answer that names the first player
    again is refused with a note and the loop asks once more. *)
Fixpoint PI_second (self player1 : nat) (rest : list nat) : M nat :=
  prompt self "Who is the second person you want to investigate" ;;
  match rest with
  | [] => raise Cancelled
  | player2 :: rest' =>
      if bool_decide (player2 = player1)
      then (send (ChPlayer self) MSamePersonTwice ;;
            PI_second self player1 rest')
      else mret player2
  end.

(** The part of [night_task] after its first [await]: what the task does
    with the answers that arrive.  [Jailor.night_task]: the order
    [Execute] marks the prisoner; the note for the jail channel is handed
    to [game.ctx.create_task] from the check and not awaited, so nothing
    is sent. *)
Definition night_task_finish (self : nat) (locals answers : list nat)
  : M unit :=
  me ← get_player self;
  match cls me, answers with
  | Doctor, [player] =>
      update_player player (protect self) ;;
      send (ChPlayer self) MThumbsUp
  | Sheriff, [player] =>
      g ← get_game;
      p ← get_player player;
      (if sheriff_backfires g p then
         update_player self (kill self) ;;
         update_player player (visit self)
       else update_player player (kill self)) ;;
      send (ChPlayer self) MThumbsUp
  | Jailor, [] =>
      match jailed me with
      | JPlayer j =>
          update_player j (kill self)
      | JFlag _ => raise AttributeError
      end
  | PI, player1 :: rest =>
      player2 ← PI_second self player1 rest;
      p1 ← get_player player1;
      p2 ← get_player player2;
      if PI_same_alignment p1 p2
      then send (ChPlayer self) (MSameAlignment player1 player2)
      else send (ChPlayer self) (MNotSameAlignment player1 player2)
  | Lookout, [player] => send (ChPlayer self) MThumbsUp
  | Janitor, [player] =>
      update_player player (clean self) ;;
      send (ChPlayer self) MThumbsUp ;;
      update_player self (fun p => set_cleans (cleans p - 1) p)
  | Disguiser, [player1; player2] =>
      p1 ← get_player player1;
      p2 ← get_player player2;
      when (negb (jailed_truthy (jailed p1))
            && negb (jailed_truthy (jailed p2)))
           (update_player player1 (disguise player2 self)) ;;
      send (ChPlayer self) MThumbsUp
  | Survivor, [] =>
      update_player self (fun p => set_vests (vests p - 1) p) ;;
      update_player self (set_protected_by (Some self))
  | Arsonist, [player] =>
      (if bool_decide (player = self) then
         for_each locals (fun d => update_player d (kill self))
       else
         update_player player (set_doused true) ;;
         update_player player (visit self)) ;;
      send (ChPlayer self) MThumbsUp
  | _, _ => raise Cancelled
  end.

(** [Jailor.day_task], the only day task that does something. *)
Definition day_task_begin (self : nat) : M (option (list nat)) :=
  me ← get_player self;
  match cls me with
  | Jailor =>
      if (jails me <=? 0)%Z then mret None
      else
        (prompt self "If you would like to jail someone tonight, provide just their name" ;;
         mret (Some []))
  | _ => mret None
  end.

Definition day_task_finish (self : nat) (locals answers : list nat)
  : M unit :=
  me ← get_player self;
  match cls me, answers with
  | Jailor, [player] =>
      update_player player (set_night_role_blocked true) ;;
      update_player player (jail self) ;;
      update_player self (set_jailed (JPlayer player)) ;;
      update_player self (fun p => set_jails (jails p - 1) p) ;;
      send (ChPlayer self) (MHasBeenJailed player)
  | _, _ => raise Cancelled
  end.

(** *** game.py: running the tasks of a phase

    [night_tasks] and [day_tasks] hand the task of every player to
    [ctx.create_task] and wait for the tasks with [asyncio.wait].  The
    tasks are taken here as scheduled and run: each one up to its first
    [wait_for] when the phase begins ([start_tasks]), and on from there
    when an answer that its check accepts arrives ([run_arrivals]); a task
    still waiting when the phase ends is cancelled.  What is proved of a
    single procedure ([pre_day], [lynch], [choose_godfather], the bodies
    of the tasks, the checks, the win conditions) does not depend on this
    scheduling. *)

(** The tasks started for a phase: each with the locals it waits with. *)
Fixpoint start_tasks (begin : nat -> M (option (list nat)))
    (actors : list nat) : M (list (nat * list nat)) :=
  match actors with
  | [] => mret []
  | a :: rest =>
      started ← attempt (begin a);
      waiting ← start_tasks begin rest;
      mret (match started with
            | Some locals => (a, locals) :: waiting
            | None => waiting
            end)
  end.

Definition waiting_locals (waiting : list (nat * list nat)) (a : nat)
  : option (list nat) :=
  (fun r => r.2.2) <$> list_find (fun al => al.1 = a) waiting.

Definition in_roster (g : MafiaGame) (answers : list nat) : bool :=
  forallb (fun t => bool_decide (t < length (players g))) answers.

(** What reaches the bot during a night, in order of arrival: the
    godfather's accepted choice in the mafia channel, or the answers that
    complete a player's task. *)
Inductive Arrival :=
| GodfatherChoice (player : nat)
| TaskAnswers (actor : nat) (answers : list nat).

(** [mafia_check], after its [wait_for]. *)
Definition mafia_check (gf player : nat) : M unit :=
  g ← get_game;
  godfather ← get_player gf;
  p ← get_player player;
  blocked ← match protected_by p with
            | None => mret false
            | Some q =>
                protector ← get_player q;
                lift (defense_ge (defense_type protector)
                                 (attack_type godfather))
            end;
  if blocked : bool then send ChMafia MAttackFailed
  else (update_player player (kill gf) ;; send ChMafia MThumbsUp).

Fixpoint run_arrivals (finish : nat -> list nat -> list nat -> M unit)
    (gf : option nat) (arrivals : list Arrival)
    (waiting : list (nat * list nat)) : M unit :=
  match arrivals with
  | [] => mret tt
  | GodfatherChoice player :: rest =>
      g ← get_game;
      match gf with
      | Some godfather =>
          if in_roster g [player] then
            (confine (mafia_check godfather player) ;;
             run_arrivals finish None rest waiting)
          else run_arrivals finish gf rest waiting
      | None => run_arrivals finish gf rest waiting
      end
  | TaskAnswers a answers :: rest =>
      g ← get_game;
      match waiting_locals waiting a with
      | Some locals =>
          if in_roster g answers then
            (confine (finish a locals answers) ;;
             run_arrivals finish gf rest
               (filter (fun al => al.1 ≠ a) waiting))
          else run_arrivals finish gf rest waiting
      | None => run_arrivals finish gf rest waiting
      end
  end.

(** The loop of [night_tasks] that picks who gets a task and clears the
    role-block flags of the others. *)
Fixpoint night_eligible (actors : list nat) : M (list nat) :=
  match actors with
  | [] => mret []
  | i :: rest =>
      p ← get_player i;
      if dead p || night_role_blocked p then
        (update_player i (set_night_role_blocked false) ;;
         night_eligible rest)
      else (l ← night_eligible rest; mret (i :: l))
  end.

Definition night_tasks (arrivals : list Arrival) : M unit :=
  g ← get_game;
  send ChInfo (MNightEmbed (_day g - 1)) ;;
  match godfather g with
  | None => raise AttributeError
  | Some gf =>
      godfather ← get_player gf;
      (if night_role_blocked godfather
       then send ChMafia MGodfatherCannotKill
       else send ChMafia MGodfatherPrompt) ;;
      eligible ← night_eligible (roster_indices g);
      waiting ← start_tasks night_task_begin eligible;
      run_arrivals night_task_finish
        (if night_role_blocked godfather then None else Some gf)
        arrivals waiting
  end.
(** *** game.py: [day_tasks] *)

(** What reaches the bot during a day: the answers completing day tasks,
    the messages the nomination wait sees before the deadline, and the
    users found on the two reactions of the vote message when the day
    ends. *)
Record DayInput := {
  day_arrivals : list Arrival;
  chat_log : list DiscordMessage;
  yes_users : list Member;
  no_users : list Member;
}.

(** [bot.wait_for("message", check=...)]: the messages are offered to the
    check one by one until it accepts; [None] when the task is still
    waiting at the deadline. *)
Fixpoint wait_for_nomination
    (check : DiscordMessage -> Nominations -> M (bool * Nominations))
    (msgs : list DiscordMessage) (n : Nominations)
  : M (option Nominations) :=
  match msgs with
  | [] => mret None
  | m :: rest =>
      '(accepted, n') ← check m n;
      if accepted : bool then mret (Some n')
      else wait_for_nomination check rest n'
  end.

(** [nominate_player]: the vote message [msg], named by its nominee. *)
Definition nominate_player (msgs : list DiscordMessage)
  : M (option nat) :=
  g ← get_game;
  r ← wait_for_nomination
        (nomination_check (noms_needed g false) ChChat false)
        msgs no_nominations;
  match r ≫= nomination with
  | Some nominee =>
      send ChChat (MNominatedForHanging nominee) ;; mret (Some nominee)
  | None => mret None
  end.

(** The users of a reaction that are living players. *)
Definition count_votes (g : MafiaGame) (users : list Member) : nat :=
  length (filter (fun user =>
                    existsb (fun p => member_eqb (member p) user
                                      && negb (dead p)) (players g) = true)
                 users).

(** The branch [if yes_count > no_count]; the [return] of the handler of
    [IndexError] leaves [day_tasks] at once. *)
Definition lynch (player : nat) : M bool :=
  update_player player (set_dead true) ;;
  update_player player (set_lynched true) ;;
  p ← get_player player;
  proceed ← (if is_mafia p && is_godfather p
             then try_except (choose_godfather ;; mret true)
                             IndexError (mret false)
             else mret true);
  if proceed : bool
  then (day_notification [NLynched player] ;; mret true)
  else mret false.

Definition living (g : MafiaGame) : list nat :=
  (filter (fun ip => dead ip.2 = false) (indexed (players g))).*1.

Definition day_tasks (inp : DayInput) : M unit :=
  g ← get_game;
  waiting ← start_tasks day_task_begin (living g);
  run_arrivals day_task_finish None (day_arrivals inp) waiting ;;
  msg ← (if bool_decide (1 < _day g)%Z
         then nominate_player (chat_log inp)
         else mret None);
  match msg with
  | Some nominee =>
      g' ← get_game;
      if (count_votes g' (no_users inp) <? count_votes g' (yes_users inp))%nat
      then (lynch nominee ;; mret tt)
      else mret tt
  | None => mret tt
  end.

(** *** game.py: [_cycle] and [_start] *)

Record CycleInput := {
  day_input : DayInput;
  night_arrivals : list Arrival;
}.

Definition _cycle_night (inp : CycleInput) : M bool :=
  g ← get_game;
  put_game (set__day (_day g + 1)%Z g) ;;
  night_tasks (night_arrivals inp) ;;
  g' ← get_game;
  mret (check_winner g').

Definition _cycle_day (inp : CycleInput) : M bool :=
  day_tasks (day_input inp) ;;
  g ← get_game;
  if check_winner g then mret true else _cycle_night inp.

Definition _cycle (inp : CycleInput) : M bool :=
  pre_day ;;
  g ← get_game;
  if check_winner g then mret true else _cycle_day inp.

(** [while True: if await self._cycle(): break], for as many cycles as
    there is input. The result tells whether the game is over. *)
Fixpoint cycles (inps : list CycleInput) : M bool :=
  match inps with
  | [] => mret false
  | inp :: rest =>
      over ← _cycle inp;
      if over : bool then mret true else cycles rest
  end.

(** [pick_players]: [members] is [self._members] as the shuffles leave
    it; [pop()] takes from its end. *)
Fixpoint pop_each {A} (n : nat) (members : list Member)
    (mk : Member -> A) : outcome (list A * list Member) :=
  match n with
  | O => Ret ([], members)
  | S n' =>
      match reverse members with
      | [] => Raise IndexError
      | m :: r =>
          match pop_each n' (reverse r) mk with
          | Ret (l, ms) => Ret (mk m :: l, ms)
          | Raise e => Raise e
          end
      end
  end.

Fixpoint pop_roles (roles : list PlayerClass) (members : list Member)
  : outcome (list Player * list Member) :=
  match roles with
  | [] => Ret ([], members)
  | role :: rest =>
      match reverse members with
      | [] => Raise IndexError
      | m :: r =>
          match pop_roles rest (reverse r) with
          | Ret (l, ms) => Ret (new_player role m :: l, ms)
          | Raise e => Raise e
          end
      end
  end.

Record MafiaGameConfig := {
  starting_mafia : Z;
  special_roles : list PlayerClass;
}.

Definition pick_players (config : MafiaGameConfig) (members : list Member)
  : outcome (list Player) :=
  match pop_roles (special_roles config) members with
  | Raise e => Raise e
  | Ret (specials, members1) =>
      let mafia_so_far :=
        count_players (fun p => is_mafia p && negb (dead p)) specials in
      match pop_each (Z.to_nat (starting_mafia config
                                - Z.of_nat mafia_so_far))
                     members1 (new_player Mafia) with
      | Raise e => Raise e
      | Ret (mafias, members2) =>
          Ret (specials ++ mafias
               ++ map (new_player Citizen) (reverse members2))
      end
  end.

(** [Executioner.startup_channel_message], called for every player by
    [setup_channels]: the Executioner draws its target. *)
Definition startup_channel_message (self : nat) : M unit :=
  me ← get_player self;
  match cls me with
  | Executioner =>
      g ← get_game;
      t ← choice (filter (fun ip => is_citizen ip.2 = true)
                         (indexed (players g))).*1;
      update_player self (set_target (Some t))
  | _ => mret tt
  end.

Definition new_game (ps : list Player) : MafiaGame :=
  {| players := ps; is_day := true; _day := 1;
     _day_notifications := ∅ |}.

Definition new_world (ps : list Player) (rand : nat -> nat) : World :=
  {| game := new_game ps; sent := []; entropy := rand; drawn := 0 |}.

(** [_start], up to the loop of cycles. *)
Definition _start_setup : M unit :=
  g ← get_game;
  for_each (roster_indices g) startup_channel_message ;;
  choose_godfather.

Definition _start (inps : list CycleInput) : M bool :=
  _start_setup ;; cycles inps.

Definition play (config : MafiaGameConfig) (members : list Member)
    (rand : nat -> nat) (inps : list CycleInput) : outcome bool * World :=
  match pick_players config members with
  | Raise e => (Raise e, new_world [] rand)
  | Ret ps => _start inps (new_world ps rand)
  end.

End Engine.

(** ** Weakest preconditions of the engine's procedures *)

(** [wp m Q E w]: run from [w], the procedure [m] returns a value and a
    world that satisfy [Q], or raises in a world that satisfies [E]. *)
Definition wp {A} (m : M A) (Q : A -> World -> Prop)
    (E : Exc -> World -> Prop) (w : World) : Prop :=
  match m w with
  | (Ret a, w') => Q a w'
  | (Raise e, w') => E e w'
  end.

Definition with_game (g : MafiaGame) (w : World) : World :=
  {| game := g; sent := sent w; entropy := entropy w; drawn := drawn w |}.

Definition with_players (f : list Player -> list Player) (w : World)
  : World :=
  with_game (set_players (f (players (game w))) (game w)) w.

Definition with_sent (e : Event) (w : World) : World :=
  {| game := game w; sent := sent w ++ [e]; entropy := entropy w;
     drawn := drawn w |}.

(** The player object at a roster position. *)
Definition player_at (w : World) (i : nat) : option Player :=
  players (game w) !! i.

(** What the cleanup of [pre_day] leaves alone. *)
Definition identity_and_life (p : Player) : PlayerClass * Member * bool :=
  (cls p, member p, dead p).

(** ** Concrete games *)

(** A stand-in for the fuzzy matcher: only an exact name reaches the
    cutoff. *)
Definition exact_name (arg : string) (names : list string) : option nat :=
  fst <$> list_find (fun n => n = arg) names.

Definition mk_member (n : string) (i : Z) : Member :=
  {| name := n; mention := "<@" ++ n ++ ">"; id := i |}.

Definition seven_members : list Member :=
  [mk_member "ann" 1; mk_member "bob" 2; mk_member "cat" 3;
   mk_member "dan" 4; mk_member "eve" 5; mk_member "fay" 6;
   mk_member "gus" 7].

Definition roster_of (config : MafiaGameConfig) (members : list Member)
  : list Player :=
  match pick_players config members with
  | Ret ps => ps
  | Raise _ => []
  end.

Definition quiet_day : DayInput :=
  {| day_arrivals := []; chat_log := []; yes_users := []; no_users := [] |}.

(** Seven players: a Doctor (0), a Sheriff (1), a Jailor (2), two Mafia (3,
    the godfather, and 4) and two Citizens (5, 6).  On day 1 the Jailor
    jails player 5; in night 1 the Sheriff shoots player 4, the Doctor then
    protects player 4, and the Jailor executes its prisoner. *)
Definition protection_config : MafiaGameConfig :=
  {| starting_mafia := 2; special_roles := [Doctor; Sheriff; Jailor] |}.

Definition protection_cycle : CycleInput :=
  {| day_input := {| day_arrivals := [TaskAnswers 2 [5]]; chat_log := [];
                     yes_users := []; no_users := [] |};
     night_arrivals := [TaskAnswers 1 [4]; TaskAnswers 0 [4];
                        TaskAnswers 2 []] |}.

(** The world when the second [pre_day] starts. *)
Definition protection_night_over : World :=
  (_start exact_name [protection_cycle]
     (new_world (roster_of protection_config seven_members) (fun _ => 0))).2.

(** Seven players without special roles: two Mafia (0, the godfather, and
    1) and five Citizens (2 to 6).  Cycle 1 is quiet; on day 2 two players
    nominate the godfather and three living players vote yes. *)
Definition plain_config : MafiaGameConfig :=
  {| starting_mafia := 2; special_roles := [] |}.

Definition quiet_cycle : CycleInput :=
  {| day_input := quiet_day; night_arrivals := [] |}.

Definition chat_message (who : Member) (text : string) : DiscordMessage :=
  {| m_channel := ChChat; author := who; content := text |}.

Definition lynch_day : DayInput :=
  {| day_arrivals := [];
     chat_log := [chat_message (mk_member "ann" 1) ">>nominate gus";
                  chat_message (mk_member "bob" 2) ">>nominate gus"];
     yes_users := [mk_member "ann" 1; mk_member "bob" 2; mk_member "cat" 3];
     no_users := [] |}.

Definition lynch_cycle : CycleInput :=
  {| day_input := lynch_day; night_arrivals := [] |}.

Definition plain_world : World :=
  new_world (roster_of plain_config seven_members) (fun _ => 0).

(** The world when the vote of day 2 has been resolved. *)
Definition lynch_day_over : World :=
  ((_start exact_name [quiet_cycle] ;; pre_day ;;
    day_tasks exact_name lynch_day) plain_world).2.

(** The living mafia players flagged as godfather. *)
Definition living_godfathers (g : MafiaGame) : list nat :=
  (filter (fun ip => is_mafia ip.2 = true /\ dead ip.2 = false
                     /\ is_godfather ip.2 = true)
          (indexed (players g))).*1.

(** The invariant of the specification: while a mafia player lives, exactly
    one living mafia player is the godfather. *)
Definition exactly_one_godfather (g : MafiaGame) : Prop :=
  0 < total_mafia g -> length (living_godfathers g) = 1.

(** ** Invariants of a run *)

(** An invariant of the worlds of a run: the classes of the roster are
    [cs], every player satisfies [okp], every message sent after [base]
    satisfies [oke], and the day counter satisfies [okd]. *)
Definition Inv (okp : Player -> Prop) (oke : Event -> Prop)
    (okd : Z -> Prop) (cs : list PlayerClass) (base : list Event)
    (w : World) : Prop :=
  map cls (players (game w)) = cs
  /\ Forall okp (players (game w))
  /\ (exists evs, sent w = base ++ evs /\ Forall oke evs)
  /\ okd (_day (game w)).

(** [keeps I m R]: from a world in [I], the procedure [m] ends in a world
    in [I], whether it returns or raises, and what it returns satisfies
    [R]. *)
Definition keeps {A} (I : World -> Prop) (m : M A) (R : A -> Prop) : Prop :=
  forall w, I w -> wp m (fun a w' => I w' /\ R a) (fun _ w' => I w') w.

Definition any {A} (a : A) : Prop := True.

(** The messages whose sending depends on the state of the game. *)
Definition janitor_prompt : string :=
  "Provide the player you want to clean tonight".

Definition delicate (m : Message) : bool :=
  match m with
  | MCleaned _ => true
  | MNominatedForHanging _ => true
  | MPrompt text => bool_decide (text = janitor_prompt)
  | _ => false
  end.

(** ** What a Janitor would leave behind *)

(** A player nobody has cleaned, with the three cleans of the class
    default. *)
Definition never_cleaned (p : Player) : Prop :=
  cleaned_by p = None /\ cleans p = 3%Z.

(** A message that is neither the note to a cleaner nor the solicitation
    of [Janitor.night_task]. *)
Definition no_clean_message (e : Event) : Prop :=
  (forall v, message e <> MCleaned v)
  /\ message e <> MPrompt janitor_prompt.

(** Seven players with a Janitor (0), a second Mafia (1, the godfather) and
    five Citizens; in night 1 an answer for the Janitor arrives. *)
Definition janitor_config : MafiaGameConfig :=
  {| starting_mafia := 2; special_roles := [Janitor] |}.

Definition janitor_cycle : CycleInput :=
  {| day_input := quiet_day;
     night_arrivals := [TaskAnswers 0 [3]; GodfatherChoice 3] |}.

(** ** The first day of a game *)

(** A game up to the end of its first day phase: [_start] runs the setup,
    then [_cycle] runs [pre_day] and [day_tasks] (unless a winner is found
    in between, which ends the game before the day). *)
Definition first_day (extractBests : string -> list string -> option nat)
    (inp : DayInput) : M unit :=
  _start_setup ;; pre_day ;; day_tasks extractBests inp.

Definition not_lynched (p : Player) : Prop := lynched p = false.

(** A message that does not open a vote. *)
Definition no_vote_message (e : Event) : Prop :=
  forall t, message e <> MNominatedForHanging t.

(** ** Nominations that count *)

(** The player that a message nominates when [nomination_check] counts
    it: the message is in the watched channel, its author is a member of
    the roster, it starts with the command, the text after the command
    resolves to a living player who is not the author (and, for a mafia
    nomination, not a mafia player). *)
Definition counted_nominee
    (extractBests : string -> list string -> option nat)
    (g : MafiaGame) (chan : Channel) (mafia : bool) (m : DiscordMessage)
  : option nat :=
  if negb (bool_decide (m_channel m = chan)) then None
  else if negb (is_game_member g (author m)) then None
  else if negb (String.prefix ">>nominate " (content m)) then None
  else
    match get_mafia_player extractBests g
            (nth 1 (split ">>nominate " (content m)) "") with
    | Raise _ => None
    | Ret player =>
        if bool_decide (get_by_member (players g) (author m) = Some player)
        then None
        else
          match players g !! player with
          | Some p =>
              if dead p then None
              else if mafia && is_mafia p then None
              else Some player
          | None => None
          end
    end.

(** How many messages of a log are counted nominations of [t]. *)
Definition tally (extractBests : string -> list string -> option nat)
    (g : MafiaGame) (t : nat) (msgs : list DiscordMessage) : nat :=
  length (filter (fun m => counted_nominee extractBests g ChChat false m
                           = Some t) msgs).


(** ** Disguises *)

(** The specification's apparent identity: a disguised player is seen as
    the player it is disguised as. *)
Definition apparent (g : MafiaGame) (p : Player) : Player :=
  match disguised_as p ≫= (fun d => players g !! d) with
  | Some d => d
  | None => p
  end.

(** Seven players: a Disguiser (0), a Sheriff (1), a PI (2), two Mafia (3,
    the godfather, and 4) and two Citizens (5, 6).  In night 1 the
    Disguiser disguises player 4 as player 5. *)
Definition disguise_config : MafiaGameConfig :=
  {| starting_mafia := 3; special_roles := [Disguiser; Sheriff; PI] |}.

Definition disguise_cycle : CycleInput :=
  {| day_input := quiet_day; night_arrivals := [TaskAnswers 0 [4; 5]] |}.

Definition disguise_night : World :=
  (_start exact_name [disguise_cycle]
     (new_world (roster_of disguise_config seven_members) (fun _ => 0))).2.

(** ** Succession *)

(** The world after one draw from the random source. *)
Definition after_draw (w : World) : World :=
  {| game := game w; sent := sent w; entropy := entropy w;
     drawn := S (drawn w) |}.

(** The candidate that the next draw selects. *)
Definition drawn_candidate (w : World) (x : nat) (l : list nat) : nat :=
  nth (entropy w (drawn w) mod length (x :: l)) (x :: l) x.

(** The pool of successors as the specification words it: the living
    mafia, without the special-mafia roles when a plain living mafia is
    available. *)
Definition spec_successor_pool (g : MafiaGame) : list nat :=
  let living_mafia :=
    filter (fun ip => is_mafia ip.2 = true /\ dead ip.2 = false)
           (indexed (players g)) in
  let plain :=
    filter (fun ip => cls ip.2 ∉ __special_mafia__) living_mafia in
  match plain with
  | [] => living_mafia.*1
  | _ => plain.*1
  end.

(** Seven players with a Janitor (0), one plain Mafia (1, the godfather)
    and five Citizens; on day 2 the town lynches the godfather. *)
Definition janitor_lynch_day : DayInput :=
  {| day_arrivals := [];
     chat_log := [chat_message (mk_member "ann" 1) ">>nominate fay";
                  chat_message (mk_member "bob" 2) ">>nominate fay"];
     yes_users := [mk_member "ann" 1; mk_member "bob" 2; mk_member "cat" 3];
     no_users := [] |}.

Definition janitor_world : World :=
  new_world (roster_of janitor_config seven_members) (fun _ => 0).

(** The world just before the vote of day 2 is resolved, with the lynched
    player already marked. *)
Definition janitor_day_two : World :=
  ((_start exact_name [quiet_cycle] ;; pre_day) janitor_world).2.

Definition janitor_lynch_over : World :=
  (day_tasks exact_name janitor_lynch_day janitor_day_two).2.

(** What [pre_day] sends for a death and the locals it leaves: a note to
    the cleaner, or the chat line with one more line for the embed. *)
Definition death_notice (i k : nat) (player : Player)
    (loc : list Notif * list nat) : Event * (list Notif * list nat) :=
  match cleaned_by player with
  | Some cleaner => (Send (ChPlayer cleaner) (MCleaned i), loc)
  | None => (Send ChChat (MKilledDuringNight i),
             (loc.1 ++ [NKilledBy i k], loc.2 ++ [i]))
  end.

Definition off_info (e : Event) : Prop := channel e <> ChInfo.

(** ** What a night resolution reports *)

(** A player without the two flags that the resolution of a night
    changes. *)
Definition frozen (p : Player) : Player :=
  set_dead false (set_is_godfather false p).

Definition dead_at (w : World) (i : nat) : option bool :=
  dead <$> players (game w) !! i.

Definition chat_kill (j : nat) : Event := Send ChChat (MKilledDuringNight j).

(** The notice of a death in the loop of [pre_day]: the chat line of the
    death or, for a cleaned body, the note to the cleaner. *)
Definition death_note (e : Event) : Prop :=
  exists j, e = chat_kill j \/ exists c, e = Send (ChPlayer c) (MCleaned j).

(** In [evs] every designation of a godfather comes right after the
    notice of a death. *)
Definition drawn_after_notice (evs : list Event) : Prop :=
  forall pre n post,
    evs = pre ++ Send (ChPlayer n) MYouAreTheGodfather :: post ->
    exists pre' e, pre = pre' ++ [e] /\ death_note e.

Definition uncleaned (w : World) (j : nat) : Prop :=
  exists p, players (game w) !! j = Some p /\ cleaned_by p = None.

(** A public message, in the loop of [pre_day], is the chat line of a
    death. *)
Definition public_is_kill (e : Event) : Prop :=
  public (channel e) = true -> exists j, e = chat_kill j.

(** [night_report l w w' lines]: going from [w] to [w'], the loop of
    [pre_day] over the players [l] has left the ledger as it was, has
    touched the [dead] flag of the players of [l] only, and for every
    player of [l] that died it has sent the note to its cleaner, or the
    chat line of the death together with a line for the embed; chat lines
    and embed lines are about players that were not cleaned. *)
Definition night_report (l : list nat) (w w' : World) (lines : list Notif)
  : Prop :=
  map frozen (players (game w')) = map frozen (players (game w))
  /\ _day (game w') = _day (game w)
  /\ _day_notifications (game w') = _day_notifications (game w)
  /\ (forall j, j ∉ l -> dead_at w' j = dead_at w j)
  /\ (forall j k, NKilledBy j k ∈ lines -> uncleaned w j)
  /\ (forall n, n ∈ lines -> exists j k, n = NKilledBy j k)
  /\ exists evs,
       sent w' = sent w ++ evs
       /\ Forall public_is_kill evs
       /\ (forall j, chat_kill j ∈ evs -> uncleaned w j)
       /\ (forall i p, i ∈ l -> players (game w) !! i = Some p ->
             dead p = false -> dead_at w' i = Some true ->
             exists k,
               killed_by p = Some k
               /\ is_Some (players (game w) !! k)
               /\ match cleaned_by p with
                  | Some c => Send (ChPlayer c) (MCleaned i) ∈ evs
                  | None => chat_kill i ∈ evs /\ NKilledBy i k ∈ lines
                  end).

(** Seven players with a Janitor (0), a Sheriff (1), two Mafia (2, the
    godfather, and 3) and three Citizens.  A state that no run reaches is
    set up by hand for the start of day 2: player 4 was killed by the
    godfather and cleaned by the Janitor, and the godfather was shot by
    the Sheriff. *)
Definition cleaning_config : MafiaGameConfig :=
  {| starting_mafia := 3; special_roles := [Janitor; Sheriff] |}.

Definition cleaned_night : World :=
  let w := with_players
             (fun ps =>
                alter (kill 1) 2 (alter (clean 0) 4 (alter (kill 2) 4 ps)))
             ((_start exact_name []
                 (new_world (roster_of cleaning_config seven_members)
                            (fun _ => 0))).2) in
  with_game (set__day 2 (game w)) w.

(** The player objects read in the concrete games. *)
Definition the_player (w : World) (i : nat) : Player :=
  default (new_player Citizen (mk_member "" 0)) (player_at w i).

(** A world whose ledger [pre_day] can resolve: whoever killed has an
    attack tier, whoever protects has a defense tier, and the roster has a
    plain mafia player to draw as godfather. *)
Definition ledger_resolves (w : World) : Prop :=
  (forall i p, players (game w) !! i = Some p ->
     (forall k, killed_by p = Some k ->
        exists killer, players (game w) !! k = Some killer
                       /\ is_Some (attack_type killer))
     /\ (forall q, protected_by p = Some q ->
           exists protector, players (game w) !! q = Some protector
                             /\ is_Some (defense_type protector)))
  /\ godfather_candidates (game w) <> [].

Definition has_tier {T} (ps : list Player) (tier : Player -> option T)
    (r : option nat) : bool :=
  match r with
  | None => true
  | Some k => match ps !! k with
              | Some q => bool_decide (is_Some (tier q))
              | None => false
              end
  end.

Definition resolvable (w : World) : bool :=
  forallb (fun p => has_tier (players (game w)) attack_type (killed_by p)
                    && has_tier (players (game w)) defense_type
                         (protected_by p))
          (players (game w))
  && negb (bool_decide (godfather_candidates (game w) = [])).

(** ** How a run may change the world *)

(** [evolves R G w w']: from [w] to [w'] the roster keeps its length and
    every player object moves along [R], the rest of the game object moves
    along [G], what was sent is still there, and the random source has
    only been read further. *)
Definition evolves (R : Player -> Player -> Prop)
    (G : MafiaGame -> MafiaGame -> Prop) (w w' : World) : Prop :=
  Forall2 R (players (game w)) (players (game w'))
  /\ G (game w) (game w')
  /\ sent w `prefix_of` sent w'
  /\ entropy w' = entropy w
  /\ drawn w <= drawn w'.

(** [steady R G m]: the procedure [m] changes the world along [R] and [G]
    only, whether it returns or raises. *)
Definition steady (R : Player -> Player -> Prop)
    (G : MafiaGame -> MafiaGame -> Prop) {A} (m : M A) : Prop :=
  forall w, evolves R G w (m w).2.

(** Class, member, life and the lynch flag: what the ledger of a night
    does not touch. *)
Definition same_standing (p p' : Player) : Prop :=
  cls p' = cls p /\ member p' = member p
  /\ dead p' = dead p /\ lynched p' = lynched p.

(** Class and member stay; death and lynching are not undone. *)
Definition no_way_back (p p' : Player) : Prop :=
  cls p' = cls p /\ member p' = member p
  /\ (dead p = true -> dead p' = true)
  /\ (lynched p = true -> lynched p' = true).

(** The phase flag, the day counter and the lines of every day. *)
Definition same_calendar (g g' : MafiaGame) : Prop :=
  is_day g' = is_day g /\ _day g' = _day g
  /\ _day_notifications g' = _day_notifications g.

(** The phase flag stays; the day counter does not go back and no line
    collected for a day is dropped. *)
Definition calendar_advances (g g' : MafiaGame) : Prop :=
  is_day g' = is_day g /\ (_day g <= _day g')%Z
  /\ forall d, default [] (_day_notifications g !! d)
               `prefix_of` default [] (_day_notifications g' !! d).

(** The standing of a player: its class, its member, and whether it is
    dead or was lynched. *)
Definition standing (p : Player) : PlayerClass * Member * bool * bool :=
  (cls p, member p, dead p, lynched p).

(** What [lynch] does to the player it is called on. *)
Definition hang (p : Player) : Player := set_lynched true (set_dead true p).

(** ** Configurations *)

(** How many of the special roles of a configuration are mafia roles:
    [total_mafia] when only they are in the roster. *)
Definition special_mafia_count (config : MafiaGameConfig) : nat :=
  length (filter (fun c => class_is_mafia c = true) (special_roles config)).

(** [range(self._config.starting_mafia - self.total_mafia)]: how many plain
    mafia players [pick_players] adds. *)
Definition plain_mafia_added (config : MafiaGameConfig) : nat :=
  Z.to_nat (starting_mafia config - Z.of_nat (special_mafia_count config)).

(** ** Nights and mornings *)

(** Whether the player at a position gets a night task: it lives and is
    not role-blocked. *)
Definition acts_tonight (g : MafiaGame) (i : nat) : bool :=
  match players g !! i with
  | Some p => negb (dead p || night_role_blocked p)
  | None => false
  end.

(** What the cleanup of [pre_day] does to a player object. *)
Definition tidy (p : Player) : Player :=
  if dead p then p else cleanup_attrs p.

(** A player object with an empty night ledger. *)
Definition ledger_empty (p : Player) : Prop :=
  killed_by p = None /\ visited_by p = [] /\ protected_by p = None
  /\ cleaned_by p = None /\ disguised_as p = None
  /\ night_role_blocked p = false /\ jailed p = JFlag false.

(** Seven players with an Arsonist (0), two Mafia (1, the godfather, and
    2) and four Citizens. *)
Definition arson_config : MafiaGameConfig :=
  {| starting_mafia := 2; special_roles := [Arsonist] |}.

(** Seven players with an Executioner (0), two Mafia and four Citizens,
    before the setup. *)
Definition executioner_config : MafiaGameConfig :=
  {| starting_mafia := 2; special_roles := [Executioner] |}.

Definition executioner_world : World :=
  new_world (roster_of executioner_config seven_members) (fun _ => 0).

(** A text in which the separator does not occur. *)
Fixpoint free_of (sep s : string) : bool :=
  match s with
  | EmptyString => true
  | String _ s' => negb (String.prefix sep s) && free_of sep s'
  end.

(** Seven players with a Jester (0), a Sheriff (1), two Mafia (2, the
    godfather, and 3) and three Citizens; in night 1 the Sheriff shoots
    the Jester.  The world when the second [pre_day] starts. *)
Definition jester_config : MafiaGameConfig :=
  {| starting_mafia := 2; special_roles := [Jester; Sheriff] |}.

Definition jester_cycle : CycleInput :=
  {| day_input := quiet_day; night_arrivals := [TaskAnswers 1 [0]] |}.

Definition jester_shot : World :=
  (_start exact_name [jester_cycle]
     (new_world (roster_of jester_config seven_members) (fun _ => 0))).2.

(** The phase flag and the day counter. *)
Definition same_date (g g' : MafiaGame) : Prop :=
  is_day g' = is_day g /\ _day g' = _day g.

(** The game of [plain_config] when the setup is over. *)
Definition plain_start : World := (_start exact_name [] plain_world).2.

(** ** game.py: the permission overwrites of [setup_channels] *)

(** [discord.PermissionOverwrite]: a permission is allowed, denied or
    left unset. *)
Record PermissionOverwrite := {
  read_messages : option bool;
  send_messages : option bool;
  read_message_history : option bool;
  attach_files : option bool;
  add_reactions : option bool;
}.

Definition default_role_overwrites : PermissionOverwrite :=
  {| read_messages := Some false; send_messages := Some true;
     read_message_history := Some true; attach_files := Some false;
     add_reactions := Some false |}.

Definition default_role_disabled_overwrites : PermissionOverwrite :=
  {| read_messages := Some false; send_messages := Some false;
     read_message_history := Some true; attach_files := Some false;
     add_reactions := Some false |}.

Definition jail_overwrites : PermissionOverwrite :=
  {| read_messages := Some false; send_messages := Some true;
     read_message_history := Some false; attach_files := Some false;
     add_reactions := Some false |}.

Definition bot_overwrites : PermissionOverwrite :=
  {| read_messages := Some true; send_messages := Some true;
     read_message_history := None; attach_files := None;
     add_reactions := Some true |}.

Definition user_overwrites : PermissionOverwrite :=
  {| read_messages := Some true; send_messages := None;
     read_message_history := None; attach_files := None;
     add_reactions := None |}.

(** The keys of [channels_needed]: the five names, and the player objects
    (by roster position). *)
Inductive ChannelKey :=
| KInfo | KChat | KMafiaChat | KDeadChat | KJail
| KPlayer (i : nat).

Global Instance ChannelKey_eq_dec : EqDecision ChannelKey.
Proof. solve_decision. Defined.

(** The keys of an overwrite dictionary: [guild.default_role], or a
    member, [guild.me] included; members are equal when their ids are. *)
Inductive Principal :=
| DefaultRole
| User (uid : Z).

Global Instance Principal_eq_dec : EqDecision Principal.
Proof. solve_decision. Defined.

(** [channels_needed]: a dictionary of overwrites per channel, read here
    through its lookups. *)
Definition ChannelsNeeded : Type :=
  ChannelKey -> Principal -> option PermissionOverwrite.

(** [channels_needed[c][who] = o] *)
Definition setitem (c : ChannelKey) (who : Principal)
    (o : PermissionOverwrite) (cn : ChannelsNeeded) : ChannelsNeeded :=
  fun c' who' =>
    if decide (c' = c /\ who' = who) then Some o else cn c' who'.

(** The entries made before the loop over the players; [me] is the id of
    [guild.me]. *)
Definition special_channels (me : Z) : ChannelsNeeded :=
  setitem KJail (User me) bot_overwrites
    (setitem KJail DefaultRole jail_overwrites
       (setitem KDeadChat (User me) bot_overwrites
          (setitem KDeadChat DefaultRole default_role_overwrites
             (setitem KMafiaChat (User me) bot_overwrites
                (setitem KMafiaChat DefaultRole default_role_overwrites
                   (setitem KChat (User me) bot_overwrites
                      (setitem KChat DefaultRole default_role_overwrites
                         (setitem KInfo (User me) bot_overwrites
                            (setitem KInfo DefaultRole
                               default_role_disabled_overwrites
                               (fun _ _ => None)))))))))).

(** One round of the loop over [self.players]. *)
Definition player_channels (me : Z) (i : nat) (player : Player)
    (cn : ChannelsNeeded) : ChannelsNeeded :=
  let who := User (id (member player)) in
  let cn1 := if is_mafia player
             then setitem KMafiaChat who user_overwrites cn else cn in
  setitem (KPlayer i) (User me) bot_overwrites
    (setitem (KPlayer i) who user_overwrites
       (setitem (KPlayer i) DefaultRole default_role_overwrites
          (setitem KInfo who user_overwrites
             (setitem KChat who user_overwrites cn1)))).

Fixpoint players_channels (me : Z) (ps : list Player) (i : nat)
    (cn : ChannelsNeeded) : ChannelsNeeded :=
  match ps with
  | [] => cn
  | p :: ps' => players_channels me ps' (S i) (player_channels me i p cn)
  end.

(** [channels_needed] when the loop is over. *)
Definition channels_needed (me : Z) (ps : list Player) : ChannelsNeeded :=
  players_channels me ps 0 (special_channels me).

(** Whether a member plays in the roster, and whether it plays a mafia
    role there. *)
Definition plays (ps : list Player) (uid : Z) : bool :=
  existsb (fun p => (id (member p) =? uid)%Z) ps.

Definition plays_mafia (ps : list Player) (uid : Z) : bool :=
  existsb (fun p => is_mafia p && (id (member p) =? uid)%Z) ps.

(** ** utils.py and game.py: the questions of the setup *)

Section Setup.

(** [int(text)]: the integer that Python reads from a text, [None] when
    it raises [ValueError]. *)
Variable py_int : string -> option Z.

(** The channel and the author of the command that started the setup
    ([ctx.channel], [ctx.author]). *)
Variable ctx_channel : Channel.
Variable ctx_author : Member.

(** The closure [check] returned by [min_max_check(ctx, min, max)]. *)
Definition min_max_check (min max : Z) (m : DiscordMessage) : bool :=
  if negb (bool_decide (m_channel m = ctx_channel)) then false
  else if negb (member_eqb (author m) ctx_author) then false
  else
    match py_int (content m) with
    | None => false
    | Some amt => (min <=? amt)%Z && (amt <=? max)%Z
    end.

(** [bot.wait_for("message", check=check)] over the messages that arrive:
    the first one that the check accepts, with those that come after it;
    [None] while none is accepted. *)
Fixpoint wait_for (check : DiscordMessage -> bool)
    (msgs : list DiscordMessage)
  : option (DiscordMessage * list DiscordMessage) :=
  match msgs with
  | [] => None
  | m :: rest => if check m then Some (m, rest) else wait_for check rest
  end.

(** [_setup_amount_players]: the two answers, read again with [int];
    the result is [(min_players, max_players)] and the messages not yet
    consumed.  (The two questions are sent to [ctx].) *)
Definition _setup_amount_players (msgs : list DiscordMessage)
  : option (Z * Z * list DiscordMessage) :=
  '(answer, rest) ← wait_for (min_max_check 3 25) msgs;
  max_players ← py_int (content answer);
  '(answer', rest') ← wait_for (min_max_check 3 max_players) rest;
  min_players ← py_int (content answer');
  Some (min_players, max_players, rest').

(** [_setup_amount_mafia(players)]; [int(players / 2)] truncates the
    quotient. *)
Definition _setup_amount_mafia (players : nat) (msgs : list DiscordMessage)
  : option (Z * list DiscordMessage) :=
  '(answer, rest) ← wait_for (min_max_check 1 (Z.of_nat players ÷ 2)) msgs;
  amount_of_mafia ← py_int (content answer);
  Some (amount_of_mafia, rest).

End Setup.

(** ** Games set up by hand *)

(** The game of a configuration and [seven_members] in its first morning:
    the setup is done and the first [pre_day] has run, so that every
    player has been through [cleanup_attrs]. *)
Definition first_morning (config : MafiaGameConfig) (rand : nat -> nat)
  : World :=
  ((_start_setup ;; pre_day)
     (new_world (roster_of config seven_members) rand)).2.

(** The state in which [pre_day] finds a game on its next day, when the
    night has left the entries [ledger] on the roster: the day counter is
    one further and no line is collected yet for the new day. *)
Definition next_morning (ledger : list Player -> list Player) (w : World)
  : World :=
  with_players ledger
    (with_game (set__day (_day (game w) + 1) (game w)) w).

(** The game of [arson_config] and the game of [protection_config] on
    their first morning, when [pre_day] has given every player its empty
    ledger. *)
Definition arson_world : World := first_morning arson_config (fun _ => 0).

Definition protection_world : World :=
  first_morning protection_config (fun _ => 0).

(** What a procedure has sent, run from [w]. *)
Definition sent_by {A} (m : M A) (w : World) : list Event :=
  drop (length (sent w)) (sent (m w).2).

(** A Sheriff (0), four Mafia (1, the godfather, to 4) and two Citizens,
    when the check that follows the first night is made: everybody is
    alive and the day counter is at 2. *)
Definition majority_config : MafiaGameConfig :=
  {| starting_mafia := 4; special_roles := [Sheriff] |}.

Definition majority_night : World :=
  next_morning (fun ps => ps) (first_morning majority_config (fun _ => 0)).

(** A Sheriff (0), three Mafia (1, the godfather, to 3) and three
    Citizens.  In the first night the godfather has killed player 5 and
    the Sheriff has shot player 6; [pre_day] has resolved that night on
    day 2, and [outnumbered_night] is the game when the check that
    follows the second night is made, the day counter at 3. *)
Definition outnumbered_config : MafiaGameConfig :=
  {| starting_mafia := 3; special_roles := [Sheriff] |}.

Definition outnumbered_night : World :=
  next_morning (fun ps => ps)
    (pre_day
       (next_morning (fun ps => alter (kill 0) 6 (alter (kill 1) 5 ps))
          (first_morning outnumbered_config (fun _ => 0)))).2.

(** The game as [Mafia.win_condition] would read it with the phase flag
    cleared. *)
Definition by_night (g : MafiaGame) : MafiaGame :=
  {| players := players g; is_day := false; _day := _day g;
     _day_notifications := _day_notifications g |}.

(** A Sheriff (0), two Mafia (1, the godfather, and 2) and four Citizens,
    on the morning of day 2: the Sheriff has shot the godfather in the
    night.  The random source is [rand]. *)
Definition sheriff_config : MafiaGameConfig :=
  {| starting_mafia := 2; special_roles := [Sheriff] |}.

Definition godfather_shot (rand : nat -> nat) : World :=
  next_morning (alter (kill 0) 1) (first_morning sheriff_config rand).

(** The same game on day 2, after its [pre_day], with nobody killed in
    the night: the state in which a vote of day 2 is resolved. *)
Definition second_day (rand : nat -> nat) : World :=
  (pre_day (next_morning (fun ps => ps)
              (first_morning sheriff_config rand))).2.

(** A Janitor (0), a Sheriff (1), one plain Mafia (2, the godfather) and
    four Citizens, on the morning of day 2: the Sheriff has shot the
    godfather in the night. *)
Definition janitor_sheriff_config : MafiaGameConfig :=
  {| starting_mafia := 2; special_roles := [Janitor; Sheriff] |}.

Definition lone_godfather_shot : World :=
  next_morning (alter (kill 1) 2)
    (first_morning janitor_sheriff_config (fun _ => 0)).

(** Two Mafia (0 and 1) and five Citizens, on the morning of day 2: the
    godfather, player [gf], has killed player 5 (bob) in the night. *)
Definition mafia_kill_by (gf : nat) : World :=
  next_morning (alter (kill gf) 5) (first_morning plain_config (fun _ => gf)).

(** The game of [cleaning_config] on the morning of day 2: the godfather
    (2) has killed player 4 (cat) and the Janitor (0) has cleaned the
    body; in [cleaned_morning] the Sheriff (1) has shot the godfather as
    well. *)
Definition cleaned_only : World :=
  next_morning (fun ps => alter (clean 0) 4 (alter (kill 2) 4 ps))
    (first_morning cleaning_config (fun _ => 0)).

Definition cleaned_morning : World :=
  next_morning
    (fun ps => alter (kill 1) 2 (alter (clean 0) 4 (alter (kill 2) 4 ps)))
    (first_morning cleaning_config (fun _ => 0)).

(** * Properties *)

(** ** Text resolution, by example *)

Example split_nominate :
  split ">>nominate " ">>nominate bob>>nominate eve" = [""; "bob"; "eve"].
Proof. reflexivity. Qed.

Example match_user_id_mention :
  match_user_id "<@!123456789012345678>" = Some 123456789012345678%Z.
Proof. reflexivity. Qed.

Example match_user_id_short : match_user_id "12345" = None.
Proof. reflexivity. Qed.

(** ** Reasoning about the engine's procedures *)

Lemma wp_ret {A} (a : A) Q E w : wp (mret a) Q E w <-> Q a w.
Proof. reflexivity. Qed.

Lemma wp_raise {A} e (Q : A -> World -> Prop) E w :
  wp (raise e) Q E w <-> E e w.
Proof. reflexivity. Qed.

Lemma wp_bind {A B} (m : M A) (f : A -> M B) Q E w :
  wp (m ≫= f) Q E w <-> wp m (fun a w' => wp (f a) Q E w') E w.
Proof.
  unfold wp, mbind, M_bind. destruct (m w) as [[a|e] w']; reflexivity.
Qed.

Lemma wp_mono {A} (m : M A) (Q Q' : A -> World -> Prop)
    (E E' : Exc -> World -> Prop) w :
  (forall a w', Q a w' -> Q' a w') ->
  (forall e w', E e w' -> E' e w') ->
  wp m Q E w -> wp m Q' E' w.
Proof.
  unfold wp. intros HQ HE. destruct (m w) as [[a|e] w']; auto.
Qed.

Lemma wp_get_game Q E w : wp get_game Q E w <-> Q (game w) w.
Proof. reflexivity. Qed.

Lemma wp_lift {A} (o : outcome A) Q E w :
  wp (lift o) Q E w <->
  match o with Ret a => Q a w | Raise e => E e w end.
Proof. unfold wp, lift. destruct o; reflexivity. Qed.

Lemma wp_get_player i Q E w :
  wp (get_player i) Q E w <->
  match players (game w) !! i with
  | Some p => Q p w
  | None => E IndexError w
  end.
Proof.
  unfold get_player. rewrite wp_bind, wp_get_game.
  destruct (players (game w) !! i); reflexivity.
Qed.

Lemma wp_put_game g Q E w : wp (put_game g) Q E w <-> Q tt (with_game g w).
Proof. reflexivity. Qed.

Lemma wp_update_player i f Q E w :
  wp (update_player i f) Q E w <-> Q tt (with_players (alter f i) w).
Proof. reflexivity. Qed.

Lemma wp_send c m Q E w :
  wp (send c m) Q E w <-> Q tt (with_sent (Send c m) w).
Proof. reflexivity. Qed.

Lemma wp_when (b : bool) (m : M unit) Q E w :
  wp (when b m) Q E w <-> if b then wp m Q E w else Q tt w.
Proof. destruct b; reflexivity. Qed.

Lemma wp_confine (m : M unit) Q E w :
  wp (confine m) Q E w <-> wp m Q (fun _ w' => Q tt w') w.
Proof.
  unfold wp, confine. destruct (m w) as [[[]|e] w']; reflexivity.
Qed.

(** ** C2: the win condition of the mafia *)

Lemma Qge_half (m a : nat) :
  Qge_bool (inject_Z (Z.of_nat m)) (half a) = true <-> a <= 2 * m.
Proof.
  unfold Qge_bool, half. rewrite Qle_bool_iff.
  unfold Qle, Qdiv, Qmult, Qinv, inject_Z; simpl. lia.
Qed.

Lemma Qgt_half (m a : nat) :
  Qgt_bool (inject_Z (Z.of_nat m)) (half a) = true <-> a < 2 * m.
Proof.
  unfold Qgt_bool, half. rewrite negb_true_iff, <- not_true_iff_false.
  rewrite Qle_bool_iff.
  unfold Qle, Qdiv, Qmult, Qinv, inject_Z; simpl. lia.
Qed.

Lemma any_can_kill_mafia_at_night_iff g :
  any_can_kill_mafia_at_night g = true <->
  exists p, p ∈ players g /\ dead p = false
            /\ can_kill_mafia_at_night p = true.
Proof.
  unfold any_can_kill_mafia_at_night. rewrite existsb_exists.
  split; intros (p & Hin & H).
  - apply andb_true_iff in H as [Hd Hc]. apply negb_true_iff in Hd.
    exists p. rewrite list_elem_of_In. auto.
  - destruct H as [Hd Hc]. exists p. rewrite <- list_elem_of_In.
    split; [done|]. by rewrite Hd, Hc.
Qed.

(** The two rules of [Mafia.win_condition], read off the function: with
    [is_day] set it is false as soon as a living player has
    [can_kill_mafia_at_night], and otherwise true exactly when the living
    mafia are at least half of the living players; with [is_day] cleared
    it is true exactly when they are strictly more than half. *)
Lemma Mafia_win_condition_phases (g : MafiaGame) :
  Mafia_win_condition g = true <->
  if is_day g then
    (~ exists p, p ∈ players g /\ dead p = false
                 /\ can_kill_mafia_at_night p = true)
    /\ (half (total_alive g) <= inject_Z (Z.of_nat (total_mafia g)))%Q
  else (half (total_alive g) < inject_Z (Z.of_nat (total_mafia g)))%Q.
Proof.
  unfold Mafia_win_condition. destruct (is_day g).
  - rewrite <- any_can_kill_mafia_at_night_iff.
    destruct (any_can_kill_mafia_at_night g).
    + split; [discriminate | intros [H _]; by destruct H].
    + unfold Qge_bool. rewrite Qle_bool_iff. split; [|tauto].
      intros H; split; [discriminate | exact H].
  - unfold Qgt_bool. rewrite negb_true_iff, <- not_true_iff_false.
    rewrite Qle_bool_iff. split; [apply Qnot_le_lt | apply Qlt_not_le].
Qed.

(** The same thresholds over the integers: [m >= a / 2] is [a <= 2 m]. *)
Lemma Mafia_win_condition_counts (g : MafiaGame) :
  Mafia_win_condition g =
  if is_day g then
    negb (any_can_kill_mafia_at_night g)
    && bool_decide (total_alive g <= 2 * total_mafia g)
  else bool_decide (total_alive g < 2 * total_mafia g).
Proof.
  unfold Mafia_win_condition. destruct (is_day g).
  - destruct (any_can_kill_mafia_at_night g); [done|]. simpl.
    apply eq_true_iff_eq. rewrite Qge_half, bool_decide_eq_true. done.
  - apply eq_true_iff_eq. rewrite Qgt_half, bool_decide_eq_true. done.
Qed.

(** ** C1: attack tier against defense tier in [pre_day] *)

(** What the comparison of [pre_day] decides for a living player that was
    attacked while protected: the player survives exactly when the attack
    tier is strictly greater than the defense tier, and dies otherwise. *)
Lemma pre_day_player_protected w i loc player k killer q protector a d :
  player_at w i = Some player -> dead player = false ->
  killed_by player = Some k -> player_at w k = Some killer ->
  protected_by player = Some q -> player_at w q = Some protector ->
  attack_type killer = Some a -> defense_type protector = Some d ->
  pre_day_player i loc w =
  if (DefenseType.value d <? AttackType.value a)%Z
  then pre_day_survives i player killer loc w
  else pre_day_dies i k player loc w.
Proof.
  unfold player_at. intros Hi Hd Hk Hkl Hq Hpr Ha Hdf.
  cbv [pre_day_player mbind M_bind get_player get_game mret M_ret].
  rewrite Hi. cbv beta iota. rewrite Hd, Hk, Hkl. cbv beta iota.
  unfold lift, pre_day_saved. rewrite Hq, Hpr, Ha, Hdf. cbn [attack_gt].
  destruct (DefenseType.value d <? AttackType.value a)%Z; reflexivity.
Qed.

(** An unprotected living player that was attacked dies. *)
Lemma pre_day_player_unprotected w i loc player k killer :
  player_at w i = Some player -> dead player = false ->
  killed_by player = Some k -> player_at w k = Some killer ->
  protected_by player = None ->
  pre_day_player i loc w = pre_day_dies i k player loc w.
Proof.
  unfold player_at. intros Hi Hd Hk Hkl Hq.
  cbv [pre_day_player mbind M_bind get_player get_game mret M_ret].
  rewrite Hi. cbv beta iota. rewrite Hd, Hk, Hkl. cbv beta iota.
  unfold lift, pre_day_saved. rewrite Hq. reflexivity.
Qed.

(** C1.  After night 1 of the game [protection_night_over], player 4 was
    shot by the Sheriff (basic attack) under the Doctor's protection
    (powerful defense) and player 5 was executed by the Jailor (unstoppable
    attack) under the Jailor's own protection (powerful defense).
    [pre_day] lets player 4 die and player 5 live: the weaker attack kills
    and the stronger one is stopped. *)
Theorem pre_day_protection_inverted :
  let w := protection_night_over in
  let w' := (pre_day w).2 in
  (killed_by <$> player_at w 4) = Some (Some 1)
  /\ (protected_by <$> player_at w 4) = Some (Some 0)
  /\ (attack_type <$> player_at w 1) = Some (Some AttackType.basic)
  /\ (defense_type <$> player_at w 0) = Some (Some DefenseType.powerful)
  /\ (dead <$> player_at w 4) = Some false
  /\ (dead <$> player_at w' 4) = Some true
  /\ (killed_by <$> player_at w 5) = Some (Some 2)
  /\ (protected_by <$> player_at w 5) = Some (Some 2)
  /\ (attack_type <$> player_at w 2) = Some (Some AttackType.unstoppable)
  /\ (defense_type <$> player_at w 2) = Some (Some DefenseType.powerful)
  /\ (dead <$> player_at w' 5) = Some false
  /\ Send (ChPlayer 5) (MSavedYou 2) ∈ sent w'.
Proof.
  vm_compute. repeat split. apply list_elem_of_In. vm_compute. tauto.
Qed.

(** ** C8: the check of a private solicitation *)

(** ** What [private_channel_check] does reject. *)
Lemma private_channel_check_unresolved extractBests player self_ok m w :
  get_mafia_player extractBests (game w) (content m) = Raise MemberNotFound ->
  (private_channel_check extractBests player self_ok m w).1 = Ret false
  \/ (private_channel_check extractBests player self_ok m w).1
     = Raise IndexError.
Proof.
  intros Hr.
  cbv [private_channel_check mbind M_bind get_player get_game mret M_ret].
  destruct (players (game w) !! player); [|by right]. left.
  cbv beta iota. rewrite Hr.
  destruct (negb _); [done|]. destruct (negb _); done.
Qed.

Lemma private_channel_check_self extractBests player m w me :
  player_at w player = Some me ->
  m_channel m = ChPlayer player -> member_eqb (author m) (member me) = true ->
  get_mafia_player extractBests (game w) (content m) = Ret player ->
  private_channel_check extractBests player false m w
  = (Ret false, w).
Proof.
  unfold player_at. intros Hme Hc Ha Hr.
  cbv [private_channel_check mbind M_bind get_player get_game mret M_ret].
  rewrite Hme. cbv beta iota. rewrite Hc, Ha, Hr.
  rewrite !bool_decide_eq_true_2 by done. reflexivity.
Qed.

(** C8.  In the game [lynch_day_over] player 0 (gus) is dead.  Player 6
    (ann) answers a solicitation in her own channel with his name: the
    check accepts the message as her choice. *)
Theorem private_channel_check_accepts_dead :
  let w := lynch_day_over in
  let m := {| m_channel := ChPlayer 6; author := mk_member "ann" 1;
              content := "gus" |} in
  get_mafia_player exact_name (game w) (content m) = Ret 0
  /\ (dead <$> player_at w 0) = Some true
  /\ (private_channel_check exact_name 6 false m w).1 = Ret true.
Proof. split; [|split]; vm_compute; reflexivity. Qed.

Lemma Forall_filter_keep {A} (P : A -> Prop) (Q : A -> Prop)
    `{forall x, Decision (Q x)} (l : list A) :
  Forall P l -> Forall P (filter Q l).
Proof.
  rewrite !Forall_forall. intros HP x Hx.
  apply list_elem_of_filter in Hx as [_ Hx]. auto.
Qed.

(** ** Invariants: the rules *)

Section Keeps.
Context {okp : Player -> Prop} {oke : Event -> Prop} {okd : Z -> Prop}
        {cs : list PlayerClass} {base : list Event}.

Local Abbreviation I := (Inv okp oke okd cs base).

Lemma keeps_weaken {A} (m : M A) (R R' : A -> Prop) :
  (forall a, R a -> R' a) -> keeps I m R -> keeps I m R'.
Proof.
  intros HR Hm w Hw. eapply wp_mono; [| |apply Hm, Hw]; cbn; intuition.
Qed.

Lemma keeps_ret {A} (a : A) (R : A -> Prop) : R a -> keeps I (mret a) R.
Proof. intros HR w Hw. apply wp_ret. auto. Qed.

Lemma keeps_raise {A} e (R : A -> Prop) : keeps I (raise e) R.
Proof. intros w Hw. apply wp_raise. auto. Qed.

Lemma keeps_bind {A B} (m : M A) (f : A -> M B) (R : A -> Prop)
    (R' : B -> Prop) :
  keeps I m R -> (forall a, R a -> keeps I (f a) R') -> keeps I (m ≫= f) R'.
Proof.
  intros Hm Hf w Hw. apply wp_bind.
  eapply wp_mono; [| |apply Hm, Hw]; cbn; [|auto].
  intros a w' [Hw' Ha]. by apply Hf.
Qed.

Lemma keeps_get_game (R : MafiaGame -> Prop) :
  (forall g, map cls (players g) = cs -> Forall okp (players g) ->
             okd (_day g) -> R g) ->
  keeps I get_game R.
Proof.
  intros HR w Hw. apply wp_get_game. split; [done|].
  destruct Hw as (Hc & Hp & _ & Hd). auto.
Qed.

Lemma keeps_get_player i (R : Player -> Prop) :
  (forall p, okp p -> cs !! i = Some (cls p) -> R p) ->
  keeps I (get_player i) R.
Proof.
  intros HR w Hw. apply wp_get_player.
  destruct (players (game w) !! i) as [p|] eqn:Hl; [|done].
  split; [done|]. destruct Hw as (Hc & Hp & _). apply HR.
  - eapply Forall_lookup_1; eauto.
  - by rewrite <- Hc, list_lookup_fmap, Hl.
Qed.

Lemma keeps_update_player i f :
  (forall p, okp p -> cs !! i = Some (cls p) -> okp (f p)) ->
  (forall p, cls (f p) = cls p) ->
  keeps I (update_player i f) any.
Proof.
  intros Hf Hcls w (Hc & Hp & He & Hd). apply wp_update_player.
  split; [|done]. repeat split; cbn; auto.
  - rewrite <- Hc. apply list_eq. intros j.
    rewrite !list_lookup_fmap, list_lookup_alter.
    case_decide as Hij; [rewrite Hij|done].
    destruct (players (game w) !! j); cbn; [|done]. by rewrite Hcls.
  - apply Forall_lookup_2. intros j p. rewrite list_lookup_alter.
    case_decide as Hij.
    + rewrite Hij.
      destruct (players (game w) !! j) as [q|] eqn:Hl; cbn; [|done].
      intros Hq. injection Hq as <-.
      apply Hf; [eapply Forall_lookup_1; eauto|].
      by rewrite Hij, <- Hc, list_lookup_fmap, Hl.
    + intros Hl. eapply Forall_lookup_1; eauto.
Qed.

Lemma keeps_send c m : oke (Send c m) -> keeps I (send c m) any.
Proof.
  intros Hm w (Hc & Hp & (evs & He & Hevs) & Hd). apply wp_send.
  split; [|done]. repeat split; cbn; auto.
  exists (evs ++ [Send c m]). rewrite He, app_assoc. split; [done|].
  apply Forall_app. auto.
Qed.

Lemma keeps_put_game g :
  map cls (players g) = cs -> Forall okp (players g) -> okd (_day g) ->
  keeps I (put_game g) any.
Proof.
  intros Hc Hp Hd w (_ & _ & He & _). apply wp_put_game.
  split; [|done]. repeat split; cbn; auto.
Qed.

Lemma keeps_randbelow n : keeps I (randbelow n) any.
Proof. intros w (Hc & Hp & He & Hd). by repeat split. Qed.

Lemma keeps_choice {A} (l : list A) : keeps I (choice l) (fun x => x ∈ l).
Proof.
  destruct l as [|x l]; [apply keeps_raise|].
  eapply keeps_bind; [apply keeps_randbelow|]. intros i _.
  apply keeps_ret.
  destruct (nth_in_or_default i (x :: l) x) as [H|H];
    [by apply list_elem_of_In | rewrite H; left].
Qed.

Lemma keeps_lift {A} (o : outcome A) (R : A -> Prop) :
  (forall a, o = Ret a -> R a) -> keeps I (lift o) R.
Proof. intros HR w Hw. apply wp_lift. destruct o; auto. Qed.

Lemma keeps_when (b : bool) (m : M unit) :
  (b = true -> keeps I m any) -> keeps I (when b m) any.
Proof.
  intros Hm. destruct b; cbn; [auto|]. by apply keeps_ret.
Qed.

Lemma keeps_confine (m : M unit) : keeps I m any -> keeps I (confine m) any.
Proof.
  intros Hm w Hw. apply wp_confine.
  eapply wp_mono; [| |apply Hm, Hw]; cbn; unfold any; intuition.
Qed.

Lemma keeps_try_except {A} (m h : M A) e (R : A -> Prop) :
  keeps I m R -> keeps I h R -> keeps I (try_except m e h) R.
Proof.
  intros Hm Hh w Hw. specialize (Hm w Hw).
  unfold wp, try_except in *. destruct (m w) as [[a|e'] w']; [done|].
  case_bool_decide; [|done]. by apply Hh.
Qed.

Lemma keeps_for_each {A} (l : list A) (body : A -> M unit) :
  (forall x, x ∈ l -> keeps I (body x) any) -> keeps I (for_each l body) any.
Proof.
  induction l as [|x l IH]; intros Hb; cbn; [by apply keeps_ret|].
  eapply keeps_bind; [apply Hb; left|]. intros _ _.
  apply IH. intros y Hy. apply Hb. by right.
Qed.

Lemma keeps_fold_M {A S} (body : A -> S -> M S) (l : list A) (s : S) :
  (forall x s', keeps I (body x s') any) -> keeps I (fold_M body l s) any.
Proof.
  revert s. induction l as [|x l IH]; intros s Hb; cbn;
    [by apply keeps_ret|].
  eapply keeps_bind; [apply Hb|]. intros s' _. by apply IH.
Qed.

End Keeps.

(** ** Invariants: the procedures of the engine *)

Section KeepsEngine.
Context {okp : Player -> Prop} {oke : Event -> Prop} {okd : Z -> Prop}
        {cs : list PlayerClass} {base : list Event}.

Local Abbreviation I := (Inv okp oke okd cs base).

(** [okp] looks at the class, [cleaned_by], [cleans] and [lynched] only,
    and survives the reset of [cleaned_by]. *)
Hypothesis okp_ext : forall p q,
  cls p = cls q -> cleaned_by p = cleaned_by q -> cleans p = cleans q ->
  lynched p = lynched q -> okp p -> okp q.
Hypothesis okp_unclean : forall p, okp p -> okp (set_cleaned_by None p).
(** [oke] holds of the routine messages outside the info channel, and of
    the note to the cleaner of a player that has one. *)
Hypothesis oke_routine : forall c m,
  c <> ChInfo -> delicate m = false -> oke (Send c m).
Hypothesis oke_cleaned : forall p c v,
  okp p -> cleaned_by p = Some c -> oke (Send (ChPlayer c) (MCleaned v)).

Lemma keeps_get_game' :
  keeps I get_game (fun g => map cls (players g) = cs
                             /\ Forall okp (players g) /\ okd (_day g)).
Proof. apply keeps_get_game. auto. Qed.

Lemma keeps_get_player' i :
  keeps I (get_player i) (fun p => okp p /\ cs !! i = Some (cls p)).
Proof. apply keeps_get_player. auto. Qed.

Local Ltac keeps_upd :=
  apply keeps_update_player;
  [ intros ? ? _; eapply okp_ext; [..|eassumption]; reflexivity
  | intros ?; reflexivity ].

Local Ltac keeps_snd :=
  apply keeps_send; apply oke_routine; [discriminate | reflexivity].

Local Ltac kstep :=
  lazymatch goal with
  | |- keeps _ (mret _) _ => apply keeps_ret; try exact Logic.I
  | |- keeps _ (raise _) _ => apply keeps_raise
  | |- keeps _ (mbind _ get_game) _ =>
      eapply keeps_bind; [apply keeps_get_game'|intros ? (?&?&?)]
  | |- keeps _ (mbind _ (get_player _)) _ =>
      eapply keeps_bind; [apply keeps_get_player'|intros ? [? ?]]
  | |- keeps _ (mbind _ _) _ => eapply keeps_bind; [|intros ? ?]
  | |- keeps _ (when _ _) _ => apply keeps_when; intros ?
  | |- keeps _ (confine _) _ => apply keeps_confine
  | |- keeps _ (update_player _ _) _ => keeps_upd
  | |- keeps _ (send _ _) _ => keeps_snd
  | |- keeps _ (choice _) _ =>
      eapply keeps_weaken; [|apply keeps_choice]; done
  | |- keeps _ (lift _) _ => apply keeps_lift; intros ? ?; try exact Logic.I
  | |- keeps _ (if ?b then _ else _) _ => destruct b eqn:?
  | |- keeps _ (match ?x with _ => _ end) _ => destruct x eqn:?
  end.

Lemma keeps_choose_godfather : keeps I choose_godfather any.
Proof. unfold choose_godfather. repeat kstep. Qed.

Lemma keeps_pre_day_survives i player killer loc :
  keeps I (pre_day_survives i player killer loc) any.
Proof. unfold pre_day_survives. repeat kstep. Qed.

Lemma keeps_pre_day_dies i k player loc :
  okp player -> keeps I (pre_day_dies i k player loc) any.
Proof.
  intros Hp. unfold pre_day_dies. kstep.
  - kstep; kstep; [|kstep| |kstep].
    + apply keeps_send. eapply oke_cleaned; eauto.
    + keeps_snd.
  - repeat kstep. apply keeps_choose_godfather.
Qed.

Lemma keeps_pre_day_player i loc : keeps I (pre_day_player i loc) any.
Proof.
  unfold pre_day_player. kstep. kstep; [kstep|]. kstep; [|kstep].
  kstep. kstep. kstep; [kstep|]. kstep.
  - apply keeps_pre_day_survives.
  - by apply keeps_pre_day_dies.
Qed.

Lemma keeps_cleanup_everyone : keeps I cleanup_everyone any.
Proof.
  unfold cleanup_everyone. kstep. apply keeps_for_each. intros i _.
  kstep. kstep. apply keeps_update_player; [|intros ?; reflexivity].
  intros p Hp _. eapply okp_ext; [..|apply (okp_unclean _ Hp)]; reflexivity.
Qed.

Lemma keeps_startup_channel_message i :
  keeps I (startup_channel_message i) any.
Proof. unfold startup_channel_message. repeat kstep. Qed.

Lemma keeps_start_setup : keeps I _start_setup any.
Proof.
  unfold _start_setup. kstep. kstep.
  - apply keeps_for_each. intros. apply keeps_startup_channel_message.
  - apply keeps_choose_godfather.
Qed.

(** The messages of the info channel. *)
Hypothesis oke_info : forall m, delicate m = false -> oke (Send ChInfo m).

Lemma keeps_day_notification ns : keeps I (day_notification ns) any.
Proof.
  unfold day_notification. kstep. kstep.
  - by apply keeps_send, oke_info.
  - by apply keeps_put_game.
Qed.

Lemma keeps_pre_day : keeps I pre_day any.
Proof.
  unfold pre_day. kstep. kstep; [|apply keeps_cleanup_everyone].
  kstep; [|apply keeps_day_notification].
  kstep; [|apply keeps_day_notification].
  eapply keeps_fold_M. intros. apply keeps_pre_day_player.
Qed.

Lemma keeps_attempt {A} (m : M (option A)) (R : option A -> Prop) :
  R None -> keeps I m R -> keeps I (attempt m) R.
Proof.
  intros HN Hm w Hw. specialize (Hm w Hw). unfold wp, attempt in *.
  destruct (m w) as [[a|e] w']; auto.
Qed.

Lemma keeps_prompt self text :
  text <> janitor_prompt -> keeps I (prompt self text) any.
Proof.
  intros Ht. apply keeps_send, oke_routine; [discriminate|].
  cbn. by apply bool_decide_eq_false_2.
Qed.

Lemma keeps_start_tasks (P : nat -> Prop) begin actors :
  (forall a, keeps I (begin a) (fun r => r <> None -> P a)) ->
  keeps I (start_tasks begin actors) (Forall (fun al => P al.1)).
Proof.
  intros Hb. induction actors as [|a rest IH]; cbn.
  - by apply keeps_ret.
  - eapply (keeps_bind _ _ (fun r => r <> None -> P a));
      [apply keeps_attempt; [intros H; by destruct H|apply Hb]|].
    intros started Hs. eapply keeps_bind; [apply IH|].
    intros waiting Hw. apply keeps_ret.
    destruct started; [|done]. constructor; [|done]. by apply Hs.
Qed.

Lemma keeps_night_eligible actors : keeps I (night_eligible actors) any.
Proof.
  induction actors as [|i rest IH]; cbn; [by apply keeps_ret|].
  kstep. kstep.
  - kstep; [kstep|]. apply IH.
  - eapply keeps_bind; [apply IH|]. intros. by apply keeps_ret.
Qed.

Lemma keeps_mafia_check gf player : keeps I (mafia_check gf player) any.
Proof.
  unfold mafia_check. repeat kstep.
Qed.

Lemma waiting_locals_Some (P : nat -> Prop) waiting a locals :
  Forall (fun al : nat * list nat => P al.1) waiting ->
  waiting_locals waiting a = Some locals -> P a.
Proof.
  unfold waiting_locals. intros HF Hl.
  destruct (list_find _ waiting) as [[j al]|] eqn:Hf; [|done].
  apply list_find_Some in Hf as (Hj & Ha & _). cbn in Ha. subst a.
  eapply (Forall_lookup_1 _ _ _ _ HF Hj).
Qed.

Lemma keeps_run_arrivals (P : nat -> Prop) finish gf arrivals waiting :
  (forall a locals answers,
      P a -> keeps I (finish a locals answers) any) ->
  Forall (fun al => P al.1) waiting ->
  keeps I (run_arrivals finish gf arrivals waiting) any.
Proof.
  intros Hfin. revert gf waiting.
  induction arrivals as [|arr rest IH]; intros gf waiting HW; cbn;
    [by apply keeps_ret|].
  destruct arr as [player|a answers].
  - kstep. kstep; [|by apply IH]. kstep; [|by apply IH].
    kstep; [|by apply IH]. kstep. apply keeps_mafia_check.
  - kstep. kstep; [|by apply IH]. kstep; [|by apply IH].
    kstep; [|apply IH; by apply Forall_filter_keep].
    kstep. apply Hfin. eapply waiting_locals_Some; eauto.
Qed.

Context (extractBests : string -> list string -> option nat).

Lemma keeps_day_task_begin self :
  keeps I (day_task_begin self) (fun r => r <> None -> True).
Proof.
  unfold day_task_begin. kstep.
  destruct (cls a); try (by apply keeps_ret).
  kstep; [by apply keeps_ret|]. kstep; [by apply keeps_prompt|].
  by apply keeps_ret.
Qed.

Lemma keeps_day_task_finish self locals answers :
  keeps I (day_task_finish self locals answers) any.
Proof.
  unfold day_task_finish. kstep.
  destruct (cls a); try apply keeps_raise.
  destruct answers as [|player [|]]; try apply keeps_raise.
  repeat kstep.
Qed.

Lemma keeps_nomination_check needed chan mafia m n :
  chan <> ChInfo ->
  keeps I (nomination_check extractBests needed chan mafia m n) any.
Proof.
  intros Hchan. unfold nomination_check. kstep.
  destruct (negb (bool_decide (m_channel m = chan))) eqn:Hc; [kstep|].
  apply negb_false_iff, bool_decide_eq_true in Hc.
  kstep; [kstep|]. kstep; [kstep|]. kstep; [|destruct e; kstep].
  kstep; [kstep|]. kstep. kstep; [kstep|]. kstep; [kstep|].
  kstep; [kstep|]. kstep; kstep.
Qed.

Lemma keeps_wait_for_nomination check msgs n :
  (forall m n', keeps I (check m n') any) ->
  keeps I (wait_for_nomination check msgs n) any.
Proof.
  intros Hcheck. revert n.
  induction msgs as [|m rest IH]; intros n; cbn; [by apply keeps_ret|].
  eapply keeps_bind; [apply Hcheck|]. intros [accepted n'] _.
  destruct accepted; [by apply keeps_ret|apply IH].
Qed.

(** The message that opens a vote, and the flag of a lynched player. *)
Hypothesis oke_vote : forall t, oke (Send ChChat (MNominatedForHanging t)).
Hypothesis okp_lynch : forall p, okp p -> okp (set_lynched true p).

Lemma keeps_nominate_player msgs :
  keeps I (nominate_player extractBests msgs) any.
Proof.
  unfold nominate_player. kstep. kstep.
  - apply keeps_wait_for_nomination. intros.
    by apply keeps_nomination_check.
  - kstep; [|kstep]. kstep; [apply keeps_send, oke_vote|kstep].
Qed.

Lemma keeps_lynch player : keeps I (lynch player) any.
Proof.
  unfold lynch. kstep; [kstep|]. kstep.
  - apply keeps_update_player; [|intros ?; reflexivity].
    intros p Hp _. by apply okp_lynch.
  - kstep. eapply (keeps_bind _ _ any).
    + destruct (_ && _); [|by apply keeps_ret].
      apply keeps_try_except; [|by apply keeps_ret].
      eapply keeps_bind; [apply keeps_choose_godfather|].
      intros. by apply keeps_ret.
    + intros proceed _. destruct proceed; [|by apply keeps_ret].
      eapply keeps_bind; [apply keeps_day_notification|].
      intros. by apply keeps_ret.
Qed.

Lemma keeps_day_tasks inp : keeps I (day_tasks extractBests inp) any.
Proof.
  unfold day_tasks. kstep.
  eapply keeps_bind;
    [apply (keeps_start_tasks (fun _ => True)), keeps_day_task_begin|].
  intros waiting Hw. kstep.
  { apply (keeps_run_arrivals (fun _ => True)); [|done].
    intros. apply keeps_day_task_finish. }
  kstep.
  { kstep; [apply keeps_nominate_player|kstep]. }
  kstep; [|kstep]. kstep. kstep; [|kstep].
  kstep; [apply keeps_lynch|kstep].
Qed.

(** A Janitor keeps its three cleans unused. *)
Hypothesis okp_janitor : forall p, okp p -> cls p = Janitor -> cleans p = 3%Z.

Lemma keeps_night_task_begin self :
  keeps I (night_task_begin self)
        (fun r => r <> None -> cs !! self <> Some Janitor).
Proof.
  unfold night_task_begin. kstep.
  destruct (cls a) eqn:Hcls;
    try (apply keeps_ret; congruence);
    try (kstep; [by apply keeps_prompt|apply keeps_ret; congruence]).
  - (* Jailor *)
    kstep; [kstep|apply keeps_ret; congruence].
    + apply keeps_raise. + apply keeps_ret; congruence.
  - (* Janitor *)
    rewrite (okp_janitor a) by done. by apply keeps_ret.
  - (* Survivor *)
    kstep; [by apply keeps_ret|].
    kstep; [kstep|apply keeps_ret; congruence].
  - (* Arsonist *)
    kstep; [kstep|]. kstep.
    kstep; [by apply keeps_prompt|apply keeps_ret; congruence].
Qed.

Lemma keeps_PI_second self player1 rest :
  keeps I (PI_second self player1 rest) any.
Proof.
  induction rest as [|player2 rest IH]; cbn [PI_second].
  - kstep; [by apply keeps_prompt|]. apply keeps_raise.
  - kstep; [by apply keeps_prompt|].
    destruct (bool_decide (player2 = player1)); [|by kstep].
    kstep; [keeps_snd|]. apply IH.
Qed.

Lemma keeps_night_task_finish self locals answers :
  cs !! self <> Some Janitor ->
  keeps I (night_task_finish self locals answers) any.
Proof.
  intros Hj. unfold night_task_finish. kstep.
  destruct (cls a) eqn:Hcls; try congruence;
    destruct answers as [|x [|y [|z rest]]]; try apply keeps_raise;
    try (repeat kstep; fail);
    try (kstep; [apply keeps_PI_second|]; repeat kstep; fail).
  (* Arsonist *)
  kstep; [|kstep]. kstep; [|kstep; kstep].
  apply keeps_for_each. intros. kstep.
Qed.

Lemma keeps_night_tasks arrivals : keeps I (night_tasks arrivals) any.
Proof.
  unfold night_tasks. kstep. kstep; [by apply keeps_send, oke_info|].
  kstep; [|kstep]. kstep. kstep.
  { kstep; kstep. }
  eapply keeps_bind; [apply keeps_night_eligible|]. intros eligible _.
  eapply keeps_bind;
    [apply (keeps_start_tasks (fun a => cs !! a <> Some Janitor)),
           keeps_night_task_begin|].
  intros waiting Hw.
  apply (keeps_run_arrivals (fun a => cs !! a <> Some Janitor)); [|done].
  intros. by apply keeps_night_task_finish.
Qed.

(** The day counter may advance. *)
Hypothesis okd_next : forall d, okd d -> okd (d + 1)%Z.

Lemma keeps_cycle inp : keeps I (_cycle extractBests inp) any.
Proof.
  unfold _cycle, _cycle_day, _cycle_night.
  kstep; [apply keeps_pre_day|]. kstep. kstep; [kstep|].
  kstep; [apply keeps_day_tasks|]. kstep. kstep; [kstep|].
  kstep. kstep; [apply keeps_put_game; cbn; auto|].
  kstep; [apply keeps_night_tasks|]. kstep. kstep.
Qed.

Lemma keeps_cycles inps : keeps I (cycles extractBests inps) any.
Proof.
  induction inps as [|inp rest IH]; cbn; [by apply keeps_ret|].
  eapply keeps_bind; [apply keeps_cycle|]. intros over _.
  destruct over; [by apply keeps_ret|apply IH].
Qed.

Lemma keeps_start inps : keeps I (_start extractBests inps) any.
Proof.
  unfold _start. kstep; [apply keeps_start_setup|apply keeps_cycles].
Qed.

End KeepsEngine.

(** ** C9: the Janitor never cleans *)

Lemma pop_roles_fresh roles members ps rest :
  pop_roles roles members = Ret (ps, rest) ->
  Forall (fun p => exists c m, p = new_player c m) ps.
Proof.
  revert members ps rest.
  induction roles as [|role roles IH]; intros members ps rest; cbn.
  - intros [= <- <-]. constructor.
  - destruct (reverse members) as [|m r]; [done|].
    destruct (pop_roles roles (reverse r)) as [[l ms]|] eqn:Hr; [|done].
    intros [= <- <-]. constructor; eauto.
Qed.

Lemma pop_each_fresh n members c ps rest :
  pop_each n members (new_player c) = Ret (ps, rest) ->
  Forall (fun p => exists c m, p = new_player c m) ps.
Proof.
  revert members ps rest.
  induction n as [|n IH]; intros members ps rest; cbn.
  - intros [= <- <-]. constructor.
  - destruct (reverse members) as [|m r]; [done|].
    destruct (pop_each n (reverse r) _) as [[l ms]|] eqn:Hr; [|done].
    intros [= <- <-]. constructor; eauto.
Qed.

Lemma pick_players_fresh config members ps :
  pick_players config members = Ret ps ->
  Forall (fun p => exists c m, p = new_player c m) ps.
Proof.
  unfold pick_players.
  destruct (pop_roles _ _) as [[specials members1]|] eqn:H1; [|done].
  destruct (pop_each _ _ _) as [[mafias members2]|] eqn:H2; [|done].
  intros [= <-]. rewrite !Forall_app. split; [|split].
  - eapply pop_roles_fresh; eauto.
  - eapply pop_each_fresh; eauto.
  - apply Forall_forall. intros p Hp.
    apply list_elem_of_fmap in Hp as (m & -> & _). eauto.
Qed.

Lemma never_cleaned_ext p q :
  cls p = cls q -> cleaned_by p = cleaned_by q -> cleans p = cleans q ->
  lynched p = lynched q -> never_cleaned p -> never_cleaned q.
Proof. intros _ Hc Hn _ [H1 H2]. split; congruence. Qed.

Lemma never_cleaned_unclean p :
  never_cleaned p -> never_cleaned (set_cleaned_by None p).
Proof. intros [_ H]. by split. Qed.

Lemma never_cleaned_lynch p :
  never_cleaned p -> never_cleaned (set_lynched true p).
Proof. intros [H1 H2]. by split. Qed.

Lemma never_cleaned_janitor p :
  never_cleaned p -> cls p = Janitor -> cleans p = 3%Z.
Proof. by intros [_ H] _. Qed.

Lemma no_clean_routine c m :
  delicate m = false -> no_clean_message (Send c m).
Proof.
  intros Hd. split; cbn.
  - intros v ->. discriminate.
  - intros ->. cbn in Hd. by rewrite bool_decide_eq_true_2 in Hd.
Qed.

Lemma no_clean_vote t :
  no_clean_message (Send ChChat (MNominatedForHanging t)).
Proof. split; [intros v|]; discriminate. Qed.

Lemma no_clean_cleaned p c v :
  never_cleaned p -> cleaned_by p = Some c ->
  no_clean_message (Send (ChPlayer c) (MCleaned v)).
Proof. intros [H _] Hc. congruence. Qed.

(** C9.  A Janitor whose counter is at most 3 leaves [night_task] before
    it asks for a target; and in every game, whatever the roles, the
    random draws and the answers of the players, no player is ever marked
    as cleaned, every counter of cleans stays at its initial 3, the
    solicitation of the Janitor is never sent and no cleaner is ever
    notified. *)
Theorem janitor_never_cleans :
  (forall w self me,
      player_at w self = Some me -> cls me = Janitor ->
      (cleans me <= 3)%Z ->
      night_task_begin self w = (Ret None, w))
  /\ (forall c m, cleans (new_player c m) = 3%Z)
  /\ (forall extractBests config members rand inps,
      let w := (play extractBests config members rand inps).2 in
      Forall never_cleaned (players (game w))
      /\ Forall no_clean_message (sent w)).
Proof.
  split; [|split].
  - unfold player_at. intros w self me Hme Hcls Hle.
    cbv [night_task_begin mbind M_bind get_player get_game mret M_ret].
    rewrite Hme. cbv beta iota. rewrite Hcls.
    by rewrite (proj2 (Z.leb_le _ _) Hle).
  - reflexivity.
  - intros extractBests config members rand inps. unfold play.
    destruct (pick_players config members) as [ps|e] eqn:Hpick; cbn;
      [|split; constructor].
    assert (Hinv : Inv never_cleaned no_clean_message (fun _ => True)
                       (map cls ps) [] (new_world ps rand)).
    { repeat split; cbn; [|by exists []]. apply pick_players_fresh in Hpick.
      eapply Forall_impl; [exact Hpick|].
      intros p (c & m & ->). by split. }
    pose proof (keeps_start never_cleaned_ext never_cleaned_unclean
                  (fun c m _ => no_clean_routine c m) no_clean_cleaned
                  (fun m => no_clean_routine ChInfo m)
                  extractBests
                  no_clean_vote
                  never_cleaned_lynch never_cleaned_janitor
                  (fun _ _ => Logic.I) inps _ Hinv) as K.
    unfold wp in K.
    destruct (_start extractBests inps (new_world ps rand)) as [o w'].
    cbn.
    assert (HI : Inv never_cleaned no_clean_message (fun _ => True)
                     (map cls ps) [] w') by (destruct o; apply K).
    destruct HI as (_ & Hp & (evs & He & Hevs) & _). split; [done|].
    by rewrite He.
Qed.

(** ** C10: no lynch on day 1 *)

Lemma not_lynched_ext p q :
  cls p = cls q -> cleaned_by p = cleaned_by q -> cleans p = cleans q ->
  lynched p = lynched q -> not_lynched p -> not_lynched q.
Proof. unfold not_lynched. congruence. Qed.

Lemma no_vote_routine c m :
  delicate m = false -> no_vote_message (Send c m).
Proof. intros Hd t; cbn. intros ->. discriminate. Qed.

Lemma no_vote_cleaned (p : Player) c v :
  not_lynched p -> cleaned_by p = Some c ->
  no_vote_message (Send (ChPlayer c) (MCleaned v)).
Proof. intros _ _ t. discriminate. Qed.

(** While the day counter is at most 1, [day_tasks] runs the day tasks of
    the players and nothing else. *)
Lemma keeps_day_tasks_day_one {okd : Z -> Prop} {cs base}
    extractBests inp :
  (forall d, okd d -> (d <= 1)%Z) ->
  keeps (Inv not_lynched no_vote_message okd cs base)
        (day_tasks extractBests inp) any.
Proof.
  intros Hle. unfold day_tasks.
  eapply keeps_bind; [apply keeps_get_game'|]. intros g (_ & _ & Hd).
  apply Hle in Hd.
  eapply keeps_bind.
  { apply (keeps_start_tasks (fun _ => True)), keeps_day_task_begin.
    intros c m _. apply no_vote_routine. }
  intros waiting Hw.
  eapply keeps_bind.
  { apply (keeps_run_arrivals not_lynched_ext
             (fun c m _ => no_vote_routine c m) (fun _ => True)); [|done].
    intros. apply keeps_day_task_finish; [apply not_lynched_ext|].
    intros c m _. apply no_vote_routine. }
  intros _ _.
  rewrite (bool_decide_eq_false_2 (1 < _day g)%Z) by lia.
  eapply (keeps_bind _ _ (fun msg => msg = None)); [by apply keeps_ret|].
  intros msg ->. by apply keeps_ret.
Qed.

Lemma keeps_first_day {cs} extractBests inp :
  keeps (Inv not_lynched no_vote_message (fun d => d = 1%Z) cs [])
        (first_day extractBests inp) any.
Proof.
  unfold first_day.
  eapply keeps_bind.
  { apply keeps_start_setup; [apply not_lynched_ext|].
    intros c m _. apply no_vote_routine. }
  intros _ _. eapply keeps_bind.
  { apply keeps_pre_day;
      [apply not_lynched_ext|done| |apply no_vote_cleaned| ].
    - intros c m _. apply no_vote_routine.
    - intros m. apply no_vote_routine. }
  intros _ _. apply keeps_day_tasks_day_one. lia.
Qed.

Lemma keeps_world {A} (I : World -> Prop) (m : M A) (R : A -> Prop) w :
  keeps I m R -> I w -> I (m w).2.
Proof.
  intros K Hw. specialize (K w Hw). unfold wp in K.
  destruct (m w) as [[a|e] w']; cbn; tauto.
Qed.

Lemma roster_of_fresh config members :
  Forall (fun p => exists c m, p = new_player c m) (roster_of config members).
Proof.
  unfold roster_of.
  destruct (pick_players config members) eqn:H; [|constructor].
  eapply pick_players_fresh; eauto.
Qed.

(** C10.  While the day counter is at most 1, [day_tasks] lynches nobody
    and opens no vote; every game reaches the end of its first day phase
    with the counter at 1, nobody lynched and no vote opened; and on day 2
    a lynch does happen (game [lynch_day_over]). *)
Theorem no_lynch_on_day_one :
  (forall extractBests inp w,
      (_day (game w) <= 1)%Z ->
      Forall not_lynched (players (game w)) ->
      let w' := (day_tasks extractBests inp w).2 in
      Forall not_lynched (players (game w'))
      /\ exists evs, sent w' = sent w ++ evs /\ Forall no_vote_message evs)
  /\ (forall extractBests config members rand inp,
      let w := (first_day extractBests inp
                  (new_world (roster_of config members) rand)).2 in
      _day (game w) = 1%Z
      /\ Forall not_lynched (players (game w))
      /\ Forall no_vote_message (sent w))
  /\ ((lynched <$> player_at lynch_day_over 0) = Some true
      /\ _day (game lynch_day_over) = 2%Z).
Proof.
  split; [|split].
  - intros extractBests inp w Hd Hl w'.
    assert (HI : Inv not_lynched no_vote_message (fun d => (d <= 1)%Z)
                     (map cls (players (game w))) (sent w) w).
    { repeat split; auto. exists []. by rewrite app_nil_r. }
    apply (keeps_world _ _ _ _
             (keeps_day_tasks_day_one extractBests inp (fun d H => H)))
      in HI.
    destruct HI as (_ & Hp & He & _). done.
  - intros extractBests config members rand inp w.
    assert (HI : Inv not_lynched no_vote_message (fun d => d = 1%Z)
                     (map cls (roster_of config members)) []
                     (new_world (roster_of config members) rand)).
    { repeat split; cbn; [|by exists []].
      eapply Forall_impl; [apply roster_of_fresh|].
      by intros p (c & m & ->). }
    apply (keeps_world _ _ _ _ (keeps_first_day extractBests inp)) in HI.
    destruct HI as (_ & Hp & (evs & He & Hevs) & Hd).
    subst w. rewrite He. done.
  - split; vm_compute; reflexivity.
Qed.

(** ** C6: when a vote opens *)

Lemma get_mafia_player_raises extractBests g arg e :
  get_mafia_player extractBests g arg = Raise e -> e = MemberNotFound.
Proof.
  unfold get_mafia_player.
  destruct (match match_user_id arg with Some _ => _ | None => _ end)
    as [i|]; [|congruence].
  destruct (players g !! i); congruence.
Qed.

Lemma get_mafia_player_in_roster extractBests g arg i :
  get_mafia_player extractBests g arg = Ret i -> is_Some (players g !! i).
Proof.
  unfold get_mafia_player.
  destruct (match match_user_id arg with Some _ => _ | None => _ end)
    as [j|]; [|congruence].
  destruct (players g !! j) eqn:Hj; [|congruence].
  intros [= <-]. eauto.
Qed.

(** [nomination_check], message by message. *)
Lemma nomination_check_run extractBests needed chan mafia m n w :
  nomination_check extractBests needed chan mafia m n w =
  match counted_nominee extractBests (game w) chan mafia m with
  | None => (Ret (false, n), w)
  | Some player =>
      let c := default 0 (counts n !! player) + 1 in
      let counted := <[player := c]> (counts n) in
      if (c =? needed)%nat
      then (Ret (true, {| counts := counted; nomination := Some player |}),
            w)
      else (Ret (false, {| counts := counted; nomination := nomination n |}),
            w)
  end.
Proof.
  unfold counted_nominee.
  cbv [nomination_check mbind M_bind get_player get_game mret M_ret].
  destruct (negb (bool_decide (m_channel m = chan))); [done|].
  destruct (negb (is_game_member (game w) (author m))); [done|].
  destruct (negb (String.prefix _ _)); [done|].
  destruct (get_mafia_player _ _ _) as [player|e] eqn:Hr.
  - destruct (bool_decide _); [done|].
    destruct (get_mafia_player_in_roster _ _ _ _ Hr) as [p Hp].
    rewrite Hp. cbv beta iota.
    destruct (dead p); [done|]. destruct (mafia && is_mafia p); [done|].
    destruct (_ =? needed)%nat; reflexivity.
  - by rewrite (get_mafia_player_raises _ _ _ _ Hr).
Qed.

Lemma tally_cons extractBests g t m msgs :
  tally extractBests g t (m :: msgs) =
  (if bool_decide (counted_nominee extractBests g ChChat false m = Some t)
   then 1 else 0) + tally extractBests g t msgs.
Proof.
  unfold tally. rewrite filter_cons.
  case_bool_decide as H; destruct (decide _); try done.
Qed.

Lemma wait_for_nomination_run extractBests msgs : forall n w,
  (forall t, default 0 (counts n !! t) <= 1) ->
  exists w', game w' = game w /\
    ((exists n' pre m post t,
        wait_for_nomination (nomination_check extractBests 2 ChChat false)
                            msgs n w = (Ret (Some n'), w')
        /\ msgs = pre ++ m :: post
        /\ counted_nominee extractBests (game w) ChChat false m = Some t
        /\ nomination n' = Some t
        /\ default 0 (counts n !! t) + tally extractBests (game w) t pre = 1
        /\ forall t', default 0 (counts n !! t')
                      + tally extractBests (game w) t' pre <= 1)
     \/ (wait_for_nomination (nomination_check extractBests 2 ChChat false)
                             msgs n w = (Ret None, w')
         /\ forall t, default 0 (counts n !! t)
                      + tally extractBests (game w) t msgs <= 1)).
Proof.
  induction msgs as [|m rest IH]; intros n w Hn.
  - exists w. split; [done|]. right. split; [done|].
    intros t. unfold tally; cbn. specialize (Hn t). lia.
  - cbn [wait_for_nomination]. unfold mbind, M_bind.
    rewrite nomination_check_run.
    destruct (counted_nominee extractBests (game w) ChChat false m)
      as [player|] eqn:Hm.
    + cbn zeta.
      destruct (default 0 (counts n !! player) + 1 =? 2)%nat eqn:Hc.
      * apply Nat.eqb_eq in Hc.
        exists w. split; [done|]. left.
        eexists _, [], m, rest, player. cbn.
        split; [done|]. split; [done|]. split; [done|]. split; [done|].
        unfold tally; cbn. split; [lia|]. intros t'. specialize (Hn t'). lia.
      * apply Nat.eqb_neq in Hc.
        assert (H0 : default 0 (counts n !! player) = 0)
          by (specialize (Hn player); lia).
        set (n1 := {| counts := <[player:=default 0 (counts n !! player) + 1]>
                                  (counts n);
                      nomination := nomination n |}).
        assert (Hcnt : forall t, default 0 (counts n1 !! t) =
                  (if bool_decide (Some player = Some t) then 1 else 0)
                  + default 0 (counts n !! t)).
        { intros t. cbn. case_bool_decide as Ht.
          - injection Ht as <-. rewrite lookup_insert_eq. cbn. lia.
          - rewrite lookup_insert_ne by congruence. done. }
        destruct (IH n1 w) as (w' & Hg & Hres).
        { intros t. rewrite Hcnt. case_bool_decide as Ht.
          - injection Ht as <-. lia.
          - specialize (Hn t). lia. }
        exists w'. split; [done|].
        assert (Hstep : forall t l,
                  default 0 (counts n !! t)
                  + tally extractBests (game w) t (m :: l)
                  = default 0 (counts n1 !! t)
                    + tally extractBests (game w) t l).
        { intros t l. rewrite tally_cons, Hcnt, Hm. cbn. lia. }
        destruct Hres as [(n' & pre & m' & post & t & Hrun & -> & Hm' & Hnom
                           & Hone & Hall)|[Hrun Hall]].
        -- left. exists n', (m :: pre), m', post, t.
           split; [exact Hrun|]. split; [done|]. split; [exact Hm'|].
           split; [done|]. split; [by rewrite Hstep|].
           intros t'. rewrite Hstep. apply Hall.
        -- right. split; [exact Hrun|]. intros t. rewrite Hstep. apply Hall.
    + destruct (IH n w Hn) as (w' & Hg & Hres).
      exists w'. split; [done|].
      assert (Hstep : forall t l,
                tally extractBests (game w) t (m :: l)
                = tally extractBests (game w) t l).
      { intros t l. rewrite tally_cons, Hm. by rewrite bool_decide_eq_false_2. }
      destruct Hres as [(n' & pre & m' & post & t & Hrun & -> & Hm' & Hnom
                         & Hone & Hall)|[Hrun Hall]].
      * left. exists n', (m :: pre), m', post, t.
        split; [exact Hrun|]. split; [done|]. split; [exact Hm'|].
        split; [done|]. split; [by rewrite Hstep|].
        intros t'. rewrite Hstep. apply Hall.
      * right. split; [exact Hrun|]. intros t. rewrite Hstep. apply Hall.
Qed.

Lemma counted_nominee_Some extractBests g chan mafia m t :
  counted_nominee extractBests g chan mafia m = Some t ->
  m_channel m = chan
  /\ is_game_member g (author m) = true
  /\ String.prefix ">>nominate " (content m) = true
  /\ get_by_member (players g) (author m) <> Some t
  /\ exists p, players g !! t = Some p /\ dead p = false.
Proof.
  unfold counted_nominee.
  destruct (bool_decide (m_channel m = chan)) eqn:Hc; [|done].
  apply bool_decide_eq_true in Hc.
  destruct (is_game_member g (author m)); [|done].
  destruct (String.prefix _ _); [|done]. cbn.
  destruct (get_mafia_player _ _ _) as [player|]; [|done].
  case_bool_decide as Hself; [done|].
  destruct (players g !! player) as [p|] eqn:Hp; [|done].
  destruct (dead p) eqn:Hd; [done|].
  destruct (mafia && is_mafia p); [done|].
  intros [= <-]. eauto 10.
Qed.

Lemma nominate_player_run extractBests msgs w :
  match (nominate_player extractBests msgs w).1 with
  | Ret (Some t) =>
      exists pre m post,
        msgs = pre ++ m :: post
        /\ counted_nominee extractBests (game w) ChChat false m = Some t
        /\ tally extractBests (game w) t pre = 1
        /\ forall t', tally extractBests (game w) t' pre <= 1
  | Ret None => forall t, tally extractBests (game w) t msgs <= 1
  | Raise _ => False
  end.
Proof.
  destruct (wait_for_nomination_run extractBests msgs no_nominations w)
    as (w' & Hg & Hres).
  { intros t. cbn. rewrite lookup_empty. cbn. lia. }
  cbv [nominate_player mbind M_bind get_game mret M_ret].
  change (noms_needed (game w) false) with 2.
  destruct Hres as [(n' & pre & m & post & t & Hrun & -> & Hm & Hnom
                     & Hone & Hall)|[Hrun Hall]]; rewrite Hrun.
  - cbn. rewrite Hnom. cbn. exists pre, m, post.
    cbn in Hone, Hall. rewrite lookup_empty in Hone. cbn in Hone.
    split; [done|]. split; [done|]. split; [done|].
    intros t'. specialize (Hall t'). rewrite lookup_empty in Hall.
    cbn in Hall. lia.
  - cbn. intros t. specialize (Hall t). cbn in Hall.
    rewrite lookup_empty in Hall. cbn in Hall. lia.
Qed.



(** ** C7: who sees a disguise *)

Lemma sheriff_backfires_apparent g target :
  sheriff_backfires g target
  = is_citizen target || is_citizen (apparent g target).
Proof.
  unfold sheriff_backfires, apparent.
  destruct (disguised_as target) as [d|]; cbn.
  - destruct (players g !! d); cbn; [done|].
    by destruct (is_citizen target).
  - by destruct (is_citizen target).
Qed.

Lemma sheriff_shot w self me target tp locals :
  player_at w self = Some me -> cls me = Sheriff ->
  player_at w target = Some tp ->
  night_task_finish self locals [target] w =
  if sheriff_backfires (game w) tp
  then (Ret tt,
        with_sent (Send (ChPlayer self) MThumbsUp)
          (with_players (alter (visit self) target)
             (with_players (alter (kill self) self) w)))
  else (Ret tt,
        with_sent (Send (ChPlayer self) MThumbsUp)
          (with_players (alter (kill self) target) w)).
Proof.
  unfold player_at. intros Hme Hcls Htp.
  cbv [night_task_finish mbind M_bind get_player get_game mret M_ret].
  rewrite Hme. cbv beta iota. rewrite Hcls, Htp. cbv beta iota.
  destruct (sheriff_backfires (game w) tp); reflexivity.
Qed.

Lemma mafia_kill_check_run extractBests m w gf gfp p pp :
  godfather (game w) = Some gf -> player_at w gf = Some gfp ->
  m_channel m = ChMafia -> member_eqb (author m) (member gfp) = true ->
  get_mafia_player extractBests (game w) (content m) = Ret p ->
  player_at w p = Some pp ->
  mafia_kill_check extractBests m w = (Ret (negb (is_mafia pp)), w).
Proof.
  unfold player_at. intros Hgf Hgfp Hc Ha Hr Hp.
  cbv [mafia_kill_check mbind M_bind get_player get_game mret M_ret].
  rewrite Hc, Hgf. rewrite bool_decide_eq_true_2 by done.
  cbv beta iota delta [negb].
  rewrite Hgfp. cbv beta iota. rewrite Ha, Hr. cbv beta iota.
  rewrite Hp. cbv beta iota. by destruct (is_mafia pp).
Qed.

(** C7, as the code has it.  The Sheriff's shot goes by the disguise: it
    turns on the Sheriff when the target is a citizen or is seen as one,
    so a target that is no citizen is judged by its apparent alignment.
    The godfather's check goes by the true alignment of the player named:
    a mafia player is refused, disguised or not. *)
Theorem disguise_seen_by_sheriff_only :
  (forall g target,
      sheriff_backfires g target
      = is_citizen target || is_citizen (apparent g target))
  /\ (forall w self me target tp locals,
        player_at w self = Some me -> cls me = Sheriff ->
        player_at w target = Some tp -> is_citizen tp = false ->
        night_task_finish self locals [target] w =
        if is_citizen (apparent (game w) tp)
        then (Ret tt,
              with_sent (Send (ChPlayer self) MThumbsUp)
                (with_players (alter (visit self) target)
                   (with_players (alter (kill self) self) w)))
        else (Ret tt,
              with_sent (Send (ChPlayer self) MThumbsUp)
                (with_players (alter (kill self) target) w)))
  /\ (forall extractBests m w gf gfp p pp,
        godfather (game w) = Some gf -> player_at w gf = Some gfp ->
        m_channel m = ChMafia ->
        member_eqb (author m) (member gfp) = true ->
        get_mafia_player extractBests (game w) (content m) = Ret p ->
        player_at w p = Some pp ->
        mafia_kill_check extractBests m w = (Ret (negb (is_mafia pp)), w)).
Proof.
  split; [exact sheriff_backfires_apparent|]. split.
  - intros w self me target tp locals Hme Hcls Htp Hcit.
    rewrite (sheriff_shot w self me target tp) by done.
    by rewrite sheriff_backfires_apparent, Hcit.
  - exact mafia_kill_check_run.
Qed.

(** C7 as stated fails: in the game [disguise_night] the mafia player 4
    is disguised as the citizen 5, and the godfather's check still refuses
    player 4 as a target, where a check on the apparent alignment would
    accept. *)
Lemma godfather_check_ignores_disguise :
  let w := disguise_night in
  let m := {| m_channel := ChMafia; author := mk_member "dan" 4;
              content := "cat" |} in
  (disguised_as <$> player_at w 4) = Some (Some 5)
  /\ (is_mafia <$> player_at w 4) = Some true
  /\ (is_mafia ∘ apparent (game w) <$> player_at w 4) = Some false
  /\ get_mafia_player exact_name (game w) (content m) = Ret 4
  /\ (mafia_kill_check exact_name m w).1 = Ret false.
Proof. repeat split; vm_compute; reflexivity. Qed.

(** The comparison of the PI reads the true alignments as well. *)
Lemma PI_ignores_disguise :
  let g := game disguise_night in
  exists p4 p6,
    players g !! 4 = Some p4 /\ players g !! 6 = Some p6
    /\ PI_same_alignment p4 p6 = false
    /\ PI_same_alignment (apparent g p4) (apparent g p6) = true.
Proof. vm_compute. eexists _, _. repeat split. Qed.

(** ** C3: the succession of the godfather *)

Lemma indexed_lookup (ps : list Player) i :
  indexed ps !! i = (fun p => (i, p)) <$> ps !! i.
Proof. unfold indexed. by rewrite list_lookup_imap. Qed.

Lemma elem_of_indexed (ps : list Player) i p :
  (i, p) ∈ indexed ps <-> ps !! i = Some p.
Proof.
  rewrite list_elem_of_lookup. split.
  - intros [j Hj]. rewrite indexed_lookup in Hj.
    destruct (ps !! j) eqn:E; cbn in Hj; [|done]. by injection Hj as <- <-.
  - intros H. exists i. by rewrite indexed_lookup, H.
Qed.

Lemma indexed_fst (ps : list Player) : (indexed ps).*1 = seq 0 (length ps).
Proof.
  unfold indexed. apply list_eq. intros i.
  rewrite list_lookup_fmap, list_lookup_imap.
  destruct (ps !! i) eqn:E; cbn.
  - symmetry. apply lookup_seq. split; [done|]. by eapply lookup_lt_Some.
  - symmetry. apply lookup_seq_ge. by apply lookup_ge_None.
Qed.

Lemma godfather_candidates_plain g n :
  n ∈ godfather_candidates g <->
  exists p, players g !! n = Some p /\ is_mafia p = true
            /\ cls p <> Janitor /\ cls p <> Disguiser.
Proof.
  unfold godfather_candidates. rewrite list_elem_of_fmap. split.
  - intros ([i p] & -> & H). apply list_elem_of_filter in H as [[Hm Hs] H].
    apply elem_of_indexed in H. cbn in *. exists p.
    split; [done|]. split; [done|].
    unfold __special_mafia__ in Hs. set_solver.
  - intros (p & Hp & Hm & H1 & H2). exists (n, p). split; [done|].
    apply list_elem_of_filter. split; [|by apply elem_of_indexed].
    cbn. split; [done|]. unfold __special_mafia__. set_solver.
Qed.

Lemma NoDup_fst_filter_indexed (ps : list Player)
    (P : nat * Player -> Prop) `{forall x, Decision (P x)} :
  NoDup (filter P (indexed ps)).*1.
Proof.
  apply (sublist_NoDup _ (indexed ps).*1).
  - rewrite indexed_fst. apply NoDup_seq.
  - apply fmap_sublist, sublist_filter.
Qed.

Lemma godfather_candidates_NoDup g : NoDup (godfather_candidates g).
Proof. apply NoDup_fst_filter_indexed. Qed.

(** The candidates depend on the classes of the roster only. *)
Lemma candidates_of_classes (ps ps' : list Player) : forall h : nat -> nat,
  map cls ps = map cls ps' ->
  (filter (fun ip : nat * Player =>
             is_mafia ip.2 = true /\ cls ip.2 ∉ __special_mafia__)
          (imap (fun i p => (h i, p)) ps)).*1
  = (filter (fun ip : nat * Player =>
               is_mafia ip.2 = true /\ cls ip.2 ∉ __special_mafia__)
            (imap (fun i p => (h i, p)) ps')).*1.
Proof.
  revert ps'. induction ps as [|p ps IH]; intros [|q ps'] h Hc;
    try discriminate; [done|].
  injection Hc as Hpq Hc. cbn [imap]. rewrite !filter_cons. cbn [snd].
  unfold is_mafia. rewrite Hpq.
  specialize (IH ps' (h ∘ S) Hc).
  destruct (decide _); cbn; [f_equal|]; exact IH.
Qed.

Lemma godfather_candidates_classes g g' :
  map cls (players g) = map cls (players g') ->
  godfather_candidates g = godfather_candidates g'.
Proof. intros Hc. apply (candidates_of_classes _ _ (fun i => i) Hc). Qed.

Lemma map_cls_alter f i (ps : list Player) :
  (forall p, cls (f p) = cls p) -> map cls (alter f i ps) = map cls ps.
Proof.
  intros Hf. apply list_eq. intros j.
  rewrite !list_lookup_fmap, list_lookup_alter.
  case_decide as Hij; [subst j|done].
  destruct (ps !! i); cbn; [|done]. by rewrite Hf.
Qed.

(** [choose_godfather], run. *)
Lemma choose_godfather_run w :
  choose_godfather w =
  match godfather_candidates (game w) with
  | [] => (Raise IndexError, w)
  | x :: l =>
      let n := drawn_candidate w x l in
      (Ret tt,
       with_sent (Send (ChPlayer n) MYouAreTheGodfather)
         (with_players (alter (set_is_godfather true) n) (after_draw w)))
  end.
Proof.
  cbv [choose_godfather mbind M_bind get_game mret M_ret].
  destruct (godfather_candidates (game w)) as [|x l]; reflexivity.
Qed.

Lemma run_bind {A B} (m : M A) (f : A -> M B) w :
  (m ≫= f) w = match m w with
               | (Ret a, w') => f a w'
               | (Raise e, w') => (Raise e, w')
               end.
Proof. reflexivity. Qed.

Lemma run_ret {A} (a : A) w : (mret a : M A) w = (Ret a, w).
Proof. reflexivity. Qed.

Lemma run_send c m w : send c m w = (Ret tt, with_sent (Send c m) w).
Proof. reflexivity. Qed.

Lemma run_update_player i f w :
  update_player i f w = (Ret tt, with_players (alter f i) w).
Proof. reflexivity. Qed.

Lemma run_get_game w : get_game w = (Ret (game w), w).
Proof. reflexivity. Qed.

Lemma run_get_player i w :
  get_player i w = match players (game w) !! i with
                   | Some p => (Ret p, w)
                   | None => (Raise IndexError, w)
                   end.
Proof.
  unfold get_player. rewrite run_bind, run_get_game.
  by destruct (players (game w) !! i).
Qed.

Lemma pre_day_dies_run i k player loc w :
  pre_day_dies i k player loc w =
  let notice := death_notice i k player loc in
  let w1 := with_players (alter (set_dead true) i) (with_sent notice.1 w) in
  if is_godfather player then
    match godfather_candidates (game w) with
    | [] => (Raise IndexError, w1)
    | x :: l =>
        let n := drawn_candidate w x l in
        (Ret notice.2,
         with_players (alter (set_is_godfather false) i)
           (with_sent (Send (ChPlayer n) MYouAreTheGodfather)
              (with_players (alter (set_is_godfather true) n)
                 (after_draw w1))))
    end
  else (Ret notice.2, w1).
Proof.
  cbv zeta. unfold pre_day_dies, death_notice.
  assert (Hc : forall ev,
            godfather_candidates
              (game (with_players (alter (set_dead true) i) (with_sent ev w)))
            = godfather_candidates (game w)).
  { intros ev. apply godfather_candidates_classes. cbn.
    by apply map_cls_alter. }
  destruct (cleaned_by player) as [cleaner|]; cbn [fst snd];
    destruct (is_godfather player); unfold when;
    repeat (rewrite ?run_bind, ?run_send, ?run_update_player, ?run_ret,
              ?choose_godfather_run, ?Hc; cbv beta iota zeta);
    try reflexivity;
    by destruct (godfather_candidates (game w)).
Qed.

Lemma day_notification_run ns w :
  day_notification ns w =
  let current := default [] (_day_notifications (game w) !! _day (game w))
                 ++ ns in
  (Ret tt,
   with_game (set__day_notifications
                (<[_day (game w) := current]> (_day_notifications (game w)))
                (game w))
     (with_sent (Send ChInfo (MDayEmbed (edits_embed (game w))
                                (_day (game w))
                                (bool_decide (1 < _day (game w))%Z)
                                (roles_alive (game w)) current))
        w)).
Proof. reflexivity. Qed.

Lemma lynch_godfather_run w player p x l :
  player_at w player = Some p ->
  is_mafia p = true -> is_godfather p = true ->
  godfather_candidates (game w) = x :: l ->
  let n := drawn_candidate w x l in
  let w' := (lynch player w).2 in
  (lynch player w).1 = Ret true
  /\ (exists lines,
        sent w' = sent w
                  ++ [Send (ChPlayer n) MYouAreTheGodfather;
                      Send ChInfo (MDayEmbed (edits_embed (game w))
                                     (_day (game w))
                                     (bool_decide (1 < _day (game w))%Z)
                                     (roles_alive (game w')) lines)]
        /\ NLynched player ∈ lines)
  /\ (is_godfather <$> player_at w' n) = Some true.
Proof.
  intros Hp Hm Hg Hc. unfold player_at in *. cbv zeta.
  set (n := drawn_candidate w x l).
  set (w1 := with_players (alter (set_lynched true) player)
               (with_players (alter (set_dead true) player) w)).
  assert (Hp1 : players (game w1) !! player
                = Some (set_lynched true (set_dead true p))).
  { cbn. by rewrite !list_lookup_alter_eq, Hp. }
  assert (Hc1 : godfather_candidates (game w1) = x :: l).
  { rewrite <- Hc. apply godfather_candidates_classes. cbn.
    rewrite !map_cls_alter; done. }
  assert (Hn : n ∈ godfather_candidates (game w)).
  { rewrite Hc. unfold n, drawn_candidate.
    destruct (nth_in_or_default (entropy w (drawn w) mod length (x :: l))
                (x :: l) x) as [H|H];
      [by apply list_elem_of_In | rewrite H; left]. }
  apply godfather_candidates_plain in Hn as (q & Hq & _).
  unfold lynch.
  rewrite run_bind, run_update_player. cbv beta iota.
  rewrite run_bind, run_update_player. cbv beta iota. fold w1.
  rewrite run_bind, run_get_player, Hp1. cbv beta iota.
  change (is_mafia (set_lynched true (set_dead true p))) with (is_mafia p).
  change (is_godfather (set_lynched true (set_dead true p)))
    with (is_godfather p).
  rewrite Hm, Hg. cbn [andb]. rewrite run_bind. unfold try_except.
  rewrite run_bind, (choose_godfather_run w1), Hc1. cbv beta iota zeta.
  rewrite run_ret. cbv beta iota.
  rewrite run_bind, day_notification_run. cbv beta iota zeta.
  assert (Hn1 : drawn_candidate w1 x l = n) by reflexivity.
  rewrite Hn1. clearbody n.
  rewrite run_ret. cbn.
  split; [done|]. split.
  - eexists. rewrite <- app_assoc. split; [reflexivity|].
    apply elem_of_app. right. left.
  - rewrite list_lookup_alter_eq.
    destruct (decide (n = player)) as [->|Hne].
    + by rewrite !list_lookup_alter_eq, Hp.
    + rewrite !list_lookup_alter_ne by done. by rewrite Hq.
Qed.

(** [pre_day] posts the embed of the day after everything the resolution
    of the night sends, and nothing after it. *)
Lemma pre_day_results_last w w' :
  (1 < _day (game w))%Z -> pre_day w = (Ret tt, w') ->
  exists evs edit alive lines,
    sent w' = sent w ++ evs
              ++ [Send ChInfo (MDayEmbed edit (_day (game w)) true alive
                                 lines)]
    /\ Forall off_info evs.
Proof.
  intros Hday Hrun.
  pose (I1 := Inv (fun _ => True) off_info (fun d => d = _day (game w))
                  (map cls (players (game w))) (sent w)).
  assert (HI1 : I1 w).
  { repeat split; [by apply Forall_true|]. exists []. by rewrite app_nil_r. }
  assert (K1 : keeps I1 (fold_M pre_day_player (roster_indices (game w))
                           ([], [])) any).
  { apply keeps_fold_M. intros. apply keeps_pre_day_player.
    - done.
    - intros c m Hc _. exact Hc.
    - intros p c v _ _. discriminate. }
  specialize (K1 w HI1). unfold wp in K1.
  unfold pre_day in Hrun. rewrite run_bind, run_get_game in Hrun.
  cbv beta iota in Hrun. rewrite bool_decide_eq_true_2 in Hrun by done.
  rewrite !run_bind in Hrun.
  destruct (fold_M pre_day_player (roster_indices (game w)) ([], []) w)
    as [[loc|e] w1]; [|discriminate].
  destruct K1 as [(Hcs & _ & (evs & Hsent & Hevs) & Hd) _].
  rewrite day_notification_run in Hrun. cbv beta iota zeta in Hrun.
  match type of Hrun with
  | cleanup_everyone ?x = _ => set (w2 := x) in *
  end.
  pose (I2 := Inv (fun _ => True) (fun _ => False) (fun _ => True)
                  (map cls (players (game w2))) (sent w2)).
  assert (HI2 : I2 w2).
  { repeat split; [by apply Forall_true|]. exists []. by rewrite app_nil_r. }
  assert (K2 : keeps I2 cleanup_everyone any).
  { apply keeps_cleanup_everyone; done. }
  specialize (K2 w2 HI2). unfold wp in K2. rewrite Hrun in K2.
  destruct K2 as [(_ & _ & (evs2 & Hsent2 & Hevs2) & _) _].
  destruct evs2 as [|e evs2]; [|by inversion Hevs2].
  rewrite app_nil_r in Hsent2. rewrite Hsent2. subst w2. cbn.
  rewrite Hsent, Hd. rewrite bool_decide_eq_true_2 by done.
  eexists evs, _, _, _. rewrite <- app_assoc. done.
Qed.

(** What one round of the loop of [pre_day] sends: no designation of a
    godfather, or the notice of a death and then the designation. *)
Lemma pre_day_player_events i loc w loc' w' :
  pre_day_player i loc w = (Ret loc', w') ->
  exists b,
    sent w' = sent w ++ b
    /\ (Forall (fun e => message e <> MYouAreTheGodfather) b
        \/ exists e n, b = [e; Send (ChPlayer n) MYouAreTheGodfather]
                       /\ death_note e).
Proof.
  unfold pre_day_player. rewrite run_bind, run_get_player.
  destruct (players (game w) !! i) as [p|]; [|done]. cbv beta iota.
  assert (Hquiet : (Ret loc, w) = (Ret loc', w') ->
            exists b, sent w' = sent w ++ b
              /\ (Forall (fun e => message e <> MYouAreTheGodfather) b
                  \/ exists e n,
                       b = [e; Send (ChPlayer n) MYouAreTheGodfather]
                       /\ death_note e)).
  { intros [= <- <-]. exists []. rewrite app_nil_r. split; [done|].
    by left. }
  destruct (dead p); [apply Hquiet|].
  destruct (killed_by p) as [k|]; [|apply Hquiet].
  rewrite run_bind, run_get_player.
  destruct (players (game w) !! k) as [killer|]; [|done].
  cbv beta iota. rewrite run_bind, run_get_game. cbv beta iota.
  rewrite run_bind. unfold lift at 1.
  destruct (pre_day_saved (game w) p killer) as [[|]|e]; [| |done];
    cbv beta iota.
  - unfold pre_day_survives, when.
    destruct (is_mafia killer);
      repeat (rewrite ?run_bind, ?run_send, ?run_ret; cbv beta iota);
      intros [= <- <-]; cbn; rewrite <- ?app_assoc;
      eexists; (split; [reflexivity|]); left; by repeat constructor.
  - rewrite pre_day_dies_run. cbv zeta.
    assert (Hnote : death_note (death_notice i k p loc).1).
    { unfold death_notice, death_note. exists i.
      destruct (cleaned_by p) as [c|]; cbn; [right; by exists c|by left]. }
    assert (Hno : message (death_notice i k p loc).1
                  <> MYouAreTheGodfather).
    { unfold death_notice. by destruct (cleaned_by p). }
    destruct (is_godfather p).
    + destruct (godfather_candidates (game w)) as [|x l]; [done|].
      intros [= <- <-]. cbn. rewrite <- app_assoc.
      eexists. split; [reflexivity|]. right. by eexists _, _.
    + intros [= <- <-]. cbn. eexists. split; [reflexivity|]. left.
      by repeat constructor.
Qed.

Lemma drawn_after_notice_round b evs :
  (Forall (fun e => message e <> MYouAreTheGodfather) b
   \/ exists e n, b = [e; Send (ChPlayer n) MYouAreTheGodfather]
                  /\ death_note e) ->
  drawn_after_notice evs ->
  drawn_after_notice (b ++ evs).
Proof.
  intros Hb Hevs pre n post Heq.
  assert (Hnote : forall e, death_note e ->
                    e <> Send (ChPlayer n) MYouAreTheGodfather).
  { intros e (j & [->|[c ->]]); discriminate. }
  apply app_eq_inv in Heq as [(k & -> & Hk)|(k & -> & Hk)].
  - destruct k as [|x k].
    + cbn in Hk. destruct (Hevs [] n post (eq_sym Hk)) as (pre' & e & He & _).
      by destruct pre'.
    + injection Hk as <- _. destruct Hb as [Hb|(e & m & Hb & He)].
      * apply Forall_app in Hb as [_ Hb].
        apply Forall_cons in Hb as [Hb _]. done.
      * destruct pre as [|y [|z pre]].
        -- injection Hb as Hb _. symmetry in Hb. by apply Hnote in Hb.
        -- injection Hb as -> _. by exists [], e.
        -- injection Hb as _ _ Hb. by destruct pre.
  - destruct (Hevs k n post Hk) as (pre' & e & -> & He).
    exists (b ++ pre'), e. by rewrite app_assoc.
Qed.

Lemma pre_day_loop_events l : forall loc w loc' w',
  fold_M pre_day_player l loc w = (Ret loc', w') ->
  exists evs, sent w' = sent w ++ evs /\ drawn_after_notice evs.
Proof.
  induction l as [|i l IH]; intros loc w loc' w'; cbn [fold_M].
  - intros [= <- <-]. exists []. rewrite app_nil_r. split; [done|].
    intros pre n post H. by destruct pre.
  - rewrite run_bind.
    destruct (pre_day_player i loc w) as [[loc1|e] w1] eqn:Hstep; [|done].
    intros Hrest.
    destruct (pre_day_player_events _ _ _ _ _ Hstep) as (b & Hb & Hround).
    destruct (IH _ _ _ _ Hrest) as (evs & Hevs & Hord).
    exists (b ++ evs). split; [by rewrite Hevs, Hb, app_assoc|].
    by apply drawn_after_notice_round.
Qed.


Lemma drawn_candidate_uniform w x l n :
  n ∈ x :: l ->
  exists r, r < length (x :: l)
            /\ (entropy w (drawn w) = r -> drawn_candidate w x l = n).
Proof.
  intros Hn. apply list_elem_of_lookup in Hn as [r Hr].
  exists r. pose proof (lookup_lt_Some _ _ _ Hr) as Hlt.
  split; [done|]. intros He. unfold drawn_candidate.
  rewrite He, Nat.mod_small by done.
  by apply nth_lookup_Some with (d := x) in Hr.
Qed.



(** ** C5: what a night kill announces *)

Lemma map_alter_same {X} (pi : Player -> X) f i (ps : list Player) :
  (forall p, pi (f p) = pi p) -> map pi (alter f i ps) = map pi ps.
Proof.
  intros Hf. apply list_eq. intros j.
  rewrite !list_lookup_fmap, list_lookup_alter.
  case_decide as Hij; [subst j|done].
  destruct (ps !! i); cbn; [|done]. by rewrite Hf.
Qed.

Lemma lookup_alter_same {X} (pi : Player -> X) f i j (ps : list Player) :
  (forall p, pi (f p) = pi p) ->
  pi <$> alter f i ps !! j = pi <$> ps !! j.
Proof.
  intros Hf. rewrite <- !list_lookup_fmap. by rewrite map_alter_same.
Qed.

Lemma same_frozen_lookup (ps ps' : list Player) j p' :
  map frozen ps' = map frozen ps -> ps' !! j = Some p' ->
  exists p, ps !! j = Some p /\ frozen p' = frozen p.
Proof.
  intros Hf Hj.
  assert (H : map frozen ps' !! j = Some (frozen p'))
    by (by rewrite list_lookup_fmap, Hj).
  rewrite Hf, list_lookup_fmap in H.
  destruct (ps !! j) as [p|]; [|done]. cbn in H.
  exists p. split; [done|congruence].
Qed.

Lemma frozen_fields p q :
  frozen p = frozen q ->
  cls p = cls q /\ member p = member q /\ killed_by p = killed_by q
  /\ cleaned_by p = cleaned_by q /\ protected_by p = protected_by q.
Proof.
  intros H.
  repeat split;
    [ change (cls (frozen p) = cls (frozen q))
    | change (member (frozen p) = member (frozen q))
    | change (killed_by (frozen p) = killed_by (frozen q))
    | change (cleaned_by (frozen p) = cleaned_by (frozen q))
    | change (protected_by (frozen p) = protected_by (frozen q)) ];
    by rewrite H.
Qed.

Lemma uncleaned_same w w' j :
  map frozen (players (game w')) = map frozen (players (game w)) ->
  uncleaned w' j -> uncleaned w j.
Proof.
  intros Hf (p' & Hj & Hc).
  destruct (same_frozen_lookup _ _ _ _ Hf Hj) as (p & Hp & Hpp).
  exists p. split; [done|].
  apply frozen_fields in Hpp as (_ & _ & _ & <- & _). done.
Qed.

Lemma night_report_quiet l w w' evs :
  game w' = game w -> sent w' = sent w ++ evs ->
  Forall (fun e => public (channel e) = false) evs ->
  night_report l w w' [].
Proof.
  intros Hg Hs Hevs. unfold night_report, dead_at. rewrite Hg.
  split; [done|]. split; [done|]. split; [done|]. split; [done|].
  split; [intros j k H; by apply elem_of_nil in H|].
  split; [intros n H; by apply elem_of_nil in H|].
  exists evs. split; [done|]. split.
  { eapply Forall_impl; [exact Hevs|]. intros e He Hp. congruence. }
  split.
  { intros j Hj. rewrite Forall_forall in Hevs. by apply Hevs in Hj. }
  intros i p _ Hp Hd Hd'. rewrite Hp in Hd'. cbn in Hd'. congruence.
Qed.

Lemma night_report_death i k p loc w w' extra :
  players (game w) !! i = Some p -> killed_by p = Some k ->
  is_Some (players (game w) !! k) ->
  map frozen (players (game w')) = map frozen (players (game w)) ->
  _day (game w') = _day (game w) ->
  _day_notifications (game w') = _day_notifications (game w) ->
  (forall j, j <> i -> dead_at w' j = dead_at w j) ->
  sent w' = sent w ++ (death_notice i k p loc).1 :: extra ->
  Forall (fun e => public (channel e) = false) extra ->
  exists lines,
    (death_notice i k p loc).2.1 = loc.1 ++ lines
    /\ night_report [i] w w' lines.
Proof.
  intros Hp Hk Hkl Hf Hd Hn Hother Hs Hextra.
  exists (match cleaned_by p with Some _ => [] | None => [NKilledBy i k] end).
  split.
  { unfold death_notice. destruct (cleaned_by p); cbn; [|done].
    by rewrite app_nil_r. }
  unfold night_report.
  split; [done|]. split; [done|]. split; [done|].
  split; [intros j Hj; apply Hother; set_solver|].
  split.
  { intros j k' H. destruct (cleaned_by p) eqn:Hc;
      [by apply elem_of_nil in H|].
    apply list_elem_of_singleton in H. injection H as -> ->.
    by exists p. }
  split.
  { intros n H. destruct (cleaned_by p); [by apply elem_of_nil in H|].
    apply list_elem_of_singleton in H. eauto. }
  eexists. split; [exact Hs|].
  assert (Hpub : Forall public_is_kill extra).
  { eapply Forall_impl; [exact Hextra|]. intros e He H. congruence. }
  split.
  { constructor; [|done]. unfold death_notice.
    destruct (cleaned_by p); [intros H; discriminate H|].
    intros _. by exists i. }
  split.
  { intros j Hj. apply elem_of_cons in Hj as [Hj|Hj].
    - unfold death_notice in Hj. destruct (cleaned_by p) eqn:Hc;
        [discriminate Hj|]. injection Hj as ->. by exists p.
    - rewrite Forall_forall in Hextra. by apply Hextra in Hj. }
  intros i' p' Hi' Hp' _ _. apply list_elem_of_singleton in Hi' as ->.
  rewrite Hp in Hp'. injection Hp' as <-.
  exists k. split; [done|]. split; [done|].
  unfold death_notice. destruct (cleaned_by p); cbn.
  - left.
  - split; [left|]. apply list_elem_of_singleton. done.
Qed.

Lemma pre_day_survives_run i player killer loc w :
  exists evs,
    pre_day_survives i player killer loc w
    = (Ret loc, {| game := game w; sent := sent w ++ evs;
                   entropy := entropy w; drawn := drawn w |})
    /\ Forall (fun e => public (channel e) = false) evs.
Proof.
  unfold pre_day_survives, when. destruct (is_mafia killer).
  - eexists [_; _].
    repeat (rewrite ?run_bind, ?run_send, ?run_ret; cbv beta iota).
    unfold with_sent; cbn. rewrite <- app_assoc. split; [done|].
    repeat constructor.
  - eexists [_].
    repeat (rewrite ?run_bind, ?run_send, ?run_ret; cbv beta iota).
    split; [done|]. repeat constructor.
Qed.

Lemma dead_at_alter_ne w f i j :
  j <> i -> dead_at (with_players (alter f i) w) j = dead_at w j.
Proof. intros H. unfold dead_at; cbn. by rewrite list_lookup_alter_ne. Qed.

Lemma dead_at_alter_keep w f i j :
  (forall p, dead (f p) = dead p) ->
  dead_at (with_players (alter f i) w) j = dead_at w j.
Proof. intros H. unfold dead_at; cbn. by apply lookup_alter_same. Qed.

(** One round of the loop of [pre_day]. *)
Lemma pre_day_player_report i loc w loc' w' :
  pre_day_player i loc w = (Ret loc', w') ->
  exists lines, loc'.1 = loc.1 ++ lines /\ night_report [i] w w' lines.
Proof.
  unfold pre_day_player.
  rewrite run_bind, run_get_player.
  destruct (players (game w) !! i) as [p|] eqn:Hp; [|done].
  cbv beta iota.
  assert (Hquiet : forall l, (Ret loc, w) = (Ret loc', w') ->
            exists lines, loc'.1 = loc.1 ++ lines
                          /\ night_report l w w' lines).
  { intros l [= <- <-]. exists []. rewrite app_nil_r. split; [done|].
    apply (night_report_quiet _ _ _ []); [done|by rewrite app_nil_r|done]. }
  destruct (dead p) eqn:Hd; [apply Hquiet|].
  destruct (killed_by p) as [k|] eqn:Hk; [|apply Hquiet].
  rewrite run_bind, run_get_player.
  destruct (players (game w) !! k) as [killer|] eqn:Hkl; [|done].
  cbv beta iota. rewrite run_bind, run_get_game. cbv beta iota.
  rewrite run_bind. unfold lift at 1.
  destruct (pre_day_saved (game w) p killer) as [[|]|e]; [| |done];
    cbv beta iota.
  - destruct (pre_day_survives_run i p killer loc w) as (evs & -> & Hevs).
    intros [= <- <-]. exists []. rewrite app_nil_r. split; [done|].
    by apply (night_report_quiet _ _ _ evs).
  - rewrite pre_day_dies_run. cbv zeta.
    set (notice := death_notice i k p loc).
    destruct (is_godfather p).
    + destruct (godfather_candidates (game w)) as [|x l]; [done|].
      intros [= <- <-].
      eapply (night_report_death i k p loc w _
                [Send (ChPlayer (drawn_candidate w x l)) MYouAreTheGodfather]);
        eauto.
      * cbn. rewrite !map_alter_same; done.
      * intros j Hj. rewrite dead_at_alter_ne by done.
        unfold dead_at; cbn.
        rewrite (lookup_alter_same dead) by done.
        by rewrite list_lookup_alter_ne.
      * cbn. by rewrite <- app_assoc.
    + intros [= <- <-].
      eapply (night_report_death i k p loc w _ []); eauto.
      * cbn. rewrite !map_alter_same; done.
      * intros j Hj. by rewrite dead_at_alter_ne.
Qed.

Lemma night_report_nil w : night_report [] w w [].
Proof.
  apply (night_report_quiet _ _ _ []); [done|by rewrite app_nil_r|done].
Qed.

(** Two stretches of the loop, one after the other. *)
Lemma night_report_app l1 l2 w w1 w2 lines1 lines2 :
  (forall i, i ∈ l1 -> i ∉ l2) ->
  night_report l1 w w1 lines1 -> night_report l2 w1 w2 lines2 ->
  night_report (l1 ++ l2) w w2 (lines1 ++ lines2).
Proof.
  intros Hdisj (Hf1 & Hd1 & Hn1 & Ho1 & Hl1 & Hk1 & evs1 & Hs1 & Hp1 & Hc1
                & Hr1)
               (Hf2 & Hd2 & Hn2 & Ho2 & Hl2 & Hk2 & evs2 & Hs2 & Hp2 & Hc2
                & Hr2).
  unfold night_report.
  split; [congruence|]. split; [congruence|]. split; [congruence|].
  split.
  { intros j Hj. apply not_elem_of_app in Hj as [Hj1 Hj2].
    rewrite Ho2, Ho1; done. }
  split.
  { intros j k Hj. apply elem_of_app in Hj as [Hj|Hj]; [eauto|].
    eapply uncleaned_same; eauto. }
  split.
  { intros n Hn. apply elem_of_app in Hn as [Hn|Hn]; eauto. }
  exists (evs1 ++ evs2). split; [by rewrite Hs2, Hs1, app_assoc|].
  split; [by apply Forall_app|].
  split.
  { intros j Hj. apply elem_of_app in Hj as [Hj|Hj]; [eauto|].
    eapply uncleaned_same; eauto. }
  intros i p Hi Hp Hdead Hdead'.
  apply elem_of_app in Hi as [Hi|Hi].
  - (* processed in the first stretch; untouched by the second *)
    rewrite Ho2 in Hdead' by auto.
    destruct (Hr1 i p Hi Hp Hdead Hdead') as (k & Hk & Hkl & Hm).
    exists k. split; [done|]. split; [done|].
    destruct (cleaned_by p).
    + apply elem_of_app. by left.
    + destruct Hm. split; apply elem_of_app; by left.
  - (* untouched by the first stretch; processed in the second *)
    assert (Hi1 : i ∉ l1) by (intros H; by apply (Hdisj i H)).
    pose proof (Ho1 i Hi1) as Hsame. unfold dead_at in Hsame.
    rewrite Hp in Hsame. cbn in Hsame.
    destruct (players (game w1) !! i) as [p1|] eqn:Hp1'; [|done].
    injection Hsame as Hsame.
    destruct (same_frozen_lookup _ _ _ _ Hf1 Hp1') as (q & Hq & Hfr).
    rewrite Hp in Hq. injection Hq as <-.
    apply frozen_fields in Hfr as (_ & _ & Hkb & Hcb & _).
    destruct (Hr2 i p1 Hi Hp1' ltac:(congruence) Hdead')
      as (k & Hk & Hkl & Hm).
    exists k. split; [congruence|]. split.
    { destruct Hkl as [q Hq].
      destruct (same_frozen_lookup _ _ _ _ Hf1 Hq) as (q' & Hq' & _). eauto. }
    rewrite <- Hcb. destruct (cleaned_by p1).
    + apply elem_of_app. by right.
    + destruct Hm. split; apply elem_of_app; by right.
Qed.

(** The whole loop of [pre_day]. *)
Lemma pre_day_loop_report l : forall loc w loc' w',
  NoDup l ->
  fold_M pre_day_player l loc w = (Ret loc', w') ->
  exists lines, loc'.1 = loc.1 ++ lines /\ night_report l w w' lines.
Proof.
  induction l as [|i l IH]; intros loc w loc' w' Hnd; cbn [fold_M].
  - intros [= <- <-]. exists []. rewrite app_nil_r. split; [done|].
    apply night_report_nil.
  - rewrite run_bind.
    destruct (pre_day_player i loc w) as [[loc1|e] w1] eqn:Hstep; [|done].
    intros Hrest. apply NoDup_cons in Hnd as [Hi Hnd].
    destruct (pre_day_player_report _ _ _ _ _ Hstep) as (lines1 & Hl1 & Hr1).
    destruct (IH _ _ _ _ Hnd Hrest) as (lines2 & Hl2 & Hr2).
    exists (lines1 ++ lines2). split; [by rewrite Hl2, Hl1, app_assoc|].
    apply (night_report_app [i] l w w1 w'); [|done|done].
    intros j Hj. apply list_elem_of_singleton in Hj as ->. done.
Qed.

Lemma cleanup_loop l : forall w,
  (forall i, i ∈ l -> i < length (players (game w))) ->
  exists w',
    for_each l (fun i => p ← get_player i;
                         when (negb (dead p)) (update_player i cleanup_attrs))
             w = (Ret tt, w')
    /\ sent w' = sent w
    /\ map identity_and_life (players (game w'))
       = map identity_and_life (players (game w)).
Proof.
  induction l as [|i l IH]; intros w Hl; cbn [for_each].
  - by exists w.
  - rewrite run_bind, run_bind, run_get_player.
    destruct (lookup_lt_is_Some_2 (players (game w)) i) as [p Hp];
      [apply Hl; left|].
    rewrite Hp. cbv beta iota.
    assert (Hlen : forall w1 : World,
              map identity_and_life (players (game w1))
              = map identity_and_life (players (game w)) ->
              forall j, j ∈ l -> j < length (players (game w1))).
    { intros w1 Hm j Hj.
      rewrite <- (length_map identity_and_life), Hm, length_map.
      apply Hl. by right. }
    destruct (dead p); cbn [negb when].
    + rewrite run_ret. apply IH, Hlen. done.
    + rewrite run_update_player.
      assert (Hm : map identity_and_life
                     (players (game (with_players (alter cleanup_attrs i) w)))
                   = map identity_and_life (players (game w))).
      { cbn. by apply map_alter_same. }
      destruct (IH _ (Hlen _ Hm)) as (w' & Hrun & Hs & Hm').
      exists w'. split; [done|]. split; [done|]. by rewrite Hm'.
Qed.

Lemma cleanup_everyone_run w :
  exists w',
    cleanup_everyone w = (Ret tt, w')
    /\ sent w' = sent w
    /\ map identity_and_life (players (game w'))
       = map identity_and_life (players (game w)).
Proof.
  unfold cleanup_everyone. rewrite run_bind, run_get_game. cbv beta iota.
  apply cleanup_loop. intros i Hi. unfold roster_indices in Hi.
  apply elem_of_seq in Hi. lia.
Qed.

Lemma same_map_lookup {X} (pi : Player -> X) (ps ps' : list Player) j p :
  map pi ps' = map pi ps -> ps !! j = Some p ->
  exists p', ps' !! j = Some p' /\ pi p' = pi p.
Proof.
  intros Hf Hj.
  assert (H : map pi ps !! j = Some (pi p))
    by (by rewrite list_lookup_fmap, Hj).
  rewrite <- Hf, list_lookup_fmap in H.
  destruct (ps' !! j) as [p'|]; [|done]. cbn in H.
  exists p'. split; [done|congruence].
Qed.

Lemma map_frozen_cls (ps ps' : list Player) :
  map frozen ps' = map frozen ps -> map cls ps' = map cls ps.
Proof.
  intros H. apply list_eq. intros j. rewrite !list_lookup_fmap.
  destruct (ps' !! j) as [p'|] eqn:Hp'; cbn.
  - destruct (same_frozen_lookup _ _ _ _ H Hp') as (p & -> & Hfr).
    cbn. by apply frozen_fields in Hfr as (-> & _).
  - apply lookup_ge_None in Hp'.
    assert (Hlen : length ps' = length ps)
      by (rewrite <- (length_map frozen ps'), H; apply length_map).
    rewrite Hlen in Hp'. apply lookup_ge_None in Hp'. by rewrite Hp'.
Qed.

Lemma ledger_resolves_same w w' :
  map frozen (players (game w')) = map frozen (players (game w)) ->
  ledger_resolves w -> ledger_resolves w'.
Proof.
  intros Hf [Href Hc]. split.
  - intros i p' Hp'.
    destruct (same_frozen_lookup _ _ _ _ Hf Hp') as (p & Hp & Hfr).
    apply frozen_fields in Hfr as (_ & _ & Hk & _ & Hq).
    destruct (Href i p Hp) as [Hkill Hprot]. split.
    + intros k Hk'. rewrite Hk in Hk'.
      destruct (Hkill k Hk') as (killer & Hkl & Ha).
      destruct (same_map_lookup frozen _ _ k killer Hf Hkl)
        as (killer' & Hkl' & Hfr').
      exists killer'. split; [done|].
      apply frozen_fields in Hfr' as (Hcls & _).
      unfold attack_type in *. by rewrite Hcls.
    + intros q Hq'. rewrite Hq in Hq'.
      destruct (Hprot q Hq') as (protector & Hpr & Hd).
      destruct (same_map_lookup frozen _ _ q protector Hf Hpr)
        as (protector' & Hpr' & Hfr').
      exists protector'. split; [done|].
      apply frozen_fields in Hfr' as (Hcls & _).
      unfold defense_type in *. by rewrite Hcls.
  - rewrite (godfather_candidates_classes (game w') (game w)); [done|].
    by apply map_frozen_cls.
Qed.

(** On a resolvable world a round of the loop of [pre_day] returns. *)
Lemma pre_day_player_returns i loc w :
  ledger_resolves w -> i < length (players (game w)) ->
  exists loc' w', pre_day_player i loc w = (Ret loc', w').
Proof.
  intros [Href Hc] Hi. unfold pre_day_player.
  rewrite run_bind, run_get_player.
  destruct (lookup_lt_is_Some_2 _ _ Hi) as [p Hp]. rewrite Hp.
  cbv beta iota. destruct (dead p); [by eauto|].
  destruct (killed_by p) as [k|] eqn:Hk; [|by eauto].
  destruct (Href i p Hp) as [Hkill Hprot].
  destruct (Hkill k Hk) as (killer & Hkl & [a Ha]).
  rewrite run_bind, run_get_player, Hkl. cbv beta iota.
  rewrite run_bind, run_get_game. cbv beta iota.
  rewrite run_bind. unfold lift at 1.
  assert (Hsaved : exists b, pre_day_saved (game w) p killer = Ret b).
  { unfold pre_day_saved. destruct (protected_by p) as [q|] eqn:Hq;
      [|by eauto].
    destruct (Hprot q eq_refl) as (protector & -> & [d Hd]).
    rewrite Ha, Hd. cbn. eauto. }
  destruct Hsaved as [b ->]. cbv beta iota. destruct b.
  - destruct (pre_day_survives_run i p killer loc w) as (evs & -> & _).
    eauto.
  - rewrite pre_day_dies_run. cbv zeta.
    destruct (is_godfather p); [|by eauto].
    destruct (godfather_candidates (game w)); [done|by eauto].
Qed.

Lemma pre_day_loop_returns l : forall loc w,
  ledger_resolves w -> (forall i, i ∈ l -> i < length (players (game w))) ->
  exists loc' w', fold_M pre_day_player l loc w = (Ret loc', w').
Proof.
  induction l as [|i l IH]; intros loc w Hres Hl; cbn [fold_M].
  - by eauto.
  - rewrite run_bind.
    destruct (pre_day_player_returns i loc w Hres) as (loc1 & w1 & Hstep);
      [apply Hl; left|].
    rewrite Hstep.
    destruct (pre_day_player_report _ _ _ _ _ Hstep)
      as (lines & _ & Hf & _).
    apply IH.
    + by eapply ledger_resolves_same.
    + intros j Hj.
      rewrite <- (length_map frozen (players (game w1))), Hf, length_map.
      apply Hl. by right.
Qed.

Lemma resolvable_ledger w : resolvable w = true -> ledger_resolves w.
Proof.
  unfold resolvable. intros H. apply andb_prop in H as [Hall Hc]. split.
  - intros i p Hp.
    assert (Hin : In p (players (game w))).
    { apply list_elem_of_In. by eapply list_elem_of_lookup_2. }
    pose proof (proj1 (forallb_forall _ _) Hall p Hin) as H.
    apply andb_prop in H as [Hk Hq]. unfold has_tier in *. split.
    + intros k Ek. rewrite Ek in Hk.
      destruct (players (game w) !! k) as [killer|]; [|done].
      exists killer. split; [done|]. by apply bool_decide_eq_true_1 in Hk.
    + intros q Eq. rewrite Eq in Hq.
      destruct (players (game w) !! q) as [protector|]; [|done].
      exists protector. split; [done|].
      by apply bool_decide_eq_true_1 in Hq.
  - apply negb_true_iff in Hc. by apply bool_decide_eq_false_1 in Hc.
Qed.

(** [pre_day] returns on every resolvable world. *)
Lemma pre_day_returns w :
  ledger_resolves w -> exists w', pre_day w = (Ret tt, w').
Proof.
  intros Hres. unfold pre_day. rewrite run_bind, run_get_game.
  cbv beta iota. case_bool_decide; rewrite !run_bind.
  - destruct (pre_day_loop_returns (roster_indices (game w)) ([], []) w Hres)
      as (loc & w1 & ->).
    { intros i Hi. apply elem_of_seq in Hi. cbn in Hi. lia. }
    rewrite day_notification_run. cbv beta iota zeta.
    match goal with
    | |- exists w', cleanup_everyone ?x = _ =>
        destruct (cleanup_everyone_run x) as (w' & -> & _)
    end.
    eauto.
  - rewrite day_notification_run. cbv beta iota zeta.
    match goal with
    | |- exists w', cleanup_everyone ?x = _ =>
        destruct (cleanup_everyone_run x) as (w' & -> & _)
    end.
    eauto.
Qed.

(** The block [Roles Alive] reads the class and the [dead] flag of the
    players only. *)
Lemma fold_bump_ext (ps : list Player) : forall (ps' : list Player) acc,
  map (fun p => (cls p, dead p)) ps' = map (fun p => (cls p, dead p)) ps ->
  fold_left (fun counts p => if dead p then counts else bump (str p) counts)
            ps' acc
  = fold_left (fun counts p => if dead p then counts else bump (str p) counts)
              ps acc.
Proof.
  induction ps as [|p ps IH]; intros [|p' ps'] acc H; try done.
  cbn [map] in H. apply (f_equal head) in H as Hh.
  apply (f_equal tail) in H. cbn in Hh, H.
  assert (Hc : cls p' = cls p) by congruence.
  assert (Hd : dead p' = dead p) by congruence.
  cbn [fold_left]. unfold str. rewrite Hc, Hd. by apply IH.
Qed.

Lemma roles_alive_ext g g' :
  map (fun p => (cls p, dead p)) (players g')
  = map (fun p => (cls p, dead p)) (players g) ->
  roles_alive g' = roles_alive g.
Proof. apply fold_bump_ext. Qed.

Lemma roles_alive_identity g g' :
  map identity_and_life (players g') = map identity_and_life (players g) ->
  roles_alive g' = roles_alive g.
Proof.
  intros H. apply roles_alive_ext.
  apply (f_equal (map (fun t : PlayerClass * Member * bool =>
                         (t.1.1, t.2)))) in H.
  by rewrite !map_map in H.
Qed.

(** C5, as the code has it.  [pre_day], from day 2 on, with no line
    collected yet for the day that starts and on a ledger it can resolve,
    returns; the embed of the day is posted last, as a new message, with
    the roles of those alive after the resolution, and the only public
    messages before it are chat lines of deaths.  For every player that
    was alive and is dead afterwards: a cleaned victim appears in no chat
    line and in no line of the embed, and its cleaner is sent the note
    whose text names the victim and the victim's role; a victim that was
    not cleaned gets its chat line, whose text names the victim and its
    role and no killer, and the embed has the line whose text names the
    victim, its role and the role of the killer: the class name, not the
    member. *)
Theorem night_kill_announcements w :
  (1 < _day (game w))%Z ->
  _day_notifications (game w) !! _day (game w) = None ->
  resolvable w = true ->
  exists w', pre_day w = (Ret tt, w') /\
  exists evs lines,
    sent w' = sent w ++ evs
              ++ [Send ChInfo (MDayEmbed false (_day (game w)) true
                                 (roles_alive (game w')) lines)]
    /\ Forall public_is_kill evs
    /\ (forall n, n ∈ lines ->
          n = NNoOneKilled \/ exists j k, n = NKilledBy j k)
    /\ forall i p,
         player_at w i = Some p -> dead p = false ->
         dead_at w' i = Some true ->
         exists k killer,
           killed_by p = Some k /\ player_at w k = Some killer
           /\ match cleaned_by p with
              | Some c =>
                  Send (ChPlayer c) (MCleaned i) ∈ evs
                  /\ render (players (game w')) (MCleaned i)
                     = Some ("You cleaned " ++ name (member p)
                             ++ " up, their role was "
                             ++ class_name (cls p))%string
                  /\ (chat_kill i ∉ evs)
                  /\ (forall k', NKilledBy i k' ∉ lines)
              | None =>
                  chat_kill i ∈ evs
                  /\ render (players (game w')) (MKilledDuringNight i)
                     = Some ("- " ++ mention (member p) ++ " ("
                             ++ class_name (cls p)
                             ++ ") was killed during the night!")%string
                  /\ NKilledBy i k ∈ lines
                  /\ render_notif (players (game w')) (NKilledBy i k)
                     = ("- " ++ mention (member p) ++ " ("
                        ++ class_name (cls p) ++ ") was killed by "
                        ++ class_name (cls killer))%string
              end.
Proof.
  intros Hday Hfresh Hres.
  destruct (pre_day_returns w (resolvable_ledger w Hres)) as [w' Hrun].
  exists w'. split; [done|].
  unfold pre_day in Hrun. rewrite run_bind, run_get_game in Hrun.
  cbv beta iota in Hrun. rewrite bool_decide_eq_true_2 in Hrun by done.
  rewrite !run_bind in Hrun.
  destruct (fold_M pre_day_player (roster_indices (game w)) ([], []) w)
    as [[loc|e] w1] eqn:Hloop; [|done].
  destruct (pre_day_loop_report _ _ _ _ _ (NoDup_seq _ _) Hloop)
    as (lines0 & Hlines0 & Hf & Hd & Hn & Hother & Hunc & Hkind
        & evs & Hsent & Hpub & Hchat & Hdied).
  cbn in Hlines0.
  rewrite day_notification_run in Hrun. cbv beta iota zeta in Hrun.
  match type of Hrun with
  | cleanup_everyone ?x = _ => set (w2 := x) in *
  end.
  destruct (cleanup_everyone_run w2) as (w'' & Hclean & Hsent2 & Hid).
  rewrite Hclean in Hrun. injection Hrun as <-.
  set (lines := match loc.2 with
                | [] => loc.1 ++ [NNoOneKilled]
                | _ :: _ => loc.1
                end).
  assert (Hin : forall n, n ∈ lines -> n = NNoOneKilled \/ n ∈ lines0).
  { intros n. unfold lines. rewrite Hlines0. destruct (loc.2); [|by right].
    intros H. apply elem_of_app in H as [H|H]; [by right|].
    apply list_elem_of_singleton in H. by left. }
  assert (Hsub : forall n, n ∈ lines0 -> n ∈ lines).
  { intros n H. unfold lines. rewrite Hlines0.
    destruct (loc.2); [apply elem_of_app; by left|done]. }
  exists evs, lines. split.
  { rewrite Hsent2, (roles_alive_identity _ _ Hid). subst w2. cbn.
    unfold edits_embed. rewrite Hsent, Hd, Hn, Hfresh.
    rewrite bool_decide_eq_false_2 by apply is_Some_None.
    rewrite bool_decide_eq_true_2 by done. cbn. fold lines.
    by rewrite <- app_assoc. }
  split; [done|]. split.
  { intros n H. apply Hin in H as [H|H]; [by left|]. right. eauto. }
  unfold player_at, dead_at. intros i p Hp Hdead Hdead'.
  (* the player in the three worlds *)
  destruct (same_map_lookup frozen _ _ i p Hf Hp) as (p1 & Hp1 & Hfr).
  assert (Hp2 : players (game w2) !! i = Some p1) by (subst w2; exact Hp1).
  destruct (same_map_lookup identity_and_life _ _ i p1 Hid Hp2)
    as (p' & Hp' & Hpi).
  apply frozen_fields in Hfr as (Hcls & Hmem & _).
  unfold identity_and_life in Hpi.
  assert (Hdead1 : dead_at w1 i = Some true).
  { unfold dead_at. rewrite Hp1. rewrite Hp' in Hdead'. cbn in *.
    congruence. }
  assert (Hi : i ∈ roster_indices (game w)).
  { apply elem_of_seq. split; [lia|]. cbn. by eapply lookup_lt_Some. }
  destruct (Hdied i p Hi Hp Hdead Hdead1) as (k & Hk & [killer Hkl] & Hm).
  exists k, killer. split; [done|]. split; [done|].
  assert (Hname : member_name (players (game w'')) i = name (member p)).
  { unfold member_name. rewrite Hp'. cbn. congruence. }
  assert (Hment : member_mention (players (game w'')) i
                  = mention (member p)).
  { unfold member_mention. rewrite Hp'. cbn. congruence. }
  assert (Hrole : role_name (players (game w'')) i = class_name (cls p)).
  { unfold role_name, str. rewrite Hp'. cbn. congruence. }
  destruct (cleaned_by p) as [c|] eqn:Hc.
  - split; [done|]. split.
    { cbn [render]. unfold render_cleaned. by rewrite Hname, Hrole. }
    split.
    { intros H. apply Hchat in H as (q & Hq & Hqc).
      rewrite Hp in Hq. congruence. }
    intros k' H. apply Hin in H as [H|H]; [done|].
    apply Hunc in H as (q & Hq & Hqc). rewrite Hp in Hq. congruence.
  - destruct Hm as [Hm1 Hm2]. split; [done|]. split.
    { cbn [render]. unfold render_chat_kill. by rewrite Hment, Hrole. }
    split; [by apply Hsub|].
    destruct (same_map_lookup frozen _ _ k killer Hf Hkl)
      as (k1 & Hk1 & Hkfr).
    assert (Hk2 : players (game w2) !! k = Some k1) by (subst w2; exact Hk1).
    destruct (same_map_lookup identity_and_life _ _ k k1 Hid Hk2)
      as (k' & Hk' & Hkpi).
    apply frozen_fields in Hkfr as (Hkcls & _).
    unfold identity_and_life in Hkpi.
    cbn [render_notif]. rewrite Hrole, Hment.
    unfold role_name, str. rewrite Hk'. cbn.
    assert (Hc' : cls k' = cls killer) by congruence.
    by rewrite Hc'.
Qed.

(** ** The theorems at concrete games *)

Lemma night_kill_announcements_witness :
  let w := cleaned_morning in
  (1 < _day (game w))%Z
  /\ _day_notifications (game w) !! _day (game w) = None
  /\ resolvable w = true
  /\ dead_at w 4 = Some false /\ dead_at (pre_day w).2 4 = Some true
  /\ (cleaned_by <$> player_at w 4) = Some (Some 0)
  /\ dead_at w 2 = Some false /\ dead_at (pre_day w).2 2 = Some true
  /\ (cleaned_by <$> player_at w 2) = Some None
  /\ (killed_by <$> player_at w 2) = Some (Some 1)
  /\ sent_by pre_day w
     = [chat_kill 2; Send (ChPlayer 2) MYouAreTheGodfather;
        Send (ChPlayer 0) (MCleaned 4);
        Send ChInfo
          (MDayEmbed false 2 true
             [("Janitor", 1); ("Sheriff", 1); ("Mafia", 1); ("Citizen", 2)]
             [NKilledBy 2 1])]
  /\ render (players (game (pre_day w).2)) (MCleaned 4)
     = Some "You cleaned cat up, their role was Citizen"
  /\ render (players (game (pre_day w).2)) (MKilledDuringNight 2)
     = Some "- <@eve> (Mafia) was killed during the night!"
  /\ render_notif (players (game (pre_day w).2)) (NKilledBy 2 1)
     = "- <@eve> (Mafia) was killed by Sheriff"
  /\ exists w', pre_day w = (Ret tt, w') /\
     exists evs lines,
       sent w' = sent w ++ evs
                 ++ [Send ChInfo (MDayEmbed false (_day (game w)) true
                                    (roles_alive (game w')) lines)]
       /\ Forall public_is_kill evs.
Proof.
  cbv zeta.
  split; [vm_compute; reflexivity|].
  split; [vm_compute; reflexivity|].
  split; [vm_compute; reflexivity|].
  split; [vm_compute; reflexivity|].
  split; [vm_compute; reflexivity|].
  split; [vm_compute; reflexivity|].
  split; [vm_compute; reflexivity|].
  split; [vm_compute; reflexivity|].
  split; [vm_compute; reflexivity|].
  split; [vm_compute; reflexivity|].
  split; [vm_compute; reflexivity|].
  split; [vm_compute; reflexivity|].
  split; [vm_compute; reflexivity|].
  split; [vm_compute; reflexivity|].
  destruct (night_kill_announcements cleaned_morning)
    as (w' & Hrun & evs & lines & Hsent & Hpub & _).
  - vm_compute; reflexivity.
  - vm_compute; reflexivity.
  - vm_compute; reflexivity.
  - exists w'. split; [exact Hrun|]. exists evs, lines.
    split; [exact Hsent|exact Hpub].
Defined.

(** C5 as stated fails.  The announcement of a death names the role of
    the killer, not the killer: when the godfather gus (player 0) kills
    bob, and when the godfather fay (player 1) does, the town reads the
    same chat line and the same line in the embed.  And a cleaned death
    shows in public all the same: with cat killed and cleaned, the embed
    says that no one was killed, and its block of the roles alive counts
    one Citizen fewer than there were. *)
Lemma killer_named_by_role_only :
  let a := mafia_kill_by 0 in
  let b := mafia_kill_by 1 in
  let c := cleaned_only in
  ((killed_by <$> player_at a 5) = Some (Some 0)
   /\ member_name (players (game a)) 0 = "gus"
   /\ (killed_by <$> player_at b 5) = Some (Some 1)
   /\ member_name (players (game b)) 1 = "fay")
  /\ (sent_by pre_day a
      = [chat_kill 5;
         Send ChInfo (MDayEmbed false 2 true [("Mafia", 2); ("Citizen", 4)]
                        [NKilledBy 5 0])]
      /\ sent_by pre_day b
         = [chat_kill 5;
            Send ChInfo (MDayEmbed false 2 true
                           [("Mafia", 2); ("Citizen", 4)] [NKilledBy 5 1])])
  /\ (render (players (game (pre_day a).2)) (MKilledDuringNight 5)
      = Some "- <@bob> (Citizen) was killed during the night!"
      /\ render (players (game (pre_day b).2)) (MKilledDuringNight 5)
         = Some "- <@bob> (Citizen) was killed during the night!"
      /\ render_notif (players (game (pre_day a).2)) (NKilledBy 5 0)
         = "- <@bob> (Citizen) was killed by Mafia"
      /\ render_notif (players (game (pre_day b).2)) (NKilledBy 5 1)
         = "- <@bob> (Citizen) was killed by Mafia")
  /\ ((killed_by <$> player_at c 4) = Some (Some 2)
      /\ (cleaned_by <$> player_at c 4) = Some (Some 0)
      /\ dead_at c 4 = Some false /\ dead_at (pre_day c).2 4 = Some true
      /\ roles_alive (game c)
         = [("Janitor", 1); ("Sheriff", 1); ("Mafia", 2); ("Citizen", 3)]
      /\ sent_by pre_day c
         = [Send (ChPlayer 0) (MCleaned 4);
            Send ChInfo
              (MDayEmbed false 2 true
                 [("Janitor", 1); ("Sheriff", 1); ("Mafia", 2);
                  ("Citizen", 2)]
                 [NNoOneKilled])]
      /\ render_notif (players (game (pre_day c).2)) NNoOneKilled
         = "- No one was killed last night!").
Proof. repeat split; vm_compute; reflexivity. Qed.

(** ** C3 and C4: the successor and the dead *)

(** [pre_day] posts the embed of the day after everything the resolution
    of the night sends, and nothing after it; every godfather it
    designates is designated right after the notice of a death. *)
Lemma pre_day_order w w' :
  (1 < _day (game w))%Z -> pre_day w = (Ret tt, w') ->
  exists evs edit alive lines,
    sent w' = sent w ++ evs
              ++ [Send ChInfo (MDayEmbed edit (_day (game w)) true alive
                                 lines)]
    /\ Forall off_info evs
    /\ drawn_after_notice evs.
Proof.
  intros Hday Hrun.
  destruct (pre_day_results_last w w' Hday Hrun)
    as (evs & edit & alive & lines & Hsent & Hoff).
  exists evs, edit, alive, lines. split; [done|]. split; [done|].
  unfold pre_day in Hrun. rewrite run_bind, run_get_game in Hrun.
  cbv beta iota in Hrun. rewrite bool_decide_eq_true_2 in Hrun by done.
  rewrite !run_bind in Hrun.
  destruct (fold_M pre_day_player (roster_indices (game w)) ([], []) w)
    as [[loc|e] w1] eqn:Hloop; [|done].
  destruct (pre_day_loop_events _ _ _ _ _ Hloop) as (evs1 & Hsent1 & Hord).
  rewrite day_notification_run in Hrun. cbv beta iota zeta in Hrun.
  match type of Hrun with
  | cleanup_everyone ?x = _ =>
      destruct (cleanup_everyone_run x) as (w'' & Hclean & Hsent2 & _)
  end.
  rewrite Hclean in Hrun. injection Hrun as <-.
  rewrite Hsent2 in Hsent. cbn in Hsent. rewrite Hsent1 in Hsent.
  rewrite <- app_assoc in Hsent. apply app_inv_head in Hsent.
  apply app_inj_tail in Hsent as [-> _]. exact Hord.
Qed.

(** C3, as the code has it.  [choose_godfather] draws one of the plain
    (non-special) mafia players, each position of the candidate list being
    selected by exactly one value of the draw, flags the player drawn and
    tells it; a special-mafia role is never a candidate, and without a
    candidate the draw raises [IndexError].  When a godfather dies in
    [pre_day] the draw is made in the same round of the loop, right after
    the notice of the death (the line in the public chat, or the note to
    the cleaner) has been sent and the player marked dead; the embed of
    the day is posted after the whole loop.  When a godfather is lynched
    the draw is made before the embed that announces the lynch. *)
Theorem godfather_succession :
  (forall w,
      choose_godfather w =
      match godfather_candidates (game w) with
      | [] => (Raise IndexError, w)
      | x :: l =>
          (Ret tt,
           with_sent (Send (ChPlayer (drawn_candidate w x l))
                           MYouAreTheGodfather)
             (with_players
                (alter (set_is_godfather true) (drawn_candidate w x l))
                (after_draw w)))
      end)
  /\ (forall g n,
        n ∈ godfather_candidates g <->
        exists p, players g !! n = Some p /\ is_mafia p = true
                  /\ cls p <> Janitor /\ cls p <> Disguiser)
  /\ (forall g, NoDup (godfather_candidates g))
  /\ (forall w x l n,
        n ∈ x :: l ->
        exists r, r < length (x :: l)
                  /\ (entropy w (drawn w) = r -> drawn_candidate w x l = n))
  /\ (forall i k player loc w,
        is_godfather player = true ->
        pre_day_dies i k player loc w =
        let notice := death_notice i k player loc in
        let w1 := with_players (alter (set_dead true) i)
                    (with_sent notice.1 w) in
        match godfather_candidates (game w) with
        | [] => (Raise IndexError, w1)
        | x :: l =>
            let n := drawn_candidate w x l in
            (Ret notice.2,
             with_players (alter (set_is_godfather false) i)
               (with_sent (Send (ChPlayer n) MYouAreTheGodfather)
                  (with_players (alter (set_is_godfather true) n)
                     (after_draw w1))))
        end)
  /\ (forall w w',
        (1 < _day (game w))%Z -> pre_day w = (Ret tt, w') ->
        exists evs edit alive lines,
          sent w' = sent w ++ evs
                    ++ [Send ChInfo (MDayEmbed edit (_day (game w)) true
                                       alive lines)]
          /\ Forall off_info evs
          /\ drawn_after_notice evs)
  /\ (forall w player p x l,
        player_at w player = Some p ->
        is_mafia p = true -> is_godfather p = true ->
        godfather_candidates (game w) = x :: l ->
        let n := drawn_candidate w x l in
        let w' := (lynch player w).2 in
        (lynch player w).1 = Ret true
        /\ (exists lines,
              sent w' = sent w
                        ++ [Send (ChPlayer n) MYouAreTheGodfather;
                            Send ChInfo
                              (MDayEmbed (edits_embed (game w))
                                 (_day (game w))
                                 (bool_decide (1 < _day (game w))%Z)
                                 (roles_alive (game w')) lines)]
              /\ NLynched player ∈ lines)
        /\ (is_godfather <$> player_at w' n) = Some true).
Proof.
  split; [exact choose_godfather_run|].
  split; [exact godfather_candidates_plain|].
  split; [exact godfather_candidates_NoDup|].
  split; [exact drawn_candidate_uniform|].
  split.
  { intros i k player loc w Hg.
    rewrite pre_day_dies_run. cbv zeta. by rewrite Hg. }
  split; [exact pre_day_order|].
  exact lynch_godfather_run.
Qed.

(** C3 as stated fails.  In the game [lone_godfather_shot] the godfather
    (player 2), the only plain Mafia, is killed in the night while the
    Janitor (player 0) lives.  The pool of the specification is the
    Janitor alone; [choose_godfather] has the player that just died as
    its only candidate and designates it, and the Janitor is left out.
    And the designation comes after the death has been announced in the
    public chat, not before the public results of the cycle. *)
Lemma successor_drawn_after_the_announcement :
  let w := lone_godfather_shot in
  let w' := (pre_day w).2 in
  (godfather (game w) = Some 2
   /\ (killed_by <$> player_at w 2) = Some (Some 1)
   /\ (protected_by <$> player_at w 2) = Some None
   /\ dead_at w 2 = Some false)
  /\ (pre_day w).1 = Ret tt
  /\ dead_at w' 2 = Some true
  /\ (dead_at w' 0 = Some false /\ (cls <$> player_at w' 0) = Some Janitor)
  /\ spec_successor_pool (game w') = [0]
  /\ godfather_candidates (game w) = [2]
  /\ (is_godfather <$> player_at w' 0) = Some false
  /\ godfather (game w') = None
  /\ sent_by pre_day w
     = [Send ChChat (MKilledDuringNight 2);
        Send (ChPlayer 2) MYouAreTheGodfather;
        Send ChInfo (MDayEmbed false 2 true
                       [("Janitor", 1); ("Sheriff", 1); ("Citizen", 4)]
                       [NKilledBy 2 1])]
  /\ public ChChat = true.
Proof. repeat split; vm_compute; reflexivity. Qed.

Lemma godfather_succession_witness :
  let w := godfather_shot (fun n => n) in
  let gf := the_player w 1 in
  let d := second_day (fun n => n) in
  (* a godfather dies in the night; the draw gives the other Mafia *)
  is_godfather gf = true
  /\ godfather_candidates (game w) = [1; 2]
  /\ drawn_candidate w 1 [2] = 2
  /\ pre_day_dies 1 0 gf ([], []) w
     = (Ret ([NKilledBy 1 0], [1]),
        with_players (alter (set_is_godfather false) 1)
          (with_sent (Send (ChPlayer 2) MYouAreTheGodfather)
             (with_players (alter (set_is_godfather true) 2)
                (after_draw
                   (with_players (alter (set_dead true) 1)
                      (with_sent (chat_kill 1) w))))))
  /\ godfather (game (pre_day w).2) = Some 2
  /\ dead_at (pre_day w).2 2 = Some false
  (* the embed of the day comes last *)
  /\ (1 < _day (game w))%Z
  /\ pre_day w = (Ret tt, (pre_day w).2)
  /\ (exists evs edit alive lines,
        sent (pre_day w).2
        = sent w ++ evs
          ++ [Send ChInfo (MDayEmbed edit (_day (game w)) true alive lines)]
        /\ Forall off_info evs
        /\ drawn_after_notice evs)
  (* a godfather is lynched; the draw gives the other Mafia *)
  /\ player_at d 1 = Some (the_player d 1)
  /\ is_mafia (the_player d 1) = true
  /\ is_godfather (the_player d 1) = true
  /\ godfather_candidates (game d) = [1; 2]
  /\ drawn_candidate d 1 [2] = 2
  /\ (lynch 1 d).1 = Ret true
  /\ (is_godfather <$> player_at (lynch 1 d).2 2) = Some true
  /\ godfather (game (lynch 1 d).2) = Some 2.
Proof.
  cbv zeta.
  destruct godfather_succession as (_ & _ & _ & _ & Hdies & Hlast & Hlynch).
  set (w := godfather_shot (fun n => n)).
  set (d := second_day (fun n => n)).
  assert (Hg : is_godfather (the_player w 1) = true)
    by (vm_compute; reflexivity).
  assert (Hc : godfather_candidates (game w) = [1; 2])
    by (vm_compute; reflexivity).
  assert (Hn : drawn_candidate w 1 [2] = 2) by (vm_compute; reflexivity).
  assert (Hd : godfather_candidates (game d) = [1; 2])
    by (vm_compute; reflexivity).
  assert (Hn' : drawn_candidate d 1 [2] = 2) by (vm_compute; reflexivity).
  split; [exact Hg|]. split; [exact Hc|]. split; [exact Hn|]. split.
  { rewrite (Hdies 1 0 (the_player w 1) ([], []) w Hg).
    cbv zeta. rewrite Hc, Hn. reflexivity. }
  split; [vm_compute; reflexivity|].
  split; [vm_compute; reflexivity|].
  split; [vm_compute; reflexivity|].
  split; [vm_compute; reflexivity|].
  split.
  { apply (Hlast w (pre_day w).2); vm_compute; reflexivity. }
  split; [vm_compute; reflexivity|].
  split; [vm_compute; reflexivity|].
  split; [vm_compute; reflexivity|].
  split; [exact Hd|]. split; [exact Hn'|].
  destruct (Hlynch d 1 (the_player d 1) 1 [2])
    as (H1 & _ & H3); try (vm_compute; reflexivity).
  split; [exact H1|]. split; [by rewrite Hn' in H3|].
  vm_compute; reflexivity.
Defined.

(** C4.  In the game [godfather_shot], with a random source that returns
    0, the Sheriff has shot the godfather (player 1).  [pre_day] marks it
    dead, and [choose_godfather], which draws among all the plain mafia of
    the roster, the dead included, draws player 1 again; [pre_day] then
    clears its flag.  Afterwards a mafia player (2) is alive and no
    living player is the godfather: no win condition holds, and the night
    that follows fails on the missing godfather.  A lynched godfather can
    be drawn again in the same way ([second_day]): it keeps the flag, and
    the living mafia have no godfather. *)
Theorem dead_godfather_drawn_again :
  let w := godfather_shot (fun _ => 0) in
  let w' := (pre_day w).2 in
  let d := second_day (fun _ => 0) in
  let d' := (lynch 1 d).2 in
  (godfather (game w) = Some 1
   /\ living_godfathers (game w) = [1]
   /\ (killed_by <$> player_at w 1) = Some (Some 0)
   /\ (protected_by <$> player_at w 1) = Some None
   /\ dead_at w 1 = Some false
   /\ total_mafia (game w) = 2)
  /\ (pre_day w).1 = Ret tt
  /\ godfather_candidates (game w) = [1; 2]
  /\ sent_by pre_day w
     = [Send ChChat (MKilledDuringNight 1);
        Send (ChPlayer 1) MYouAreTheGodfather;
        Send ChInfo (MDayEmbed false 2 true
                       [("Sheriff", 1); ("Mafia", 1); ("Citizen", 4)]
                       [NKilledBy 1 0])]
  /\ (dead_at w' 1 = Some true /\ dead_at w' 2 = Some false
      /\ (is_mafia <$> player_at w' 2) = Some true
      /\ total_mafia (game w') = 1)
  /\ (godfather (game w') = None
      /\ living_godfathers (game w') = []
      /\ ~ exactly_one_godfather (game w'))
  /\ check_winner (game w') = false
  /\ (night_tasks [] w').1 = Raise AttributeError
  /\ (godfather (game d) = Some 1 /\ dead_at d 1 = Some false
      /\ (lynch 1 d).1 = Ret true
      /\ sent_by (lynch 1) d
         = [Send (ChPlayer 1) MYouAreTheGodfather;
            Send ChInfo (MDayEmbed true 2 true
                           [("Sheriff", 1); ("Mafia", 1); ("Citizen", 4)]
                           [NNoOneKilled; NLynched 1])]
      /\ total_mafia (game d') = 1
      /\ godfather (game d') = None
      /\ ~ exactly_one_godfather (game d')).
Proof.
  cbv zeta.
  assert (Hno : forall g, total_mafia g = 1 -> living_godfathers g = [] ->
                          ~ exactly_one_godfather g).
  { intros g H1 H2 H. unfold exactly_one_godfather in H.
    rewrite H1, H2 in H. specialize (H (Nat.lt_0_succ 0)). discriminate H. }
  split; [vm_compute; repeat split|].
  split; [vm_compute; reflexivity|].
  split; [vm_compute; reflexivity|].
  split; [vm_compute; reflexivity|].
  split; [vm_compute; repeat split|].
  split.
  { split; [vm_compute; reflexivity|].
    split; [vm_compute; reflexivity|].
    apply Hno; vm_compute; reflexivity. }
  split; [vm_compute; reflexivity|].
  split; [vm_compute; reflexivity|].
  split; [vm_compute; reflexivity|].
  split; [vm_compute; reflexivity|].
  split; [vm_compute; reflexivity|].
  split; [vm_compute; reflexivity|].
  split; [vm_compute; reflexivity|].
  split; [vm_compute; reflexivity|].
  apply Hno; vm_compute; reflexivity.
Qed.




Lemma disguise_seen_by_sheriff_only_witness :
  let w := disguise_night in
  let m := {| m_channel := ChMafia; author := mk_member "dan" 4;
              content := "cat" |} in
  (* the Sheriff (1) shoots the disguised mafia player 4 *)
  player_at w 1 = Some (the_player w 1)
  /\ cls (the_player w 1) = Sheriff
  /\ player_at w 4 = Some (the_player w 4)
  /\ is_citizen (the_player w 4) = false
  /\ is_citizen (apparent (game w) (the_player w 4)) = true
  /\ night_task_finish 1 [] [4] w
     = (Ret tt,
        with_sent (Send (ChPlayer 1) MThumbsUp)
          (with_players (alter (visit 1) 4)
             (with_players (alter (kill 1) 1) w)))
  (* the godfather (3) names player 4 *)
  /\ godfather (game w) = Some 3
  /\ player_at w 3 = Some (the_player w 3)
  /\ m_channel m = ChMafia
  /\ member_eqb (author m) (member (the_player w 3)) = true
  /\ get_mafia_player exact_name (game w) (content m) = Ret 4
  /\ mafia_kill_check exact_name m w
     = (Ret (negb (is_mafia (the_player w 4))), w).
Proof.
  cbv zeta. destruct disguise_seen_by_sheriff_only as (_ & Hshot & Hcheck).
  split; [vm_compute; reflexivity|].
  split; [vm_compute; reflexivity|].
  split; [vm_compute; reflexivity|].
  split; [vm_compute; reflexivity|].
  assert (Ha : is_citizen (apparent (game disguise_night)
                             (the_player disguise_night 4)) = true)
    by (vm_compute; reflexivity).
  split; [exact Ha|]. split.
  { rewrite (Hshot disguise_night 1 (the_player disguise_night 1) 4
               (the_player disguise_night 4) [])
      by (vm_compute; reflexivity).
    by rewrite Ha. }
  split; [vm_compute; reflexivity|].
  split; [vm_compute; reflexivity|].
  split; [vm_compute; reflexivity|].
  split; [vm_compute; reflexivity|].
  split; [vm_compute; reflexivity|].
  apply (Hcheck exact_name _ disguise_night 3 (the_player disguise_night 3) 4
           (the_player disguise_night 4));
    vm_compute; reflexivity.
Defined.

Lemma janitor_never_cleans_witness :
  let w := janitor_world in
  player_at w 0 = Some (the_player w 0)
  /\ cls (the_player w 0) = Janitor
  /\ (cleans (the_player w 0) <= 3)%Z
  /\ night_task_begin 0 w = (Ret None, w)
  /\ Forall never_cleaned
       (players (game (play exact_name janitor_config seven_members
                         (fun _ => 0) [janitor_cycle]).2))
  /\ Forall no_clean_message
       (sent (play exact_name janitor_config seven_members
                (fun _ => 0) [janitor_cycle]).2).
Proof.
  cbv zeta. destruct janitor_never_cleans as (Hbegin & _ & Hrun).
  split; [vm_compute; reflexivity|].
  split; [vm_compute; reflexivity|].
  split; [vm_compute; discriminate|].
  split.
  { apply (Hbegin janitor_world 0 (the_player janitor_world 0));
      [vm_compute; reflexivity|vm_compute; reflexivity
      |vm_compute; discriminate]. }
  apply (Hrun exact_name janitor_config seven_members (fun _ => 0)
           [janitor_cycle]).
Defined.

Lemma no_lynch_on_day_one_witness :
  let w := plain_world in
  let w' := (day_tasks exact_name lynch_day w).2 in
  (_day (game w) <= 1)%Z
  /\ Forall not_lynched (players (game w))
  /\ Forall not_lynched (players (game w'))
  /\ exists evs, sent w' = sent w ++ evs /\ Forall no_vote_message evs.
Proof.
  cbv zeta. destruct no_lynch_on_day_one as (Hday & _ & _).
  assert (H1 : (_day (game plain_world) <= 1)%Z)
    by (vm_compute; discriminate).
  assert (H2 : Forall not_lynched (players (game plain_world)))
    by (vm_compute; repeat constructor).
  split; [exact H1|]. split; [exact H2|].
  exact (Hday exact_name lynch_day plain_world H1 H2).
Defined.

(** * Further properties of the engine *)

(** ** What a run may change: the rules *)

Section Steady.
Context {R : Player -> Player -> Prop} {G : MafiaGame -> MafiaGame -> Prop}.
Context `{!PreOrder R} `{!PreOrder G}.

(** [G] does not look at the roster. *)
Hypothesis G_players : forall g ps, G g (set_players ps g).

Lemma evolves_refl w : evolves R G w w.
Proof. by repeat split. Qed.

Lemma evolves_trans w1 w2 w3 :
  evolves R G w1 w2 -> evolves R G w2 w3 -> evolves R G w1 w3.
Proof.
  intros (Hp & Hg & Hs & He & Hd) (Hp' & Hg' & Hs' & He' & Hd').
  repeat split.
  - by etransitivity.
  - by etransitivity.
  - by etransitivity.
  - congruence.
  - lia.
Qed.

Lemma steady_ret {A} (a : A) : steady R G (mret a).
Proof. intros w. apply evolves_refl. Qed.

Lemma steady_raise {A} e : steady R G (raise e : M A).
Proof. intros w. apply evolves_refl. Qed.

Lemma steady_lift {A} (o : outcome A) : steady R G (lift o).
Proof. intros w. apply evolves_refl. Qed.

Lemma steady_get_game : steady R G get_game.
Proof. intros w. apply evolves_refl. Qed.

Lemma steady_bind {A B} (m : M A) (f : A -> M B) :
  steady R G m -> (forall a, steady R G (f a)) -> steady R G (m ≫= f).
Proof.
  intros Hm Hf w. specialize (Hm w). unfold mbind, M_bind.
  destruct (m w) as [[a|e] w1]; cbn in *; [|done].
  eapply evolves_trans; [exact Hm|apply Hf].
Qed.

Lemma steady_get_player i : steady R G (get_player i).
Proof.
  intros w. unfold get_player, mbind, M_bind, get_game.
  destruct (players (game w) !! i); apply evolves_refl.
Qed.

Lemma steady_send c m : steady R G (send c m).
Proof.
  intros w. repeat split; cbn; try done. by apply prefix_app_r.
Qed.

Lemma steady_randbelow n : steady R G (randbelow n).
Proof. intros w. repeat split; cbn; try done. lia. Qed.

Lemma steady_choice {A} (l : list A) : steady R G (choice l).
Proof.
  destruct l as [|x l]; [apply steady_raise|].
  apply steady_bind; [apply steady_randbelow|]. intros. apply steady_ret.
Qed.

Lemma steady_update_player i f :
  (forall p, R p (f p)) -> steady R G (update_player i f).
Proof.
  intros Hf w. repeat split; cbn; try done.
  - apply Forall2_alter_r; [reflexivity|]. intros x y Hx Hy _.
    assert (x = y) as -> by congruence. apply Hf.
  - apply G_players.
Qed.

Lemma steady_when (b : bool) (m : M unit) :
  steady R G m -> steady R G (when b m).
Proof. destruct b; [done|]. intros _. apply steady_ret. Qed.

Lemma steady_confine (m : M unit) : steady R G m -> steady R G (confine m).
Proof.
  intros Hm w. specialize (Hm w). unfold confine.
  by destruct (m w) as [[a|e] w1].
Qed.

Lemma steady_attempt {A} (m : M (option A)) :
  steady R G m -> steady R G (attempt m).
Proof.
  intros Hm w. specialize (Hm w). unfold attempt.
  by destruct (m w) as [[a|e] w1].
Qed.

Lemma steady_try_except {A} (m h : M A) e :
  steady R G m -> steady R G h -> steady R G (try_except m e h).
Proof.
  intros Hm Hh w. specialize (Hm w). unfold try_except.
  destruct (m w) as [[a|e'] w1]; [done|]. case_bool_decide; [|done].
  eapply evolves_trans; [exact Hm|apply Hh].
Qed.

Lemma steady_for_each {A} (l : list A) (body : A -> M unit) :
  (forall x, steady R G (body x)) -> steady R G (for_each l body).
Proof.
  intros Hb. induction l as [|x l IH]; cbn; [apply steady_ret|].
  apply steady_bind; [apply Hb|]. intros _. apply IH.
Qed.

Lemma steady_fold_M {A S} (body : A -> S -> M S) (l : list A) (s : S) :
  (forall x s', steady R G (body x s')) -> steady R G (fold_M body l s).
Proof.
  intros Hb. revert s. induction l as [|x l IH]; intros s; cbn;
    [apply steady_ret|].
  apply steady_bind; [apply Hb|]. intros s'. apply IH.
Qed.

End Steady.

(** ** What a run may change: the procedures of the engine *)

Section SteadyEngine.
Context {R : Player -> Player -> Prop} {G : MafiaGame -> MafiaGame -> Prop}.
Context `{!PreOrder R} `{!PreOrder G}.

Hypothesis G_players : forall g ps, G g (set_players ps g).

(** [R] relates a player to any player of the same class, member, life
    and lynch flag. *)
Hypothesis R_ledger : forall p q,
  cls q = cls p -> member q = member p -> dead q = dead p ->
  lynched q = lynched p -> R p q.

Local Ltac sstep :=
  lazymatch goal with
  | |- steady _ _ (mret _) => apply steady_ret
  | |- steady _ _ (raise _) => apply steady_raise
  | |- steady _ _ (mbind _ _) => apply steady_bind; [|intros ?]
  | |- steady _ _ (when _ _) => apply steady_when
  | |- steady _ _ (confine _) => apply steady_confine
  | |- steady _ _ (update_player _ _) =>
      apply steady_update_player; [exact G_players|intros ?; by apply R_ledger]
  | |- steady _ _ (send _ _) => apply steady_send
  | |- steady _ _ (prompt _ _) => apply steady_send
  | |- steady _ _ (choice _) => apply steady_choice
  | |- steady _ _ (lift _) => apply steady_lift
  | |- steady _ _ get_game => apply steady_get_game
  | |- steady _ _ (get_player _) => apply steady_get_player
  | |- steady _ _ (if ?b then _ else _) => destruct b
  | |- steady _ _ (match ?x with _ => _ end) => destruct x
  end.

Lemma steady_choose_godfather : steady R G choose_godfather.
Proof. unfold choose_godfather. repeat sstep. Qed.

Lemma steady_startup_channel_message i :
  steady R G (startup_channel_message i).
Proof. unfold startup_channel_message. repeat sstep. Qed.

Lemma steady_start_setup : steady R G _start_setup.
Proof.
  unfold _start_setup. sstep; [sstep|]. sstep; [|apply steady_choose_godfather].
  apply steady_for_each. apply steady_startup_channel_message.
Qed.

Lemma steady_cleanup_everyone : steady R G cleanup_everyone.
Proof.
  unfold cleanup_everyone. sstep; [sstep|].
  apply steady_for_each. intros i. repeat sstep.
Qed.

Lemma steady_pre_day_survives i player killer loc :
  steady R G (pre_day_survives i player killer loc).
Proof. unfold pre_day_survives. repeat sstep. Qed.

Lemma steady_night_task_begin self : steady R G (night_task_begin self).
Proof. unfold night_task_begin. repeat sstep. Qed.

Lemma steady_PI_second self player1 rest :
  steady R G (PI_second self player1 rest).
Proof.
  induction rest as [|player2 rest IH]; cbn [PI_second].
  - repeat sstep.
  - sstep; [sstep|]. destruct (bool_decide (player2 = player1)); [|sstep].
    sstep; [sstep|apply IH].
Qed.

Lemma steady_night_task_finish self locals answers :
  steady R G (night_task_finish self locals answers).
Proof.
  unfold night_task_finish. sstep; [sstep|].
  destruct (cls a); destruct answers as [|x [|y [|z rest]]];
    try apply steady_raise; try (repeat sstep; fail);
    try (sstep; [apply steady_PI_second|]; repeat sstep; fail).
  sstep; [|sstep]. sstep; [|repeat sstep].
  apply steady_for_each. intros d. sstep.
Qed.

Lemma steady_day_task_begin self : steady R G (day_task_begin self).
Proof. unfold day_task_begin. repeat sstep. Qed.

Lemma steady_day_task_finish self locals answers :
  steady R G (day_task_finish self locals answers).
Proof. unfold day_task_finish. repeat sstep. Qed.

Lemma steady_start_tasks begin actors :
  (forall a, steady R G (begin a)) -> steady R G (start_tasks begin actors).
Proof.
  intros Hb. induction actors as [|a rest IH]; cbn; [sstep|].
  sstep; [by apply steady_attempt|]. sstep; [done|sstep].
Qed.

Lemma steady_night_eligible actors : steady R G (night_eligible actors).
Proof.
  induction actors as [|i rest IH]; cbn; [sstep|].
  sstep; [sstep|]. sstep.
  - sstep; [sstep|done].
  - sstep; [done|sstep].
Qed.

Lemma steady_mafia_check gf player : steady R G (mafia_check gf player).
Proof. unfold mafia_check. repeat sstep. Qed.

Lemma steady_run_arrivals finish gf arrivals waiting :
  (forall a locals answers, steady R G (finish a locals answers)) ->
  steady R G (run_arrivals finish gf arrivals waiting).
Proof.
  intros Hfin. revert gf waiting.
  induction arrivals as [|arr rest IH]; intros gf waiting; cbn; [sstep|].
  destruct arr as [player|a answers].
  - sstep; [sstep|]. sstep; [|apply IH]. sstep; [|apply IH].
    sstep; [|apply IH]. sstep. apply steady_mafia_check.
  - sstep; [sstep|]. sstep; [|apply IH]. sstep; [|apply IH].
    sstep; [|apply IH]. sstep. apply Hfin.
Qed.

Lemma steady_night_tasks arrivals : steady R G (night_tasks arrivals).
Proof.
  unfold night_tasks. sstep; [sstep|]. sstep; [sstep|].
  sstep; [|sstep]. sstep; [sstep|]. sstep; [sstep; sstep|].
  sstep; [apply steady_night_eligible|].
  sstep; [apply steady_start_tasks, steady_night_task_begin|].
  apply steady_run_arrivals, steady_night_task_finish.
Qed.

Context (extractBests : string -> list string -> option nat).

Lemma steady_nomination_check needed chan mafia m n :
  steady R G (nomination_check extractBests needed chan mafia m n).
Proof.
  unfold nomination_check. sstep; [sstep|]. sstep; [sstep|].
  sstep; [sstep|]. sstep; [sstep|]. sstep; [|destruct e; sstep].
  repeat sstep.
Qed.

Lemma steady_wait_for_nomination check msgs n :
  (forall m n', steady R G (check m n')) ->
  steady R G (wait_for_nomination check msgs n).
Proof.
  intros Hcheck. revert n.
  induction msgs as [|m rest IH]; intros n; cbn; [sstep|].
  sstep; [apply Hcheck|]. destruct a as [accepted n'].
  destruct accepted; [sstep|apply IH].
Qed.

Lemma steady_nominate_player msgs :
  steady R G (nominate_player extractBests msgs).
Proof.
  unfold nominate_player. sstep; [sstep|].
  sstep; [|repeat sstep].
  apply steady_wait_for_nomination. intros.
  apply steady_nomination_check.
Qed.

(** The tasks of a day, up to the count of the votes. *)
Lemma steady_day_tasks_tasks inp g :
  steady R G
    (waiting ← start_tasks day_task_begin (living g);
     run_arrivals day_task_finish None (day_arrivals inp) waiting ;;
     if bool_decide (1 < _day g)%Z
     then nominate_player extractBests (chat_log inp)
     else mret None).
Proof.
  sstep; [apply steady_start_tasks, steady_day_task_begin|].
  sstep; [apply steady_run_arrivals, steady_day_task_finish|].
  sstep; [apply steady_nominate_player|sstep].
Qed.

(** The lines of a day may grow, the day counter may advance, and a
    player may die or be lynched. *)
Hypothesis G_notify : forall g ns,
  G g (set__day_notifications
         (<[_day g := default [] (_day_notifications g !! _day g) ++ ns]>
            (_day_notifications g)) g).
Hypothesis G_next : forall g, G g (set__day (_day g + 1)%Z g).
Hypothesis R_dies : forall p, R p (set_dead true p).
Hypothesis R_lynched : forall p, R p (set_lynched true p).

Lemma steady_day_notification ns : steady R G (day_notification ns).
Proof.
  intros w. rewrite day_notification_run. cbv zeta. repeat split; cbn.
  - reflexivity.
  - apply G_notify.
  - by apply prefix_app_r.
  - lia.
Qed.

(** [lynch], once the player is marked. *)
Lemma steady_lynch_announce player :
  steady R G
    (p ← get_player player;
     proceed ← (if is_mafia p && is_godfather p
                then try_except (choose_godfather ;; mret true)
                                IndexError (mret false)
                else mret true);
     if proceed : bool
     then (day_notification [NLynched player] ;; mret true)
     else mret false).
Proof.
  sstep; [sstep|]. sstep.
  - sstep; [|sstep]. apply steady_try_except; [|sstep].
    sstep; [apply steady_choose_godfather|sstep].
  - sstep; [|sstep]. sstep; [apply steady_day_notification|sstep].
Qed.

Lemma steady_pre_day_dies i k player loc :
  steady R G (pre_day_dies i k player loc).
Proof.
  unfold pre_day_dies. sstep; [repeat sstep|].
  sstep; [apply steady_update_player; [exact G_players|done]|].
  sstep; [|sstep]. sstep. sstep; [apply steady_choose_godfather|sstep].
Qed.

Lemma steady_pre_day_player i loc : steady R G (pre_day_player i loc).
Proof.
  unfold pre_day_player. sstep; [sstep|]. sstep; [sstep|].
  sstep; [|sstep]. sstep; [sstep|]. sstep; [sstep|]. sstep; [sstep|].
  sstep; [apply steady_pre_day_survives|apply steady_pre_day_dies].
Qed.

Lemma steady_pre_day : steady R G pre_day.
Proof.
  unfold pre_day. sstep; [sstep|].
  sstep; [|apply steady_cleanup_everyone].
  sstep; [|apply steady_day_notification].
  sstep; [|apply steady_day_notification].
  apply steady_fold_M. intros. apply steady_pre_day_player.
Qed.

Lemma steady_lynch player : steady R G (lynch player).
Proof.
  unfold lynch. sstep; [apply steady_update_player; [exact G_players|done]|].
  sstep; [apply steady_update_player; [exact G_players|done]|].
  apply steady_lynch_announce.
Qed.

Lemma steady_day_tasks inp : steady R G (day_tasks extractBests inp).
Proof.
  unfold day_tasks. sstep; [sstep|].
  sstep; [apply steady_start_tasks, steady_day_task_begin|].
  sstep; [apply steady_run_arrivals, steady_day_task_finish|].
  sstep.
  { sstep; [apply steady_nominate_player|sstep]. }
  sstep; [|sstep]. sstep; [sstep|]. sstep; [|sstep].
  sstep; [apply steady_lynch|sstep].
Qed.

Lemma steady_next_day :
  steady R G (g ← get_game; put_game (set__day (_day g + 1)%Z g)).
Proof.
  intros w. split; [reflexivity|]. split; [apply G_next|].
  by repeat split.
Qed.

Lemma steady_cycle_night inp : steady R G (_cycle_night inp).
Proof.
  intros w.
  assert (Hrun : _cycle_night inp w
                 = (night_tasks (night_arrivals inp) ;;
                    g' ← get_game; mret (check_winner g'))
                     (with_game (set__day (_day (game w) + 1)%Z (game w)) w))
    by reflexivity.
  rewrite Hrun.
  eapply evolves_trans; [apply (steady_next_day w)|].
  apply steady_bind; [apply steady_night_tasks|].
  intros _. sstep; [sstep|sstep].
Qed.

Lemma steady_cycle inp : steady R G (_cycle extractBests inp).
Proof.
  unfold _cycle, _cycle_day.
  sstep; [apply steady_pre_day|]. sstep; [sstep|]. sstep; [sstep|].
  sstep; [apply steady_day_tasks|]. sstep; [sstep|]. sstep; [sstep|].
  apply steady_cycle_night.
Qed.

Lemma steady_cycles inps : steady R G (cycles extractBests inps).
Proof.
  induction inps as [|inp rest IH]; cbn; [sstep|].
  sstep; [apply steady_cycle|]. destruct a; [sstep|apply IH].
Qed.

Lemma steady_start inps : steady R G (_start extractBests inps).
Proof.
  unfold _start. sstep; [apply steady_start_setup|apply steady_cycles].
Qed.

End SteadyEngine.

(** ** The relations a run moves along *)

Global Instance same_standing_preorder : PreOrder same_standing.
Proof.
  split.
  - by intros p.
  - intros p q r (?&?&?&?) (?&?&?&?). repeat split; congruence.
Qed.

Global Instance no_way_back_preorder : PreOrder no_way_back.
Proof.
  split.
  - by intros p.
  - intros p q r (?&?&?&?) (?&?&?&?). repeat split; try congruence; auto.
Qed.

Global Instance same_calendar_preorder : PreOrder same_calendar.
Proof.
  split.
  - by intros g.
  - intros g h k (?&?&?) (?&?&?). repeat split; congruence.
Qed.

Global Instance calendar_advances_preorder : PreOrder calendar_advances.
Proof.
  split.
  - by intros g.
  - intros g h k (?&?&Hn) (?&?&Hn'). repeat split; [congruence|lia|].
    intros d. etransitivity; [apply Hn|apply Hn'].
Qed.

Lemma same_standing_map ps ps' :
  Forall2 same_standing ps ps' <-> map standing ps' = map standing ps.
Proof.
  split.
  - induction 1 as [|p p' ps ps' (?&?&?&?) _ IH]; [done|].
    cbn. rewrite IH. unfold standing. congruence.
  - revert ps'. induction ps as [|p ps IH]; intros [|p' ps']; try done.
    cbn. intros [= Hc Hm Hd Hl Hrest]. constructor; [done|by apply IH].
Qed.

Lemma no_way_back_calendar g : calendar_advances g (set__day (_day g + 1)%Z g).
Proof. repeat split; cbn; [lia|done]. Qed.

Lemma calendar_advances_notify g ns :
  calendar_advances g
    (set__day_notifications
       (<[_day g := default [] (_day_notifications g !! _day g) ++ ns]>
          (_day_notifications g)) g).
Proof.
  repeat split; cbn; [lia|]. intros d.
  destruct (decide (d = _day g)) as [->|Hd].
  - rewrite lookup_insert_eq. cbn. by apply prefix_app_r.
  - by rewrite lookup_insert_ne.
Qed.

Lemma same_calendar_players g ps : same_calendar g (set_players ps g).
Proof. done. Qed.

Lemma calendar_advances_players g ps : calendar_advances g (set_players ps g).
Proof. done. Qed.

Lemma same_standing_ledger p q :
  cls q = cls p -> member q = member p -> dead q = dead p ->
  lynched q = lynched p -> same_standing p q.
Proof. done. Qed.

Lemma no_way_back_ledger p q :
  cls q = cls p -> member q = member p -> dead q = dead p ->
  lynched q = lynched p -> no_way_back p q.
Proof. intros ? ? Hd Hl. repeat split; congruence. Qed.

(** ** Nights *)

(** X1.  Whatever arrives during a night, [night_tasks] changes no
    player's class, member, life or lynch flag, and neither the phase
    flag, the day counter nor the lines collected for any day; what it
    sends is added to what was sent.  The kills of a night are entries of
    the ledger: they take effect in [pre_day]. *)
Theorem night_tasks_kills_nobody arrivals w :
  let w' := (night_tasks arrivals w).2 in
  map standing (players (game w')) = map standing (players (game w))
  /\ is_day (game w') = is_day (game w)
  /\ _day (game w') = _day (game w)
  /\ _day_notifications (game w') = _day_notifications (game w)
  /\ sent w `prefix_of` sent w'.
Proof.
  destruct (steady_night_tasks (R:=same_standing) (G:=same_calendar)
              same_calendar_players same_standing_ledger arrivals w)
    as (Hp & (Hd & Hc & Hn) & Hs & _).
  by apply same_standing_map in Hp.
Qed.

(** ** Whole runs *)

Lemma Forall2_lookup_no_way_back ps ps' i p :
  Forall2 no_way_back ps ps' -> ps !! i = Some p ->
  exists p', ps' !! i = Some p'
             /\ cls p' = cls p /\ member p' = member p
             /\ (dead p = true -> dead p' = true)
             /\ (lynched p = true -> lynched p' = true).
Proof.
  intros HF Hp. destruct (Forall2_lookup_l _ _ _ _ _ HF Hp) as (p' & Hp' & H).
  exists p'. by split.
Qed.

(** X2.  In a game run from any world, whatever the inputs: the roster
    keeps its length, every player keeps its class and its member, a dead
    player stays dead and a lynched player stays lynched; the day counter
    never goes back, no line collected for a day is dropped, and no
    message sent is taken back. *)
Theorem start_no_way_back extractBests inps w :
  let w' := (_start extractBests inps w).2 in
  length (players (game w')) = length (players (game w))
  /\ (forall i p, players (game w) !! i = Some p ->
        exists p', players (game w') !! i = Some p'
                   /\ cls p' = cls p /\ member p' = member p
                   /\ (dead p = true -> dead p' = true)
                   /\ (lynched p = true -> lynched p' = true))
  /\ (_day (game w) <= _day (game w'))%Z
  /\ (forall d, default [] (_day_notifications (game w) !! d)
                `prefix_of` default [] (_day_notifications (game w') !! d))
  /\ sent w `prefix_of` sent w'.
Proof.
  destruct (steady_start (R:=no_way_back) (G:=calendar_advances)
              calendar_advances_players no_way_back_ledger extractBests
              calendar_advances_notify no_way_back_calendar
              (fun p => ltac:(by repeat split))
              (fun p => ltac:(by repeat split)) inps w)
    as (Hp & (Hd & Hc & Hn) & Hs & _).
  split; [symmetry; by eapply Forall2_length|].
  split; [intros i p; by apply Forall2_lookup_no_way_back|]. done.
Qed.

(** X3.  No procedure of the engine writes the phase flag: [pre_day],
    [day_tasks], [night_tasks] and a whole cycle leave [is_day] as they
    find it, so that every game played has it at its initial [True], and
    [Mafia.win_condition] is only ever evaluated in its day form. *)
Theorem is_day_never_written :
  (forall w, is_day (game (pre_day w).2) = is_day (game w))
  /\ (forall extractBests inp w,
        is_day (game (day_tasks extractBests inp w).2) = is_day (game w))
  /\ (forall arrivals w,
        is_day (game (night_tasks arrivals w).2) = is_day (game w))
  /\ (forall extractBests inp w,
        is_day (game (_cycle extractBests inp w).2) = is_day (game w))
  /\ (forall extractBests config members rand inps,
        let g := game (play extractBests config members rand inps).2 in
        is_day g = true
        /\ Mafia_win_condition g
           = negb (any_can_kill_mafia_at_night g)
             && Qge_bool (inject_Z (Z.of_nat (total_mafia g)))
                         (half (total_alive g))).
Proof.
  assert (Hdies : forall p, no_way_back p (set_dead true p))
    by (by repeat split).
  assert (Hlyn : forall p, no_way_back p (set_lynched true p))
    by (by repeat split).
  split; [|split; [|split; [|split]]].
  - intros w.
    by destruct (steady_pre_day (R:=no_way_back) (G:=calendar_advances)
                   calendar_advances_players no_way_back_ledger
                   calendar_advances_notify Hdies w)
      as (_ & (? & _) & _).
  - intros extractBests inp w.
    by destruct (steady_day_tasks (R:=no_way_back) (G:=calendar_advances)
                   calendar_advances_players no_way_back_ledger extractBests
                   calendar_advances_notify Hdies Hlyn inp w)
      as (_ & (? & _) & _).
  - intros arrivals w.
    by destruct (steady_night_tasks (R:=no_way_back) (G:=calendar_advances)
                   calendar_advances_players no_way_back_ledger arrivals w)
      as (_ & (? & _) & _).
  - intros extractBests inp w.
    by destruct (steady_cycle (R:=no_way_back) (G:=calendar_advances)
                   calendar_advances_players no_way_back_ledger extractBests
                   calendar_advances_notify no_way_back_calendar
                   Hdies Hlyn inp w)
      as (_ & (? & _) & _).
  - intros extractBests config members rand inps g.
    assert (Hday : is_day g = true).
    { unfold g, play. destruct (pick_players config members) as [ps|e];
        [|done].
      by destruct (steady_start (R:=no_way_back) (G:=calendar_advances)
                     calendar_advances_players no_way_back_ledger
                     extractBests calendar_advances_notify
                     no_way_back_calendar Hdies Hlyn inps
                     (new_world ps rand))
        as (_ & (? & _) & _). }
    split; [done|]. unfold Mafia_win_condition. rewrite Hday.
    by destruct (any_can_kill_mafia_at_night g).
Qed.

(** ** C2: the rule of the night *)

(** C2.  [Mafia.win_condition] has the two rules, and chooses between
    them by [game.is_day]: with the flag set, no living player with
    [can_kill_mafia_at_night] and the living mafia at least half of the
    living ([total_alive <= 2 * total_mafia]); with the flag cleared, the
    living mafia strictly more than half ([total_alive < 2 * total_mafia]).
    But [is_day] is assigned in [__init__] only: a night leaves it as it
    is, so does a cycle, and every game played ends with the flag still
    set.  The check that follows [night_tasks] therefore applies the rule
    of the day.  In [majority_night], four Mafia, a Sheriff and two
    Citizens are alive when that check is made, and in
    [outnumbered_night] three Mafia, a Sheriff and one Citizen: the mafia
    are more than half of the living, the rule of the night would give
    them the game, and [win_condition] answers [False] because the
    Sheriff lives; nobody has won. *)
Theorem night_rule_never_applied :
  (forall g,
      Mafia_win_condition g =
      if is_day g
      then negb (any_can_kill_mafia_at_night g)
           && bool_decide (total_alive g <= 2 * total_mafia g)
      else bool_decide (total_alive g < 2 * total_mafia g))
  /\ (forall arrivals w,
        is_day (game (night_tasks arrivals w).2) = is_day (game w))
  /\ (forall extractBests inp w,
        is_day (game (_cycle extractBests inp w).2) = is_day (game w))
  /\ (forall extractBests config members rand inps,
        is_day (game (play extractBests config members rand inps).2) = true)
  /\ (let g := game majority_night in
      is_day g = true /\ _day g = 2%Z
      /\ (cls <$> players g) = [Sheriff; Mafia; Mafia; Mafia; Mafia;
                                Citizen; Citizen]
      /\ (dead <$> players g) = [false; false; false; false; false;
                                 false; false]
      /\ total_mafia g = 4 /\ total_alive g = 7
      /\ any_can_kill_mafia_at_night g = true
      /\ Mafia_win_condition (by_night g) = true
      /\ Mafia_win_condition g = false
      /\ check_winner g = false)
  /\ (let g := game outnumbered_night in
      is_day g = true /\ _day g = 3%Z
      /\ (cls <$> players g) = [Sheriff; Mafia; Mafia; Mafia;
                                Citizen; Citizen; Citizen]
      /\ (dead <$> players g) = [false; false; false; false; false;
                                 true; true]
      /\ total_mafia g = 3 /\ total_alive g = 5
      /\ any_can_kill_mafia_at_night g = true
      /\ Mafia_win_condition (by_night g) = true
      /\ Mafia_win_condition g = false
      /\ check_winner g = false).
Proof.
  assert (Hdies : forall p, no_way_back p (set_dead true p))
    by (by repeat split).
  assert (Hlyn : forall p, no_way_back p (set_lynched true p))
    by (by repeat split).
  split; [exact Mafia_win_condition_counts|].
  split.
  { intros arrivals w.
    by destruct (steady_night_tasks (R:=no_way_back) (G:=calendar_advances)
                   calendar_advances_players no_way_back_ledger arrivals w)
      as (_ & (? & _) & _). }
  split.
  { intros extractBests inp w.
    by destruct (steady_cycle (R:=no_way_back) (G:=calendar_advances)
                   calendar_advances_players no_way_back_ledger extractBests
                   calendar_advances_notify no_way_back_calendar
                   Hdies Hlyn inp w)
      as (_ & (? & _) & _). }
  split.
  { intros extractBests config members rand inps.
    unfold play. destruct (pick_players config members) as [ps|e];
      [|done].
    by destruct (steady_start (R:=no_way_back) (G:=calendar_advances)
                   calendar_advances_players no_way_back_ledger
                   extractBests calendar_advances_notify
                   no_way_back_calendar Hdies Hlyn inps
                   (new_world ps rand))
      as (_ & (? & _) & _). }
  split; vm_compute; repeat split.
Qed.

(** ** Days *)

Lemma count_votes_standing g g' users :
  map standing (players g') = map standing (players g) ->
  count_votes g' users = count_votes g users.
Proof.
  intros Hs. unfold count_votes. f_equal. apply list_filter_iff.
  intros user.
  assert (Hex : forall ps : list Player,
            existsb (fun p => member_eqb (member p) user && negb (dead p)) ps
            = existsb (fun s : PlayerClass * Member * bool * bool =>
                         member_eqb s.1.1.2 user && negb s.1.2)
                      (map standing ps)).
  { induction ps as [|p ps IH]; [done|]. cbn. by rewrite IH. }
  by rewrite !Hex, Hs.
Qed.

Lemma map_standing_hang t (ps ps' : list Player) :
  map standing ps' = map standing ps ->
  map standing (alter hang t ps') = map standing (alter hang t ps).
Proof.
  intros Hs. apply list_eq. intros j.
  rewrite !list_lookup_fmap, !list_lookup_alter.
  assert (Hj : map standing ps' !! j = map standing ps !! j)
    by (by rewrite Hs).
  rewrite !list_lookup_fmap in Hj.
  case_decide as Hij; [subst j|done].
  destruct (ps' !! t) as [p'|], (ps !! t) as [p|]; cbn in *; try done.
  injection Hj as Hc Hm _ _. unfold standing, hang. cbn. congruence.
Qed.

Lemma bind_run_ret {A B} (m : M A) (f : A -> M B) w a w1 :
  m w = (Ret a, w1) -> (m ≫= f) w = f a w1.
Proof. intros H. by rewrite run_bind, H. Qed.

Lemma bind_run_raise {A B} (m : M A) (f : A -> M B) w e w1 :
  m w = (Raise e, w1) -> (m ≫= f) w = (Raise e, w1).
Proof. intros H. by rewrite run_bind, H. Qed.

Lemma nominate_player_opens extractBests msgs w t w' :
  nominate_player extractBests msgs w = (Ret (Some t), w') ->
  exists evs, sent w' = sent w ++ evs
              /\ Send ChChat (MNominatedForHanging t) ∈ evs.
Proof.
  unfold nominate_player. rewrite run_bind, run_get_game. cbv beta iota.
  rewrite run_bind.
  pose proof (steady_wait_for_nomination (R:=same_standing)
                (G:=same_calendar)
                (nomination_check extractBests
                   (noms_needed (game w) false) ChChat false)
                msgs no_nominations
                (steady_nomination_check extractBests _ _ _) w) as E.
  destruct (wait_for_nomination _ msgs no_nominations w)
    as [[r|e] w1]; [|done].
  destruct E as (_ & _ & [evs Hs] & _). cbn in Hs.
  destruct (r ≫= nomination) as [nominee|]; [|done].
  rewrite run_bind, run_send. cbv beta iota. rewrite run_ret.
  intros [= -> <-]. exists (evs ++ [Send ChChat (MNominatedForHanging t)]).
  cbn. rewrite Hs, <- app_assoc. split; [done|].
  apply elem_of_app. right. left.
Qed.

(** X4.  A day ends in one of two ways.  Either nobody's standing (class,
    member, life, lynch flag) has changed and no line was added to any
    day; or exactly one player was hanged: the day counter is above 1, a
    vote on that player was opened in this day, the player was alive when
    the day began, and among the living the yes votes outnumber the no
    votes.  A tied or lost vote hangs nobody. *)
Theorem day_tasks_lynches_by_majority extractBests inp w :
  let w' := (day_tasks extractBests inp w).2 in
  (map standing (players (game w')) = map standing (players (game w))
   /\ _day_notifications (game w') = _day_notifications (game w))
  \/ exists t p,
       (1 < _day (game w))%Z
       /\ count_votes (game w) (no_users inp)
          < count_votes (game w) (yes_users inp)
       /\ players (game w) !! t = Some p /\ dead p = false
       /\ (exists evs, sent w' = sent w ++ evs
                       /\ Send ChChat (MNominatedForHanging t) ∈ evs)
       /\ map standing (players (game w'))
          = map standing (alter hang t (players (game w))).
Proof.
  cbv zeta. unfold day_tasks. rewrite run_bind, run_get_game.
  cbv beta iota.
  (* the day tasks *)
  pose proof (steady_start_tasks (R:=same_standing) (G:=same_calendar)
                day_task_begin (living (game w))
                steady_day_task_begin w) as E1.
  rewrite run_bind.
  destruct (start_tasks day_task_begin (living (game w)) w)
    as [[waiting|e] w1].
  2:{ left. destruct E1 as (Hp & (_ & _ & Hn) & _).
      by apply same_standing_map in Hp. }
  pose proof (steady_run_arrivals (R:=same_standing) (G:=same_calendar)
                same_calendar_players same_standing_ledger
                day_task_finish None (day_arrivals inp) waiting
                (steady_day_task_finish same_calendar_players
                   same_standing_ledger) w1) as E2.
  rewrite run_bind.
  destruct (run_arrivals day_task_finish None (day_arrivals inp) waiting w1)
    as [[[]|e] w2].
  2:{ left. destruct (evolves_trans _ _ _ E1 E2) as (Hp & (_ & _ & Hn) & _).
      by apply same_standing_map in Hp. }
  pose proof (evolves_trans _ _ _ E1 E2) as E12. cbn in E12.
  clear E1 E2. rewrite run_bind.
  (* the nomination *)
  case_bool_decide as Hday.
  2:{ rewrite run_ret. left. destruct E12 as (Hp & (_ & _ & Hn) & _).
      by apply same_standing_map in Hp. }
  pose proof (steady_nominate_player (R:=same_standing) (G:=same_calendar)
                extractBests (chat_log inp) w2) as E3.
  pose proof (nominate_player_run extractBests (chat_log inp) w2) as Hnom.
  pose proof (nominate_player_opens extractBests (chat_log inp) w2) as Hopen.
  destruct (nominate_player extractBests (chat_log inp) w2)
    as [[[t|]|e] w3]; cbn in Hnom; [|left..].
  2,3: destruct (evolves_trans _ _ _ E12 E3) as (Hp & (_ & _ & Hn) & _);
       by apply same_standing_map in Hp.
  pose proof (evolves_trans _ _ _ E12 E3) as E. cbn in E.
  destruct E as (Hp & (_ & _ & Hn) & _ & _).
  apply same_standing_map in Hp.
  rewrite run_bind, run_get_game. cbv beta iota.
  rewrite !(count_votes_standing (game w) (game w3)) by done.
  destruct (Nat.ltb_spec (count_votes (game w) (no_users inp))
                         (count_votes (game w) (yes_users inp)))
    as [Hvotes|Hvotes]; [|rewrite run_ret; by left].
  right.
  (* the nominee was alive *)
  destruct Hnom as (pre & m & post & _ & Hm & _).
  apply counted_nominee_Some in Hm as (_ & _ & _ & _ & p2 & Hp2 & Hd2).
  destruct E12 as (Hp12 & _ & [evs12 Hs12] & _).
  destruct (Forall2_lookup_r _ _ _ _ _ Hp12 Hp2) as (p & Hpw & _ & _ & Hd & _).
  exists t, p. split; [done|]. split; [done|]. split; [done|].
  split; [congruence|].
  (* the hanging *)
  destruct (Hopen t w3 eq_refl) as (evs & Hs3 & Hin).
  destruct E3 as (_ & _ & [evs3 _] & _).
  unfold lynch. rewrite run_bind, run_bind, run_update_player.
  cbv beta iota. rewrite run_bind, run_update_player. cbv beta iota.
  set (w4 := with_players (alter (set_lynched true) t)
               (with_players (alter (set_dead true) t) w3)).
  pose proof (steady_lynch_announce (R:=same_standing)
                (G:=calendar_advances) calendar_advances_players
                same_standing_ledger calendar_advances_notify t w4) as E4.
  match type of E4 with
  | evolves _ _ _ (?m _).2 => destruct (m w4) as [[b|e] w5]
  end; cbn in E4; destruct E4 as (Hp4 & _ & [evs4 Hs4] & _);
    apply same_standing_map in Hp4.
  - rewrite run_ret. cbn. split.
    + exists (evs12 ++ evs ++ evs4). rewrite Hs4. cbn.
      rewrite Hs3, Hs12, <- !app_assoc.
      split; [done|]. rewrite !elem_of_app. auto.
    + rewrite Hp4. cbn. rewrite list_alter_alter_eq.
      by apply map_standing_hang.
  - cbn. split.
    + exists (evs12 ++ evs ++ evs4). rewrite Hs4. cbn.
      rewrite Hs3, Hs12, <- !app_assoc.
      split; [done|]. rewrite !elem_of_app. auto.
    + rewrite Hp4. cbn. rewrite list_alter_alter_eq.
      by apply map_standing_hang.
Qed.

(** ** The roster that [pick_players] builds *)

Lemma reverse_cons_inv {A} (l r : list A) (x : A) :
  reverse l = x :: r -> l = reverse r ++ [x].
Proof.
  intros H. rewrite <- (reverse_involutive l), H. apply reverse_cons.
Qed.

Lemma pop_roles_run roles : forall members,
  pop_roles roles members =
  if decide (length roles <= length members)
  then Ret (zip_with new_player roles (reverse members),
            take (length members - length roles) members)
  else Raise IndexError.
Proof.
  induction roles as [|role roles IH]; intros members; cbn [pop_roles].
  - rewrite decide_True by (cbn; lia). cbn.
    by rewrite Nat.sub_0_r, firstn_all.
  - destruct (reverse members) as [|m r] eqn:Hrev.
    + apply (f_equal reverse) in Hrev. rewrite reverse_involutive in Hrev.
      subst members. by rewrite decide_False by (cbn; lia).
    + apply reverse_cons_inv in Hrev. subst members.
      rewrite IH, length_reverse, length_app, length_reverse. cbn.
      case_decide; [rewrite decide_True by lia|by rewrite decide_False by lia].
      rewrite reverse_involutive. do 2 f_equal.
      rewrite take_app_le by (rewrite length_reverse; lia).
      f_equal. lia.
Qed.

Lemma pop_each_run {A} (mk : Member -> A) n : forall members,
  pop_each n members mk =
  if decide (n <= length members)
  then Ret (map mk (take n (reverse members)),
            take (length members - n) members)
  else Raise IndexError.
Proof.
  induction n as [|n IH]; intros members; cbn [pop_each].
  - rewrite decide_True by lia. cbn. by rewrite Nat.sub_0_r, firstn_all.
  - destruct (reverse members) as [|m r] eqn:Hrev.
    + apply (f_equal reverse) in Hrev. rewrite reverse_involutive in Hrev.
      subst members. by rewrite decide_False by (cbn; lia).
    + apply reverse_cons_inv in Hrev. subst members.
      rewrite IH, length_reverse, length_app, length_reverse. cbn.
      case_decide; [rewrite decide_True by lia|by rewrite decide_False by lia].
      rewrite reverse_involutive. do 2 f_equal.
      rewrite take_app_le by (rewrite length_reverse; lia).
      f_equal. lia.
Qed.

Lemma count_fresh_mafia roles : forall ms : list Member,
  length roles <= length ms ->
  count_players (fun p => is_mafia p && negb (dead p))
                (zip_with new_player roles ms)
  = length (filter (fun c => class_is_mafia c = true) roles).
Proof.
  unfold count_players.
  induction roles as [|role roles IH]; intros [|m ms] Hlen;
    cbn [length] in Hlen; [done|done|lia|].
  specialize (IH ms ltac:(lia)). cbn [zip_with]. rewrite !filter_cons.
  assert (Hm : is_mafia (new_player role m)
               && negb (dead (new_player role m)) = class_is_mafia role)
    by (unfold is_mafia; cbn; apply andb_true_r).
  rewrite Hm. case_decide; cbn; by rewrite IH.
Qed.

(** [pick_players] in closed form. *)
Lemma pick_players_run config members :
  let k := length (special_roles config) in
  let n := plain_mafia_added config in
  pick_players config members =
  if decide (k + n <= length members)
  then Ret (zip_with new_player
              (special_roles config ++ replicate n Mafia
               ++ replicate (length members - k - n) Citizen)
              (reverse members))
  else Raise IndexError.
Proof.
  cbv zeta. unfold pick_players. rewrite pop_roles_run.
  set (roles := special_roles config).
  set (L := length members). set (rm := reverse members).
  destruct (decide (length roles <= L)) as [Hk|Hk];
    [|by rewrite decide_False by lia].
  rewrite count_fresh_mafia by (unfold rm; rewrite length_reverse; done).
  set (n := plain_mafia_added config).
  change (Z.to_nat (starting_mafia config
                    - Z.of_nat (length (filter _ roles)))) with n.
  rewrite pop_each_run, length_take. fold L.
  rewrite Nat.min_l by lia.
  destruct (decide (n <= L - length roles)) as [Hn|Hn];
    [rewrite decide_True by lia|by rewrite decide_False by lia].
  f_equal.
  rewrite take_take, Nat.min_l by lia.
  rewrite !reverse_take. fold L rm.
  replace (L - (L - length roles)) with (length roles) by lia.
  replace (L - (L - length roles - n)) with (length roles + n) by lia.
  rewrite zip_with_app_l, zip_with_take_r, zip_with_app_l.
  rewrite length_replicate, drop_drop.
  rewrite !zip_with_replicate_l; [done| |].
  - rewrite length_drop. unfold rm. rewrite length_reverse. fold L. lia.
  - rewrite length_take. lia.
Qed.

(** X5.  [pick_players] in closed form.  With [k] special roles and [n]
    plain mafia to add, it raises [IndexError] (a [pop] from the empty
    list) when there are fewer than [k + n] members; otherwise every
    member gets exactly one fresh player, in the reverse of the order of
    [_members]: the special roles in the order of the configuration, then
    [n] plain Mafia, then Citizens for all who remain. *)
Theorem pick_players_roster config members :
  let k := length (special_roles config) in
  let n := plain_mafia_added config in
  pick_players config members =
  if decide (k + n <= length members)
  then Ret (zip_with new_player
              (special_roles config ++ replicate n Mafia
               ++ replicate (length members - k - n) Citizen)
              (reverse members))
  else Raise IndexError.
Proof. apply pick_players_run. Qed.

Lemma count_fresh_alive roles : forall ms : list Member,
  count_players (fun p => negb (dead p)) (zip_with new_player roles ms)
  = length (zip_with new_player roles ms).
Proof.
  unfold count_players.
  induction roles as [|role roles IH]; intros [|m ms]; try done.
  cbn [zip_with]. rewrite filter_cons_True by done. cbn. by rewrite IH.
Qed.

Lemma filter_mafia_replicate n c :
  length (filter (fun c => class_is_mafia c = true) (replicate n c))
  = if class_is_mafia c then n else 0.
Proof.
  induction n as [|n IH]; cbn [replicate]; [by destruct (class_is_mafia c)|].
  rewrite filter_cons. case_decide as Hc.
  - cbn. rewrite IH, Hc. done.
  - rewrite IH. by destruct (class_is_mafia c).
Qed.

(** X6.  The roster of a game that [pick_players] could build: every
    member has exactly one player, in the reverse of the order of
    [_members]; all are alive; and the mafia are as many as configured,
    or as many as the special mafia roles when those are more. *)
Theorem pick_players_counts config members ps :
  pick_players config members = Ret ps ->
  map member ps = reverse members
  /\ total_alive (new_game ps) = length members
  /\ Z.of_nat (total_mafia (new_game ps))
     = Z.max (starting_mafia config) (Z.of_nat (special_mafia_count config)).
Proof.
  rewrite pick_players_run. cbv zeta.
  set (n := plain_mafia_added config).
  set (k := length (special_roles config)).
  case_decide as Hlen; [|done]. intros [= <-].
  set (classes := special_roles config ++ replicate n Mafia
                  ++ replicate (length members - k - n) Citizen).
  assert (Hc : length classes = length (reverse members)).
  { unfold classes. rewrite !length_app, !length_replicate, length_reverse.
    fold k. lia. }
  split; [|split].
  - apply fmap_zip_with_r; [done|lia].
  - unfold total_alive. cbn [players new_game].
    rewrite count_fresh_alive, length_zip_with_l_eq by done.
    by rewrite Hc, length_reverse.
  - unfold total_mafia. cbn [players new_game].
    rewrite count_fresh_mafia by lia. unfold classes.
    rewrite !filter_app, !length_app, !filter_mafia_replicate. cbn.
    fold (special_mafia_count config). unfold n, plain_mafia_added. lia.
Qed.

Lemma pick_players_counts_witness :
  pick_players janitor_config seven_members
  = Ret (roster_of janitor_config seven_members)
  /\ map member (roster_of janitor_config seven_members)
     = reverse seven_members
  /\ total_alive (new_game (roster_of janitor_config seven_members)) = 7
  /\ Z.of_nat (total_mafia (new_game (roster_of janitor_config
                                        seven_members)))
     = Z.max 2 1.
Proof.
  split; [vm_compute; reflexivity|].
  apply (pick_players_counts janitor_config seven_members). 
  vm_compute; reflexivity.
Defined.

(** ** A game that cannot start *)

Lemma no_plain_mafia_no_candidate g :
  Mafia ∉ map cls (players g) -> godfather_candidates g = [].
Proof.
  intros Hno. apply elem_of_nil_inv. intros n Hn.
  apply godfather_candidates_plain in Hn as (p & Hp & Hm & Hj & Hd).
  apply Hno. apply list_elem_of_fmap. exists p.
  split; [|by eapply list_elem_of_lookup_2].
  unfold is_mafia in Hm. by destruct (cls p).
Qed.

Lemma startup_channel_message_run i w :
  exists r w',
    startup_channel_message i w = (r, w')
    /\ (r = Ret tt \/ r = Raise IndexError)
    /\ sent w' = sent w
    /\ map cls (players (game w')) = map cls (players (game w)).
Proof.
  unfold startup_channel_message. rewrite run_bind, run_get_player.
  destruct (players (game w) !! i) as [me|]; [|by eauto 10].
  cbv beta iota.
  destruct (cls me); rewrite ?run_ret; try (by eauto 10).
  rewrite run_bind, run_get_game. cbv beta iota. rewrite run_bind.
  destruct ((filter _ (indexed (players (game w)))).*1) as [|x l];
    [by eauto 10|].
  cbn. do 2 eexists. split; [done|]. split; [by left|]. split; [done|].
  cbn. by apply map_cls_alter.
Qed.

Lemma startup_loop_run l : forall w,
  exists r w',
    for_each l startup_channel_message w = (r, w')
    /\ (r = Ret tt \/ r = Raise IndexError)
    /\ sent w' = sent w
    /\ map cls (players (game w')) = map cls (players (game w)).
Proof.
  induction l as [|i l IH]; intros w; cbn [for_each]; [by eauto 10|].
  rewrite run_bind.
  destruct (startup_channel_message_run i w)
    as (r & w1 & -> & [-> | ->] & Hs & Hc); [|by eauto 10].
  destruct (IH w1) as (r & w' & -> & Hr & Hs' & Hc').
  exists r, w'. split; [done|]. split; [done|]. split; congruence.
Qed.

(** X7.  A configuration whose special roles already hold all the mafia
    it asks for (and more) gets no plain Mafia, and no game of it ever
    starts: with any members, random draws and inputs, [play] raises
    [IndexError] before anything is posted in the info or the chat
    channel -- in [pick_players] when the members are too few, else in
    the draw of an Executioner's target or, at the latest, in
    [choose_godfather], which finds no candidate. *)
Theorem play_without_plain_mafia extractBests config members rand inps :
  Mafia ∉ special_roles config ->
  (starting_mafia config <= Z.of_nat (special_mafia_count config))%Z ->
  let r := play extractBests config members rand inps in
  r.1 = Raise IndexError
  /\ Forall (fun e => public (channel e) = false) (sent r.2).
Proof.
  intros Hno Hfew. cbv zeta. unfold play.
  rewrite pick_players_run. cbv zeta.
  assert (Hn : plain_mafia_added config = 0)
    by (unfold plain_mafia_added; lia).
  rewrite Hn in *. case_decide as Hlen; [|by split].
  cbn [replicate app] in *.
  set (classes := special_roles config ++ replicate _ Citizen) in *.
  set (ps := zip_with new_player classes (reverse members)) in *.
  assert (Hcls : map cls ps = classes).
  { apply fmap_zip_with_l; [done|]. unfold classes.
    rewrite length_app, length_replicate, length_reverse. lia. }
  unfold _start, _start_setup.
  rewrite run_bind, run_bind, run_get_game. cbv beta iota.
  rewrite run_bind.
  destruct (startup_loop_run (roster_indices (game (new_world ps rand)))
              (new_world ps rand))
    as (r & w1 & -> & [-> | ->] & Hs & Hc); [|cbn; by rewrite Hs].
  rewrite choose_godfather_run, no_plain_mafia_no_candidate;
    [cbn; by rewrite Hs|].
  rewrite Hc. cbn [game new_world players new_game]. rewrite Hcls.
  unfold classes. rewrite elem_of_app. intros [H|H]; [done|].
  by apply elem_of_replicate in H as [? _].
Qed.

Lemma play_without_plain_mafia_witness :
  let config := {| starting_mafia := 1; special_roles := [Janitor] |} in
  (Mafia ∉ special_roles config)
  /\ (starting_mafia config <= Z.of_nat (special_mafia_count config))%Z
  /\ (play exact_name config seven_members (fun _ => 0) [quiet_cycle]).1
     = Raise IndexError
  /\ Forall (fun e => public (channel e) = false)
            (sent (play exact_name config seven_members (fun _ => 0)
                     [quiet_cycle]).2).
Proof.
  cbv zeta.
  assert (H1 : Mafia ∉ [Janitor])
    by (apply (bool_decide_unpack (Mafia ∉ [Janitor])); vm_compute;
        exact Logic.I).
  assert (H2 : (1 <= Z.of_nat (special_mafia_count
                   {| starting_mafia := 1; special_roles := [Janitor] |}))%Z)
    by (vm_compute; discriminate).
  split; [exact H1|]. split; [exact H2|].
  exact (play_without_plain_mafia exact_name
           {| starting_mafia := 1; special_roles := [Janitor] |}
           seven_members (fun _ => 0) [quiet_cycle] H1 H2).
Defined.

(** ** Win conditions *)

Lemma total_mafia_le_alive g : total_mafia g <= total_alive g.
Proof.
  unfold total_mafia, total_alive, count_players.
  induction (players g) as [|p ps IH]; [done|].
  rewrite !filter_cons.
  repeat case_decide; cbn; try lia.
  by destruct (dead p), (is_mafia p).
Qed.

Lemma nobody_alive g :
  total_alive g = 0 -> any_can_kill_mafia_at_night g = false.
Proof.
  unfold total_alive, count_players, any_can_kill_mafia_at_night.
  induction (players g) as [|p ps IH]; [done|].
  rewrite filter_cons. case_decide as Hd; [done|].
  apply not_true_is_false in Hd. cbn [existsb]. rewrite Hd. exact IH.
Qed.

(** X8.  The win conditions of the town and of the mafia hold together
    in one case only: by day, with nobody left alive.  While a player
    lives they exclude each other. *)
Theorem town_and_mafia_both_win g :
  Citizen_win_condition g = true /\ Mafia_win_condition g = true
  <-> is_day g = true /\ total_alive g = 0.
Proof.
  rewrite Mafia_win_condition_counts. unfold Citizen_win_condition.
  rewrite Nat.eqb_eq. pose proof (total_mafia_le_alive g) as Hle.
  split.
  - intros [Hm Hw]. rewrite Hm in Hw. destruct (is_day g).
    + split; [done|]. apply andb_prop in Hw as [_ Hw].
      apply bool_decide_eq_true in Hw. lia.
    + apply bool_decide_eq_true in Hw. lia.
  - intros [-> Ha]. split; [lia|].
    rewrite (nobody_alive g Ha). cbn. apply bool_decide_eq_true. lia.
Qed.

(** ** The lines of a day *)

(** X9.  [day_notification] accumulates: called twice in a day, it leaves
    the game as one call with all the lines would; the lines stored for
    the day are the earlier ones followed by those of the two calls, in
    order; each of the two embeds shows the roles alive and all the lines
    of the day so far, the second one as an edit of the day's message
    (the first one too when the day had its message already); and the
    lines of the other days are not touched. *)
Theorem day_notification_accumulates a b w :
  let day := _day (game w) in
  let earlier := default [] (_day_notifications (game w) !! day) in
  let w2 := (day_notification b (day_notification a w).2).2 in
  game w2 = game (day_notification (a ++ b) w).2
  /\ _day_notifications (game w2) !! day = Some (earlier ++ a ++ b)
  /\ (forall d, d <> day ->
        _day_notifications (game w2) !! d
        = _day_notifications (game w) !! d)
  /\ sent w2
     = sent w
       ++ [Send ChInfo (MDayEmbed (edits_embed (game w)) day
                          (bool_decide (1 < day)%Z) (roles_alive (game w))
                          (earlier ++ a));
           Send ChInfo (MDayEmbed true day (bool_decide (1 < day)%Z)
                          (roles_alive (game w)) (earlier ++ a ++ b))].
Proof.
  cbv zeta. rewrite !day_notification_run. cbn.
  rewrite lookup_insert_eq. cbn. rewrite insert_insert_eq, <- !app_assoc.
  split; [done|]. split; [by rewrite lookup_insert_eq|].
  split; [intros d Hd; by rewrite lookup_insert_ne|].
  assert (He : edits_embed
                 (set__day_notifications
                    (<[_day (game w) :=
                         default [] (_day_notifications (game w)
                                     !! _day (game w)) ++ a]>
                       (_day_notifications (game w)))
                    (game w)) = true).
  { unfold edits_embed. cbn. rewrite lookup_insert_eq.
    by apply bool_decide_eq_true_2. }
  rewrite He. reflexivity.
Qed.

(** ** Who acts at night, and the cleanup of the morning *)

Lemma filter_iff_in {A} (P Q : A -> Prop)
    `{!forall x, Decision (P x), !forall x, Decision (Q x)} (l : list A) :
  (forall x, x ∈ l -> P x <-> Q x) -> filter P l = filter Q l.
Proof.
  induction l as [|x l IH]; intros Hin; [done|].
  rewrite !filter_cons, IH by (intros; apply Hin; by right).
  assert (Hx : P x <-> Q x) by (apply Hin; left).
  destruct (decide (P x)) as [HP|HP], (decide (Q x)) as [HQ|HQ];
    try done; tauto.
Qed.

Lemma with_players_ext (f h : list Player -> list Player) w :
  f (players (game w)) = h (players (game w)) ->
  with_players f w = with_players h w.
Proof. unfold with_players. by intros ->. Qed.

Lemma with_players_id (f : list Player -> list Player) w :
  f (players (game w)) = players (game w) -> with_players f w = w.
Proof.
  destruct w as [[ps d dy dn] s e dr]. unfold with_players. cbn.
  by intros ->.
Qed.

Lemma with_players_with_players (f h : list Player -> list Player) w :
  with_players f (with_players h w) = with_players (f ∘ h) w.
Proof. done. Qed.

Lemma unblock_unblocked p :
  night_role_blocked p = false -> set_night_role_blocked false p = p.
Proof. destruct p. cbn. by intros ->. Qed.

Lemma night_eligible_from n : forall s w,
  s + n = length (players (game w)) ->
  night_eligible (seq s n) w
  = (Ret (filter (fun i => acts_tonight (game w) i = true) (seq s n)),
     with_players
       (fun ps => take s ps ++ map (set_night_role_blocked false) (drop s ps))
       w).
Proof.
  induction n as [|n IH]; intros s w Hlen.
  - cbn [seq night_eligible]. rewrite run_ret, with_players_id; [done|].
    rewrite take_ge, drop_ge by lia. by rewrite app_nil_r.
  - cbn [seq night_eligible]. rewrite run_bind, run_get_player.
    destruct (lookup_lt_is_Some_2 (players (game w)) s) as [p Hp]; [lia|].
    rewrite Hp. cbv beta iota.
    assert (Ha : acts_tonight (game w) s
                 = negb (dead p || night_role_blocked p))
      by (unfold acts_tonight; by rewrite Hp).
    rewrite filter_cons.
    destruct (dead p || night_role_blocked p) eqn:Hb; cbn [negb] in Ha.
    + rewrite decide_False by (by rewrite Ha).
      rewrite run_bind, run_update_player. cbv beta iota.
      rewrite IH by (cbn; rewrite length_alter; lia).
      rewrite with_players_with_players. f_equal.
      * f_equal. apply filter_iff_in. intros i Hi.
        apply elem_of_seq in Hi. unfold acts_tonight. cbn.
        rewrite list_lookup_alter_ne by lia. done.
      * apply with_players_ext. cbn.
        rewrite (take_S_r _ _ (set_night_role_blocked false p))
          by (by rewrite list_lookup_alter_eq, Hp).
        rewrite take_alter, drop_alter, !decide_False by lia.
        by rewrite (drop_S _ _ _ Hp), <- app_assoc.
    + rewrite decide_True by done.
      rewrite run_bind, IH by lia. cbv beta iota. rewrite run_ret.
      f_equal. apply with_players_ext.
      rewrite (take_S_r _ _ p), (drop_S _ _ _ Hp) by done.
      apply orb_false_iff in Hb as [_ Hb]. cbn [map].
      by rewrite unblock_unblocked, <- app_assoc.
Qed.

(** X10.  The loop of [night_tasks] that hands out the night tasks: the
    players that get one are exactly the living players that are not
    role-blocked, in roster order, and when the loop is over nobody is
    role-blocked any more; nothing else is changed. *)
Theorem night_eligible_roster w :
  night_eligible (roster_indices (game w)) w
  = (Ret (filter (fun i => acts_tonight (game w) i = true)
                 (roster_indices (game w))),
     with_players (map (set_night_role_blocked false)) w).
Proof.
  unfold roster_indices. by rewrite night_eligible_from.
Qed.

Lemma tidy_loop n : forall s w,
  s + n = length (players (game w)) ->
  for_each (seq s n)
    (fun i => p ← get_player i;
              when (negb (dead p)) (update_player i cleanup_attrs)) w
  = (Ret tt,
     with_players (fun ps => take s ps ++ map tidy (drop s ps)) w).
Proof.
  induction n as [|n IH]; intros s w Hlen.
  - cbn [seq for_each]. rewrite run_ret, with_players_id; [done|].
    rewrite take_ge, drop_ge by lia. by rewrite app_nil_r.
  - cbn [seq for_each]. rewrite run_bind, run_bind, run_get_player.
    destruct (lookup_lt_is_Some_2 (players (game w)) s) as [p Hp]; [lia|].
    rewrite Hp. cbv beta iota.
    destruct (dead p) eqn:Hd; cbn [negb when].
    + rewrite run_ret, IH by lia. f_equal. apply with_players_ext.
      rewrite (take_S_r _ _ p), (drop_S _ _ _ Hp) by done. cbn [map].
      unfold tidy at 2. by rewrite Hd, <- app_assoc.
    + rewrite run_update_player.
      rewrite IH by (cbn; rewrite length_alter; lia).
      rewrite with_players_with_players. f_equal.
      apply with_players_ext. cbn.
      rewrite (take_S_r _ _ (cleanup_attrs p))
        by (by rewrite list_lookup_alter_eq, Hp).
      rewrite take_alter, drop_alter, !decide_False by lia.
      rewrite (drop_S _ _ _ Hp). cbn [map].
      unfold tidy at 2. by rewrite Hd, <- app_assoc.
Qed.

Lemma cleanup_everyone_tidy w :
  cleanup_everyone w = (Ret tt, with_players (map tidy) w).
Proof.
  unfold cleanup_everyone. rewrite run_bind, run_get_game. cbv beta iota.
  unfold roster_indices. by rewrite tidy_loop.
Qed.

Lemma tidy_ledger p : dead (tidy p) = false -> ledger_empty (tidy p).
Proof. unfold tidy. destruct (dead p) eqn:Hd; [congruence|]. done. Qed.

(** X11.  The cleanup that ends [pre_day] resets the night ledger of
    every living player and leaves the dead exactly as they are; so when
    [pre_day] has returned, no living player is marked as killed,
    visited, protected, cleaned, disguised, role-blocked or jailed. *)
Theorem pre_day_empties_ledger :
  (forall w, cleanup_everyone w = (Ret tt, with_players (map tidy) w))
  /\ (forall p, dead p = true -> tidy p = p)
  /\ (forall w w',
        pre_day w = (Ret tt, w') ->
        Forall (fun p => dead p = false -> ledger_empty p)
               (players (game w'))).
Proof.
  split; [exact cleanup_everyone_tidy|].
  split; [intros p Hd; unfold tidy; by rewrite Hd|].
  intros w w'. unfold pre_day. rewrite run_bind, run_get_game.
  cbv beta iota. rewrite run_bind.
  match goal with
  | |- match ?m w with _ => _ end = _ -> _ => destruct (m w) as [[[]|e] w1]
  end; [|done].
  rewrite cleanup_everyone_tidy. intros [= <-]. cbn.
  apply Forall_fmap, Forall_forall. intros p _. exact (tidy_ledger p).
Qed.

Lemma pre_day_empties_ledger_witness :
  pre_day protection_night_over
  = (Ret tt, (pre_day protection_night_over).2)
  /\ Forall (fun p => dead p = false -> ledger_empty p)
            (players (game (pre_day protection_night_over).2)).
Proof.
  assert (H : pre_day protection_night_over
              = (Ret tt, (pre_day protection_night_over).2))
    by (vm_compute; reflexivity).
  split; [exact H|].
  exact (proj2 (proj2 pre_day_empties_ledger) _ _ H).
Defined.

(** ** The godfather's kill *)

Lemma mafia_attack_basic p :
  is_mafia p = true -> attack_type p = Some AttackType.basic.
Proof. unfold is_mafia, attack_type. by destruct (cls p). Qed.

Lemma basic_attack_blocked (d : DefenseType.t) :
  defense_ge (Some d) (Some AttackType.basic) = Ret true.
Proof. by destruct d. Qed.

(** X12.  The kill that the godfather orders ([mafia_check], after the
    choice is accepted).  The godfather is a mafia player, so its attack
    is basic: a target that is under the protection of a player with a
    defense tier, whatever the tier, is not marked, and the mafia are told
    that the attack failed; a target without protection is marked as
    killed and visited by the godfather, and the mafia get the thumbs
    up.  Nothing else changes. *)
Theorem mafia_check_basic_attack w gf godfather player p :
  players (game w) !! gf = Some godfather ->
  is_mafia godfather = true ->
  players (game w) !! player = Some p ->
  match protected_by p with
  | None =>
      mafia_check gf player w
      = (Ret tt, with_sent (Send ChMafia MThumbsUp)
                   (with_players (alter (kill gf) player) w))
  | Some q =>
      forall protector,
        players (game w) !! q = Some protector ->
        is_Some (defense_type protector) ->
        mafia_check gf player w
        = (Ret tt, with_sent (Send ChMafia MAttackFailed) w)
  end.
Proof.
  intros Hgf Hm Hp. unfold mafia_check.
  rewrite run_bind, run_get_game. cbv beta iota.
  rewrite run_bind, run_get_player, Hgf. cbv beta iota.
  rewrite run_bind, run_get_player, Hp. cbv beta iota.
  rewrite run_bind.
  destruct (protected_by p) as [q|].
  - intros protector Hq [d Hd].
    rewrite run_bind, run_get_player, Hq. cbv beta iota.
    unfold lift. rewrite Hd, (mafia_attack_basic _ Hm), basic_attack_blocked.
    cbv beta iota. by rewrite run_send.
  - rewrite run_ret. cbv beta iota.
    by rewrite run_bind, run_update_player, run_send.
Qed.

Lemma mafia_check_basic_attack_witness :
  let w := protection_night_over in
  players (game w) !! 3 = Some (the_player w 3)
  /\ is_mafia (the_player w 3) = true
  /\ players (game w) !! 5 = Some (the_player w 5)
  /\ protected_by (the_player w 5) = Some 2
  /\ players (game w) !! 2 = Some (the_player w 2)
  /\ mafia_check 3 5 w
     = (Ret tt, with_sent (Send ChMafia MAttackFailed) w).
Proof.
  cbv zeta.
  assert (H3 : players (game protection_night_over) !! 3
               = Some (the_player protection_night_over 3))
    by (vm_compute; reflexivity).
  assert (Hm : is_mafia (the_player protection_night_over 3) = true)
    by (vm_compute; reflexivity).
  assert (H5 : players (game protection_night_over) !! 5
               = Some (the_player protection_night_over 5))
    by (vm_compute; reflexivity).
  assert (H2 : players (game protection_night_over) !! 2
               = Some (the_player protection_night_over 2))
    by (vm_compute; reflexivity).
  assert (Hd : is_Some (defense_type (the_player protection_night_over 2)))
    by (vm_compute; eauto).
  split; [exact H3|]. split; [exact Hm|]. split; [exact H5|].
  split; [vm_compute; reflexivity|]. split; [exact H2|].
  pose proof (mafia_check_basic_attack protection_night_over 3
                (the_player protection_night_over 3) 5
                (the_player protection_night_over 5) H3 Hm H5) as H.
  assert (Hq : protected_by (the_player protection_night_over 5) = Some 2)
    by (vm_compute; reflexivity).
  rewrite Hq in H. exact (H _ H2 Hd).
Defined.

(** ** The Arsonist and the Jailor *)

Lemma for_each_update f l : forall w,
  for_each l (fun d => update_player d f) w
  = (Ret tt, with_players (fun ps => foldl (fun acc d => alter f d acc) ps l)
               w).
Proof.
  induction l as [|d l IH]; intros w; cbn [for_each foldl].
  - by rewrite run_ret, with_players_id.
  - by rewrite run_bind, run_update_player, IH.
Qed.

Lemma lookup_foldl_alter (f : Player -> Player) (l : list nat) :
  forall (ps : list Player) (j : nat),
  NoDup l ->
  foldl (fun acc d => alter f d acc) ps l !! j
  = if decide (j ∈ l) then f <$> ps !! j else ps !! j.
Proof.
  induction l as [|d l IH]; intros ps j Hnd; cbn [foldl].
  - by rewrite decide_False by apply not_elem_of_nil.
  - apply NoDup_cons in Hnd as [Hd Hnd]. rewrite IH by done.
    destruct (decide (j = d)) as [->|Hne].
    + rewrite decide_False, decide_True by (done || left).
      by rewrite list_lookup_alter_eq.
    + rewrite list_lookup_alter_ne by done.
      destruct (decide (j ∈ l)) as [Hj|Hj].
      * by rewrite decide_True by (by right).
      * rewrite decide_False; [done|]. rewrite elem_of_cons. tauto.
Qed.

Lemma doused_alive_NoDup g : NoDup (doused_alive g).
Proof. apply NoDup_fst_filter_indexed. Qed.

Lemma doused_alive_of_flags (ps ps' : list Player) : forall h : nat -> nat,
  map (fun p => (doused p, dead p)) ps = map (fun p => (doused p, dead p)) ps' ->
  (filter (fun ip : nat * Player =>
             doused ip.2 = true /\ dead ip.2 = false)
          (imap (fun i p => (h i, p)) ps)).*1
  = (filter (fun ip : nat * Player =>
               doused ip.2 = true /\ dead ip.2 = false)
            (imap (fun i p => (h i, p)) ps')).*1.
Proof.
  revert ps'. induction ps as [|p ps IH]; intros [|q ps'] h Hc;
    try discriminate; [done|].
  injection Hc as Hdo Hde Hc. cbn [imap]. rewrite !filter_cons. cbn [snd].
  rewrite Hdo, Hde. specialize (IH ps' (h ∘ S) Hc).
  destruct (decide _); cbn; [f_equal|]; exact IH.
Qed.

Lemma doused_alive_alter f i g :
  (forall p, doused (f p) = doused p) -> (forall p, dead (f p) = dead p) ->
  doused_alive (set_players (alter f i (players g)) g) = doused_alive g.
Proof.
  intros Hdo Hde. unfold doused_alive, indexed. cbn [players set_players].
  apply (doused_alive_of_flags _ _ (fun i => i)).
  apply list_eq. intros j. rewrite !list_lookup_fmap, list_lookup_alter.
  case_decide as Hij; [subst j|done].
  destruct (players g !! i); cbn; [|done]. by rewrite Hdo, Hde.
Qed.

(** X13.  The Arsonist's night.  Before it asks, the task gives the
    Arsonist its own protection and notes who is doused and alive; an
    answer that names the Arsonist itself ignites: every player noted is
    marked as killed and visited by the Arsonist, and no other player is
    touched; an answer that names another player douses that player and
    records the visit. *)
Theorem arsonist_night w self me :
  players (game w) !! self = Some me -> cls me = Arsonist ->
  (night_task_begin self w).1 = Ret (Some (doused_alive (game w)))
  /\ (protected_by <$> players (game (night_task_begin self w).2) !! self)
     = Some (Some self)
  /\ (forall locals,
        NoDup locals ->
        let w' := (night_task_finish self locals [self] w).2 in
        (night_task_finish self locals [self] w).1 = Ret tt
        /\ sent w' = sent w ++ [Send (ChPlayer self) MThumbsUp]
        /\ forall j,
             players (game w') !! j
             = if decide (j ∈ locals)
               then kill self <$> players (game w) !! j
               else players (game w) !! j)
  /\ (forall locals player,
        player <> self ->
        night_task_finish self locals [player] w
        = (Ret tt,
           with_sent (Send (ChPlayer self) MThumbsUp)
             (with_players
                (alter (fun p => visit self (set_doused true p)) player)
                w))).
Proof.
  intros Hme Hcls. split; [|split; [|split]].
  - unfold night_task_begin. rewrite run_bind, run_get_player, Hme.
    cbv beta iota. rewrite Hcls.
    rewrite run_bind, run_update_player. cbv beta iota.
    rewrite run_bind, run_get_game. cbv beta iota.
    unfold prompt. rewrite run_bind, run_send. cbv beta iota.
    rewrite run_ret. cbn [fst]. do 2 f_equal.
    by apply doused_alive_alter.
  - unfold night_task_begin. rewrite run_bind, run_get_player, Hme.
    cbv beta iota. rewrite Hcls.
    rewrite run_bind, run_update_player. cbv beta iota.
    rewrite run_bind, run_get_game. cbv beta iota.
    unfold prompt. rewrite run_bind, run_send. cbv beta iota.
    rewrite run_ret. cbn. by rewrite list_lookup_alter_eq, Hme.
  - intros locals Hnd. cbv zeta. unfold night_task_finish.
    rewrite run_bind, run_get_player, Hme. cbv beta iota. rewrite Hcls.
    rewrite run_bind, bool_decide_eq_true_2 by done.
    rewrite for_each_update. cbv beta iota. rewrite run_send. cbn.
    split; [done|]. split; [done|]. intros j.
    by apply lookup_foldl_alter.
  - intros locals player Hne. unfold night_task_finish.
    rewrite run_bind, run_get_player, Hme. cbv beta iota. rewrite Hcls.
    rewrite run_bind, bool_decide_eq_false_2 by done.
    rewrite run_bind, run_update_player. cbv beta iota.
    rewrite run_update_player. cbv beta iota. rewrite run_send.
    f_equal. f_equal. rewrite with_players_with_players.
    apply with_players_ext. cbn. by rewrite list_alter_alter_eq.
Qed.

Lemma arsonist_night_witness :
  players (game arson_world) !! 0 = Some (the_player arson_world 0)
  /\ cls (the_player arson_world 0) = Arsonist
  /\ (night_task_begin 0 arson_world).1
     = Ret (Some (doused_alive (game arson_world)))
  /\ night_task_finish 0 [] [3] arson_world
     = (Ret tt,
        with_sent (Send (ChPlayer 0) MThumbsUp)
          (with_players
             (alter (fun p => visit 0 (set_doused true p)) 3) arson_world)).
Proof.
  assert (H0 : players (game arson_world) !! 0
               = Some (the_player arson_world 0))
    by (vm_compute; reflexivity).
  assert (Hc : cls (the_player arson_world 0) = Arsonist)
    by (vm_compute; reflexivity).
  destruct (arsonist_night arson_world 0 (the_player arson_world 0) H0 Hc)
    as (Hb & _ & _ & Hdouse).
  split; [exact H0|]. split; [exact Hc|]. split; [exact Hb|].
  apply Hdouse. lia.
Defined.

(** X14.  [Jailor.day_task], once the Jailor has named a player other
    than itself: the prisoner is role-blocked, flagged as jailed, under
    the Jailor's protection and visited by it; the Jailor holds the
    prisoner and has one jail less; the Jailor is told.  In the night
    that follows the prisoner gets no night task. *)
Theorem jailor_jails w self me player p :
  players (game w) !! self = Some me -> cls me = Jailor ->
  players (game w) !! player = Some p -> player <> self ->
  let w1 := (day_task_finish self [] [player] w).2 in
  (day_task_finish self [] [player] w).1 = Ret tt
  /\ players (game w1) !! player
     = Some (jail self (set_night_role_blocked true p))
  /\ players (game w1) !! self
     = Some (set_jails (jails me - 1) (set_jailed (JPlayer player) me))
  /\ (forall j, j <> player -> j <> self ->
        players (game w1) !! j = players (game w) !! j)
  /\ sent w1 = sent w ++ [Send (ChPlayer self) (MHasBeenJailed player)]
  /\ exists eligible,
       (night_eligible (roster_indices (game w1)) w1).1 = Ret eligible
       /\ (player ∉ eligible).
Proof.
  intros Hme Hcls Hp Hne. cbv zeta. unfold day_task_finish.
  rewrite run_bind, run_get_player, Hme. cbv beta iota. rewrite Hcls.
  rewrite !run_bind, !run_update_player. cbv beta iota.
  rewrite !run_bind, !run_update_player. cbv beta iota.
  rewrite !run_bind, !run_update_player. cbv beta iota.
  rewrite !run_bind, !run_update_player. cbv beta iota.
  rewrite run_send. cbn [fst snd].
  set (w1 := with_sent _ _).
  assert (Hp1 : players (game w1) !! player
                = Some (jail self (set_night_role_blocked true p))).
  { cbn. rewrite !list_lookup_alter_ne by done.
    by rewrite !list_lookup_alter_eq, Hp. }
  split; [done|]. split; [exact Hp1|]. split.
  { cbn. rewrite !list_lookup_alter_eq.
    rewrite !list_lookup_alter_ne by done. by rewrite Hme. }
  split.
  { intros j Hj1 Hj2. cbn. by rewrite !list_lookup_alter_ne by done. }
  split; [done|].
  unfold roster_indices. rewrite night_eligible_from by done.
  eexists. split; [reflexivity|].
  intros Hin. apply list_elem_of_filter in Hin as [Hact _].
  unfold acts_tonight in Hact. rewrite Hp1 in Hact. cbn in Hact.
  by rewrite orb_true_r in Hact.
Qed.

Lemma jailor_jails_witness :
  let w := protection_world in
  players (game w) !! 2 = Some (the_player w 2)
  /\ cls (the_player w 2) = Jailor
  /\ players (game w) !! 5 = Some (the_player w 5)
  /\ 5 <> 2
  /\ (day_task_finish 2 [] [5] w).1 = Ret tt.
Proof.
  cbv zeta.
  assert (H2 : players (game protection_world) !! 2
               = Some (the_player protection_world 2))
    by (vm_compute; reflexivity).
  assert (Hc : cls (the_player protection_world 2) = Jailor)
    by (vm_compute; reflexivity).
  assert (H5 : players (game protection_world) !! 5
               = Some (the_player protection_world 5))
    by (vm_compute; reflexivity).
  assert (Hne : 5 <> 2) by lia.
  split; [exact H2|]. split; [exact Hc|]. split; [exact H5|].
  split; [exact Hne|].
  exact (proj1 (jailor_jails protection_world 2
                  (the_player protection_world 2) 5
                  (the_player protection_world 5) H2 Hc H5 Hne)).
Defined.

(** ** Resolving a player from text *)

Lemma string_to_list_app (s t : string) :
  string_to_list (s ++ t)%string = string_to_list s ++ string_to_list t.
Proof. induction s as [|a s IH]; simpl; [done|]. by rewrite IH. Qed.

Lemma forallb_reverse {A} (f : A -> bool) (l : list A) :
  forallb f (reverse l) = forallb f l.
Proof.
  induction l as [|x l IH]; [done|].
  rewrite reverse_cons, forallb_app, IH. cbn. rewrite andb_true_r.
  apply andb_comm.
Qed.

Lemma digit_not_bang (c : ascii) :
  is_digit c = true -> Ascii.eqb c "!"%char = false.
Proof.
  intros Hc. destruct (Ascii.eqb_spec c "!"%char) as [->|]; [|done].
  discriminate Hc.
Qed.

Lemma before_final_newline_keeps (cs : list ascii) (a : ascii) :
  Ascii.eqb a "010"%char = false ->
  before_final_newline (cs ++ [a]) = cs ++ [a].
Proof.
  intros Ha. unfold before_final_newline. by rewrite reverse_snoc, Ha.
Qed.

(** A user id: fifteen to twenty decimal digits. *)
Lemma match_digits_id (ds : list ascii) :
  forallb is_digit ds = true -> 15 <= length ds <= 20 ->
  match_digits ds = Some (int_of_digits ds).
Proof.
  intros Hd [H1 H2]. unfold match_digits. rewrite Hd.
  by rewrite (proj2 (Nat.leb_le _ _) H1), (proj2 (Nat.leb_le _ _) H2).
Qed.

Lemma match_mention_body (ds : list ascii) :
  forallb is_digit ds = true -> 15 <= length ds <= 20 ->
  match reverse (ds ++ [">"%char]) with
  | a :: ds' =>
      if Ascii.eqb a ">"%char && forallb is_digit ds'
         && (15 <=? length ds')%nat && (length ds' <=? 20)%nat
      then Some (int_of_digits (reverse ds')) else None
  | [] => None
  end = Some (int_of_digits ds).
Proof.
  intros Hd [H1 H2]. rewrite reverse_snoc, forallb_reverse, Hd.
  rewrite length_reverse, reverse_involutive.
  by rewrite (proj2 (Nat.leb_le _ _) H1), (proj2 (Nat.leb_le _ _) H2).
Qed.

(** X15.  The three ways to write a user id name the same id: for a text
    of fifteen to twenty decimal digits, [get_mafia_player] reads the
    same number from the digits alone, from the mention [<@digits>] and
    from the nickname mention [<@!digits>], and so resolves all three to
    the same player, without consulting the fuzzy matcher. *)
Theorem user_id_forms_agree (s : string) :
  forallb is_digit (string_to_list s) = true ->
  15 <= length (string_to_list s) <= 20 ->
  let uid := int_of_digits (string_to_list s) in
  match_user_id s = Some uid
  /\ match_user_id ("<@" ++ s ++ ">")%string = Some uid
  /\ match_user_id ("<@!" ++ s ++ ">")%string = Some uid
  /\ forall extractBests g,
       get_mafia_player extractBests g ("<@" ++ s ++ ">")%string
       = get_mafia_player extractBests g s
       /\ get_mafia_player extractBests g ("<@!" ++ s ++ ">")%string
          = get_mafia_player extractBests g s.
Proof.
  intros Hd Hlen. cbv zeta.
  set (ds := string_to_list s) in *.
  assert (H1 : match_user_id s = Some (int_of_digits ds)).
  { unfold match_user_id. fold ds. by rewrite match_digits_id. }
  assert (Hnl : Ascii.eqb ">"%char "010"%char = false) by reflexivity.
  assert (H2 : match_user_id ("<@" ++ s ++ ">")%string
               = Some (int_of_digits ds)).
  { unfold match_user_id. rewrite !string_to_list_app. fold ds.
    change (string_to_list "<@") with ["<"%char; "@"%char].
    change (string_to_list ">") with [">"%char].
    cbn [app]. unfold match_digits.
    change ("<"%char :: "@"%char :: ds ++ [">"%char])
      with (("<"%char :: "@"%char :: ds) ++ [">"%char]).
    rewrite before_final_newline_keeps by done.
    cbn [app forallb]. change (is_digit "<"%char) with false.
    cbn [andb]. unfold match_mention.
    change (Ascii.eqb "<" "<" && Ascii.eqb "@" "@") with true.
    cbv iota.
    destruct ds as [|c ds'] eqn:Eds; [cbn in Hlen; lia|].
    cbn [app]. rewrite digit_not_bang
      by (cbn in Hd; by apply andb_prop in Hd as [? _]).
    change (c :: ds' ++ [">"%char]) with ((c :: ds') ++ [">"%char]).
    by rewrite match_mention_body. }
  assert (H3 : match_user_id ("<@!" ++ s ++ ">")%string
               = Some (int_of_digits ds)).
  { unfold match_user_id. rewrite !string_to_list_app. fold ds.
    change (string_to_list "<@!") with ["<"%char; "@"%char; "!"%char].
    change (string_to_list ">") with [">"%char].
    cbn [app]. unfold match_digits.
    change ("<"%char :: "@"%char :: "!"%char :: ds ++ [">"%char])
      with (("<"%char :: "@"%char :: "!"%char :: ds) ++ [">"%char]).
    rewrite before_final_newline_keeps by done.
    cbn [app forallb]. change (is_digit "<"%char) with false.
    cbn [andb]. unfold match_mention.
    change (Ascii.eqb "<" "<" && Ascii.eqb "@" "@") with true.
    change (Ascii.eqb "!" "!") with true. cbv iota.
    by rewrite match_mention_body. }
  split; [done|]. split; [done|]. split; [done|].
  intros extractBests g. unfold get_mafia_player.
  by rewrite H1, H2, H3.
Qed.

Lemma user_id_forms_agree_witness :
  let s := "123456789012345678" in
  forallb is_digit (string_to_list s) = true
  /\ 15 <= length (string_to_list s) <= 20
  /\ match_user_id ("<@!" ++ s ++ ">")%string = match_user_id s.
Proof.
  cbv zeta.
  assert (Hd : forallb is_digit (string_to_list "123456789012345678") = true)
    by (vm_compute; reflexivity).
  assert (Hl : 15 <= length (string_to_list "123456789012345678") <= 20)
    by (vm_compute; lia).
  split; [exact Hd|]. split; [exact Hl|].
  destruct (user_id_forms_agree "123456789012345678" Hd Hl)
    as (-> & _ & -> & _). reflexivity.
Defined.

Lemma length_before_final_newline (cs : list ascii) :
  length (before_final_newline cs) <= length cs.
Proof.
  unfold before_final_newline. destruct (reverse cs) as [|a r] eqn:Hr; [done|].
  destruct (Ascii.eqb a "010"%char); [|done].
  apply reverse_cons_inv in Hr. subst cs.
  rewrite length_app, !length_reverse. lia.
Qed.

Lemma match_digits_short (cs : list ascii) :
  length cs < 15 -> match_digits cs = None.
Proof.
  intros Hlen. pose proof (length_before_final_newline cs) as Hb.
  unfold match_digits.
  rewrite (proj2 (Nat.leb_gt 15 (length cs))) by lia.
  rewrite (proj2 (Nat.leb_gt 15 (length (before_final_newline cs)))) by lia.
  by rewrite !andb_false_r.
Qed.

Lemma mention_body_short (r : list ascii) :
  length r < 16 ->
  match reverse r with
  | a :: ds =>
      if Ascii.eqb a ">"%char && forallb is_digit ds
         && (15 <=? length ds)%nat && (length ds <=? 20)%nat
      then Some (int_of_digits (reverse ds)) else None
  | [] => None
  end = None.
Proof.
  intros Hlen. destruct (reverse r) as [|a ds] eqn:Hr; [done|].
  apply (f_equal length) in Hr. rewrite length_reverse in Hr. cbn in Hr.
  rewrite (proj2 (Nat.leb_gt 15 (length ds))) by lia.
  by rewrite andb_false_r.
Qed.

Lemma match_mention_short (cs : list ascii) :
  length cs < 15 -> match_mention cs = None.
Proof.
  intros Hlen. unfold match_mention.
  destruct cs as [|a [|b rest]]; [done|done|]. cbn in Hlen.
  destruct (Ascii.eqb a "<" && Ascii.eqb b "@"); [|done].
  destruct rest as [|c rest']; [done|]. cbn in Hlen.
  pose proof (length_before_final_newline rest') as Hb1.
  pose proof (length_before_final_newline (c :: rest')) as Hb2.
  cbn [length] in Hb2.
  destruct (Ascii.eqb c "!").
  - by rewrite !mention_body_short by lia.
  - by rewrite !mention_body_short by (cbn [length]; lia).
Qed.

Lemma match_user_id_short_text (arg : string) :
  length (string_to_list arg) < 15 -> match_user_id arg = None.
Proof.
  intros Hlen. unfold match_user_id.
  by rewrite match_digits_short, match_mention_short.
Qed.

Lemma first_index_spec {A} (f : A -> bool) (l : list A) : forall s,
  match first_index f l s with
  | Some i =>
      exists x, s <= i /\ l !! (i - s) = Some x /\ f x = true
                /\ forall j y, j < i - s -> l !! j = Some y -> f y = false
  | None => Forall (fun x => f x = false) l
  end.
Proof.
  induction l as [|x l IH]; intros s; cbn [first_index]; [done|].
  destruct (f x) eqn:Hx.
  - exists x. rewrite Nat.sub_diag. split; [done|]. split; [done|].
    split; [done|]. intros j y Hj. lia.
  - specialize (IH (S s)). destruct (first_index f l (S s)) as [i|].
    + destruct IH as (y & Hs & Hy & Hfy & Hbefore).
      exists y. split; [lia|].
      replace (i - s) with (S (i - S s)) by lia. split; [done|].
      split; [done|]. intros [|j] z Hj Hz; cbn in Hz; [congruence|].
      eapply Hbefore; [|done]. lia.
    + by constructor.
Qed.

(** X16.  How [get_mafia_player] reads its argument.  A text of fewer
    than fifteen characters -- a name, or the number a prompt asks for --
    is never taken for a user id: the result is what the fuzzy matcher
    finds among the member names.  A text that carries a user id is
    resolved by the id alone: the result is the first player of the
    roster whose member has that id, and [MemberNotFound] is raised
    exactly when no member has it. *)
Theorem get_mafia_player_dispatch extractBests g arg :
  (length (string_to_list arg) < 15 ->
   get_mafia_player extractBests g arg
   = match extractBests arg (map (fun p => name (member p)) (players g)) with
     | Some i =>
         if decide (i < length (players g)) then Ret i
         else Raise MemberNotFound
     | None => Raise MemberNotFound
     end)
  /\ (forall uid,
        match_user_id arg = Some uid ->
        match get_mafia_player extractBests g arg with
        | Ret i =>
            exists p, players g !! i = Some p /\ id (member p) = uid
                      /\ forall j q, j < i -> players g !! j = Some q ->
                                     id (member q) <> uid
        | Raise e =>
            e = MemberNotFound
            /\ forall p, p ∈ players g -> id (member p) <> uid
        end).
Proof.
  split.
  - intros Hlen. unfold get_mafia_player.
    rewrite match_user_id_short_text by done.
    destruct (extractBests _ _) as [i|]; [|done].
    case_decide as Hi.
    + by destruct (lookup_lt_is_Some_2 _ _ Hi) as [p ->].
    + by rewrite (proj2 (lookup_ge_None _ _)) by lia.
  - intros uid Hid. unfold get_mafia_player. rewrite Hid.
    unfold get_by_member_id.
    pose proof (first_index_spec
                  (fun p => (id (member p) =? uid)%Z) (players g) 0) as Hf.
    destruct (first_index _ (players g) 0) as [i|].
    + destruct Hf as (p & _ & Hp & Hpid & Hbefore).
      rewrite Nat.sub_0_r in *. rewrite Hp. exists p.
      split; [done|]. split; [by apply Z.eqb_eq|].
      intros j q Hj Hq. apply Z.eqb_neq. by eapply Hbefore.
    + split; [done|]. intros p Hp.
      rewrite Forall_forall in Hf. apply Z.eqb_neq. by apply Hf.
Qed.

Lemma get_mafia_player_dispatch_witness :
  let g := game plain_world in
  length (string_to_list "gus") < 15
  /\ get_mafia_player exact_name g "gus" = Ret 0
  /\ match_user_id "<@100000000000007>" = Some 100000000000007%Z
  /\ get_mafia_player exact_name g "<@100000000000007>"
     = Raise MemberNotFound.
Proof.
  cbv zeta.
  assert (Hlen : length (string_to_list "gus") < 15) by (vm_compute; lia).
  assert (Hid : match_user_id "<@100000000000007>"
                = Some 100000000000007%Z) by (vm_compute; reflexivity).
  destruct (get_mafia_player_dispatch exact_name (game plain_world) "gus")
    as [Hshort _].
  destruct (get_mafia_player_dispatch exact_name (game plain_world)
              "<@100000000000007>") as [_ Hbyid].
  split; [exact Hlen|]. split.
  { rewrite (Hshort Hlen). vm_compute. reflexivity. }
  split; [exact Hid|].
  specialize (Hbyid _ Hid).
  destruct (get_mafia_player exact_name (game plain_world)
              "<@100000000000007>") as [i|e] eqn:E.
  - vm_compute in E. discriminate E.
  - destruct Hbyid as [-> _]. reflexivity.
Defined.

(** ** The Executioner's target *)

Lemma run_choice_cons {A} (x : A) (l : list A) w :
  choice (x :: l) w
  = (Ret (nth (entropy w (drawn w) mod length (x :: l)) (x :: l) x),
     after_draw w).
Proof. reflexivity. Qed.

(** X17.  [Executioner.startup_channel_message]: the target that the
    Executioner draws is a player of a citizen class; only the
    Executioner's own object changes.  In a roster without any citizen
    class the draw raises [IndexError] and the setup of the channels
    stops there.  For every other class the call changes nothing. *)
Theorem executioner_target w self me :
  players (game w) !! self = Some me ->
  (cls me <> Executioner -> startup_channel_message self w = (Ret tt, w))
  /\ (cls me = Executioner ->
      match startup_channel_message self w with
      | (Ret _, w') =>
          exists t tp,
            players (game w) !! t = Some tp /\ is_citizen tp = true
            /\ players (game w') !! self = Some (set_target (Some t) me)
            /\ (forall j, j <> self ->
                  players (game w') !! j = players (game w) !! j)
            /\ sent w' = sent w
      | (Raise e, w') =>
          e = IndexError /\ w' = w
          /\ Forall (fun p => is_citizen p = false) (players (game w))
      end).
Proof.
  intros Hme. unfold startup_channel_message.
  rewrite run_bind, run_get_player, Hme. cbv beta iota. split.
  - intros Hc. by destruct (cls me).
  - intros ->. rewrite run_bind, run_get_game. cbv beta iota.
    rewrite run_bind.
    destruct ((filter (fun ip : nat * Player => is_citizen ip.2 = true)
                      (indexed (players (game w)))).*1)
      as [|x l] eqn:Hcands.
    + split; [done|]. split; [done|].
      apply fmap_nil_inv in Hcands.
      apply Forall_forall. intros p Hp.
      apply list_elem_of_lookup in Hp as [i Hi].
      apply not_true_is_false. intros Hcit.
      assert (Hin : (i, p) ∈ filter (fun ip : nat * Player =>
                                       is_citizen ip.2 = true)
                                    (indexed (players (game w)))).
      { apply list_elem_of_filter. split; [done|by apply elem_of_indexed]. }
      rewrite Hcands in Hin. by apply not_elem_of_nil in Hin.
    + rewrite run_choice_cons. cbv beta iota. rewrite run_update_player.
      fold (drawn_candidate w x l).
      set (t := drawn_candidate w x l).
      assert (Ht : t ∈ x :: l).
      { unfold t, drawn_candidate.
        destruct (nth_in_or_default
                    (entropy w (drawn w) mod length (x :: l))
                    (x :: l) x) as [H|H];
          [by apply list_elem_of_In | rewrite H; left]. }
      clearbody t. rewrite <- Hcands in Ht.
      apply list_elem_of_fmap in Ht as ([t' tp] & -> & Htp).
      apply list_elem_of_filter in Htp as [Hcit Htp].
      apply elem_of_indexed in Htp. cbn [fst snd] in *.
      exists t', tp. split; [done|]. split; [done|].
      cbn [game with_players with_game players set_players after_draw sent].
      split; [by rewrite list_lookup_alter_eq, Hme|].
      split; [|done]. intros j Hj. by rewrite list_lookup_alter_ne.
Qed.

Lemma executioner_target_witness :
  let w := executioner_world in
  players (game w) !! 0 = Some (the_player w 0)
  /\ cls (the_player w 0) = Executioner
  /\ (startup_channel_message 0 w).1 = Ret tt
  /\ match startup_channel_message 0 w with
     | (Ret _, w') =>
         exists t tp,
           players (game w) !! t = Some tp /\ is_citizen tp = true
           /\ players (game w') !! 0
              = Some (set_target (Some t) (the_player w 0))
           /\ (forall j, j <> 0 ->
                 players (game w') !! j = players (game w) !! j)
           /\ sent w' = sent w
     | (Raise e, w') =>
         e = IndexError /\ w' = w
         /\ Forall (fun p => is_citizen p = false) (players (game w))
     end.
Proof.
  cbv zeta.
  assert (H0 : players (game executioner_world) !! 0
               = Some (the_player executioner_world 0))
    by (vm_compute; reflexivity).
  assert (Hc : cls (the_player executioner_world 0) = Executioner)
    by (vm_compute; reflexivity).
  split; [exact H0|]. split; [exact Hc|].
  split; [vm_compute; reflexivity|].
  exact (proj2 (executioner_target executioner_world 0
                  (the_player executioner_world 0) H0) Hc).
Defined.

(** ** The text of a nomination *)

Lemma append_assoc_char (cur : string) c (s : string) :
  ((cur ++ String c "") ++ s)%string = (cur ++ String c s)%string.
Proof.
  induction cur as [|a cur IH]; [done|].
  change (String a ((cur ++ String c "") ++ s)%string
          = String a (cur ++ String c s)%string).
  by rewrite IH.
Qed.

Lemma append_empty_r (s : string) : (s ++ "")%string = s.
Proof.
  induction s as [|a s IH]; [done|].
  change (String a (s ++ "")%string = String a s). by rewrite IH.
Qed.

Lemma split_go_free sep (s : string) : forall cur,
  free_of sep s = true -> split_go sep 0 cur s = [(cur ++ s)%string].
Proof.
  induction s as [|c s IH]; intros cur Hfree.
  - cbn [split_go]. by rewrite append_empty_r.
  - cbn [free_of] in Hfree. apply andb_prop in Hfree as [Hp Hfree].
    apply negb_true_iff in Hp. cbn [split_go]. rewrite Hp.
    by rewrite IH, append_assoc_char.
Qed.

(** X18.  The text that [nomination_check] resolves.  For a message that
    is the command [>>nominate ] followed by a text in which the command
    does not occur again, the check sees the command at the start and
    resolves exactly the text that follows it. *)
Theorem nominee_text (x : string) :
  free_of ">>nominate " x = true ->
  String.prefix ">>nominate " (">>nominate " ++ x)%string = true
  /\ split ">>nominate " (">>nominate " ++ x)%string = [""; x]
  /\ nth 1 (split ">>nominate " (">>nominate " ++ x)%string) "" = x.
Proof.
  intros Hfree.
  assert (He : String.prefix "" x = true) by (by destruct x).
  assert (Hs : split ">>nominate " (">>nominate " ++ x)%string = [""; x]).
  { unfold split. simpl. change ("" ++ x)%string with x.
    rewrite He. by rewrite split_go_free. }
  split; [|by rewrite Hs]. simpl. by change ("" ++ x)%string with x.
Qed.

Lemma nominee_text_witness :
  free_of ">>nominate " "bob" = true
  /\ nth 1 (split ">>nominate " (">>nominate " ++ "bob")%string) "" = "bob".
Proof.
  assert (H : free_of ">>nominate " "bob" = true) by (vm_compute; reflexivity).
  split; [exact H|]. exact (proj2 (proj2 (nominee_text "bob" H))).
Defined.

(** ** Dying at night *)

(** The roster when [pre_day] has returned: the loop has changed the
    flags [dead] and [is_godfather] only, whoever it has marked dead had a
    killer in the roster, and the cleanup has tidied what the loop
    left. *)
Lemma pre_day_players w w' :
  pre_day w = (Ret tt, w') ->
  exists ps1,
    map frozen ps1 = map frozen (players (game w))
    /\ players (game w') = map tidy ps1
    /\ forall i p p1,
         players (game w) !! i = Some p -> ps1 !! i = Some p1 ->
         dead p = false -> dead p1 = true ->
         exists k, killed_by p = Some k
                   /\ is_Some (players (game w) !! k).
Proof.
  unfold pre_day. rewrite run_bind, run_get_game. cbv beta iota.
  rewrite run_bind. case_bool_decide.
  - rewrite run_bind.
    destruct (fold_M pre_day_player (roster_indices (game w)) ([], []) w)
      as [[loc|e] w1] eqn:Hloop; [|done].
    destruct (pre_day_loop_report _ _ _ _ _ (NoDup_seq _ _) Hloop)
      as (lines & _ & Hf & _ & _ & _ & _ & _ & evs & _ & _ & _ & Hdied).
    rewrite day_notification_run. cbv beta iota zeta.
    rewrite cleanup_everyone_tidy. intros [= <-].
    exists (players (game w1)). split; [done|]. split; [done|].
    intros i p p1 Hp Hp1 Hd Hd1.
    destruct (Hdied i p) as (k & Hk & Hkl & _); try done.
    + apply elem_of_seq. split; [lia|]. cbn. by eapply lookup_lt_Some.
    + unfold dead_at. by rewrite Hp1, <- Hd1.
    + eauto.
  - rewrite day_notification_run. cbv beta iota zeta.
    rewrite cleanup_everyone_tidy. intros [= <-].
    exists (players (game w)). split; [done|]. split; [done|].
    intros i p p1 Hp Hp1 Hd Hd1. congruence.
Qed.

Lemma tidy_dead p : dead (tidy p) = dead p.
Proof. unfold tidy. by destruct (dead p) eqn:Hd. Qed.

Lemma tidy_cls p : cls (tidy p) = cls p.
Proof. unfold tidy. by destruct (dead p). Qed.

(** X19.  A player that dies in [pre_day] keeps the record of its killer
    for good: the cleanup leaves the dead alone.  So a Jester that a
    player outside the mafia has killed in the night satisfies its win
    condition as soon as [pre_day] has returned. *)
Theorem jester_killed_at_night_wins w w' i p :
  pre_day w = (Ret tt, w') ->
  players (game w) !! i = Some p -> dead p = false ->
  dead_at w' i = Some true ->
  exists p' k killer,
    players (game w') !! i = Some p'
    /\ killed_by p = Some k /\ killed_by p' = Some k
    /\ players (game w) !! k = Some killer
    /\ (cls p = Jester -> is_mafia killer = false ->
        win_condition (game w') p' = true).
Proof.
  intros Hrun Hp Hd Hd'.
  destruct (pre_day_players w w' Hrun) as (ps1 & Hf & Hps & Hdied).
  destruct (same_map_lookup frozen _ _ i p Hf Hp) as (p1 & Hp1 & Hfr).
  unfold dead_at in Hd'. rewrite Hps, list_lookup_fmap, Hp1 in Hd'.
  cbn in Hd'. injection Hd' as Hd1. rewrite tidy_dead in Hd1.
  assert (Ht : tidy p1 = p1) by (unfold tidy; by rewrite Hd1).
  pose proof (frozen_fields _ _ Hfr) as (Hcls & _ & Hk & _).
  destruct (Hdied i p p1 Hp Hp1 Hd Hd1) as (k & Hkp & [killer Hkl]).
  destruct (same_map_lookup frozen _ _ k killer Hf Hkl) as (k1 & Hk1 & Hkfr).
  pose proof (frozen_fields _ _ Hkfr) as (Hkcls & _).
  exists p1, k, killer.
  split; [by rewrite Hps, list_lookup_fmap, Hp1; cbn; rewrite Ht|].
  split; [done|]. split; [congruence|]. split; [done|].
  intros Hj Hnm. unfold win_condition. rewrite Hcls, Hj.
  apply orb_true_iff. right. unfold killed_by_non_mafia.
  rewrite Hd1, Hk, Hkp, Hps, list_lookup_fmap, Hk1. cbn.
  unfold is_mafia in *. by rewrite tidy_cls, Hkcls, Hnm.
Qed.

Lemma jester_killed_at_night_wins_witness :
  let w := jester_shot in
  let w' := (pre_day w).2 in
  pre_day w = (Ret tt, w')
  /\ players (game w) !! 0 = Some (the_player w 0)
  /\ dead (the_player w 0) = false
  /\ dead_at w' 0 = Some true
  /\ cls (the_player w 0) = Jester
  /\ killed_by (the_player w 0) = Some 1
  /\ (is_mafia <$> players (game w) !! 1) = Some false
  /\ win_condition (game w') (the_player w' 0) = true
  /\ exists p' k killer,
       players (game w') !! 0 = Some p'
       /\ killed_by (the_player w 0) = Some k /\ killed_by p' = Some k
       /\ players (game w) !! k = Some killer
       /\ (cls (the_player w 0) = Jester -> is_mafia killer = false ->
           win_condition (game w') p' = true).
Proof.
  cbv zeta.
  assert (Hrun : pre_day jester_shot = (Ret tt, (pre_day jester_shot).2))
    by (vm_compute; reflexivity).
  assert (H0 : players (game jester_shot) !! 0
               = Some (the_player jester_shot 0))
    by (vm_compute; reflexivity).
  assert (Hd : dead (the_player jester_shot 0) = false)
    by (vm_compute; reflexivity).
  assert (Hd' : dead_at (pre_day jester_shot).2 0 = Some true)
    by (vm_compute; reflexivity).
  split; [exact Hrun|]. split; [exact H0|]. split; [exact Hd|].
  split; [exact Hd'|].
  split; [vm_compute; reflexivity|]. split; [vm_compute; reflexivity|].
  split; [vm_compute; reflexivity|]. split; [vm_compute; reflexivity|].
  exact (jester_killed_at_night_wins jester_shot (pre_day jester_shot).2 0
           (the_player jester_shot 0) Hrun H0 Hd Hd').
Defined.

(** ** The day counter *)

Global Instance same_date_preorder : PreOrder same_date.
Proof.
  split.
  - by intros g.
  - intros g h k (?&?) (?&?). split; congruence.
Qed.

Lemma same_date_players g ps : same_date g (set_players ps g).
Proof. done. Qed.

Lemma same_date_notify g ns :
  same_date g
    (set__day_notifications
       (<[_day g := default [] (_day_notifications g !! _day g) ++ ns]>
          (_day_notifications g)) g).
Proof. done. Qed.

Lemma no_way_back_dies p : no_way_back p (set_dead true p).
Proof. by repeat split. Qed.

Lemma no_way_back_lynched p : no_way_back p (set_lynched true p).
Proof. by repeat split. Qed.

Lemma pre_day_same_date w : _day (game (pre_day w).2) = _day (game w).
Proof.
  by destruct (steady_pre_day (R:=no_way_back) (G:=same_date)
                 same_date_players no_way_back_ledger same_date_notify
                 no_way_back_dies w) as (_ & (_ & ?) & _).
Qed.

Lemma day_tasks_same_date extractBests inp w :
  _day (game (day_tasks extractBests inp w).2) = _day (game w).
Proof.
  by destruct (steady_day_tasks (R:=no_way_back) (G:=same_date)
                 same_date_players no_way_back_ledger extractBests
                 same_date_notify no_way_back_dies no_way_back_lynched
                 inp w) as (_ & (_ & ?) & _).
Qed.

Lemma night_tasks_same_date arrivals w :
  _day (game (night_tasks arrivals w).2) = _day (game w).
Proof.
  by destruct (steady_night_tasks (R:=no_way_back) (G:=same_date)
                 same_date_players no_way_back_ledger arrivals w)
    as (_ & (_ & ?) & _).
Qed.

Lemma night_tasks_embed arrivals w :
  exists evs,
    sent (night_tasks arrivals w).2
    = sent w ++ Send ChInfo (MNightEmbed (_day (game w) - 1)) :: evs.
Proof.
  unfold night_tasks. rewrite run_bind, run_get_game. cbv beta iota.
  rewrite run_bind, run_send. cbv beta iota.
  set (w1 := with_sent _ w).
  match goal with
  | |- exists evs, sent (?m w1).2 = _ =>
      assert (Hs : steady no_way_back same_date m)
  end.
  { destruct (godfather (game w)) as [gf|]; [|apply steady_raise].
    pose proof (steady_night_tasks (R:=no_way_back) (G:=same_date)
                  same_date_players no_way_back_ledger arrivals) as Hn.
    apply steady_bind; [apply steady_get_player|]. intros godfather.
    apply steady_bind.
    { destruct (night_role_blocked godfather); apply steady_send. }
    intros _. apply steady_bind.
    { apply steady_night_eligible; [apply same_date_players|].
      apply no_way_back_ledger. }
    intros eligible. apply steady_bind.
    { apply steady_start_tasks. intros a.
      apply steady_night_task_begin; [apply same_date_players|].
      apply no_way_back_ledger. }
    intros waiting. apply steady_run_arrivals;
      [apply same_date_players|apply no_way_back_ledger|].
    intros. apply steady_night_task_finish;
      [apply same_date_players|apply no_way_back_ledger]. }
  destruct (Hs w1) as (_ & _ & [evs Hevs] & _).
  exists evs. rewrite Hevs. unfold w1. cbn. by rewrite <- app_assoc.
Qed.

Lemma cycle_day extractBests inp w :
  let r := _cycle extractBests inp w in
  (_day (game w) <= _day (game r.2) <= _day (game w) + 1)%Z
  /\ (r.1 = Ret false ->
      _day (game r.2) = (_day (game w) + 1)%Z
      /\ exists evs evs',
           sent r.2 = sent w ++ evs
                      ++ Send ChInfo (MNightEmbed (_day (game w))) :: evs').
Proof.
  cbv zeta. destruct (_cycle extractBests inp w) as [o wf] eqn:Hrun.
  cbn [fst snd]. unfold _cycle in Hrun. rewrite run_bind in Hrun.
  pose proof (pre_day_same_date w) as Hd1.
  destruct (steady_pre_day (R:=no_way_back) (G:=same_date)
              same_date_players no_way_back_ledger same_date_notify
              no_way_back_dies w) as (_ & _ & [evs1 Hs1] & _).
  destruct (pre_day w) as [[[]|e] w1]; cbn in Hd1, Hs1;
    [|injection Hrun as <- <-; split; [lia|done]].
  rewrite run_bind, run_get_game in Hrun. cbv beta iota in Hrun.
  destruct (check_winner (game w1));
    [rewrite run_ret in Hrun; injection Hrun as <- <-; split; [lia|done]|].
  unfold _cycle_day in Hrun. rewrite run_bind in Hrun.
  pose proof (day_tasks_same_date extractBests (day_input inp) w1) as Hd2.
  destruct (steady_day_tasks (R:=no_way_back) (G:=same_date)
              same_date_players no_way_back_ledger extractBests
              same_date_notify no_way_back_dies no_way_back_lynched
              (day_input inp) w1) as (_ & _ & [evs2 Hs2] & _).
  destruct (day_tasks extractBests (day_input inp) w1) as [[[]|e] w2];
    cbn in Hd2, Hs2; [|injection Hrun as <- <-; split; [lia|done]].
  rewrite run_bind, run_get_game in Hrun. cbv beta iota in Hrun.
  destruct (check_winner (game w2));
    [rewrite run_ret in Hrun; injection Hrun as <- <-; split; [lia|done]|].
  unfold _cycle_night in Hrun.
  rewrite run_bind, run_get_game in Hrun. cbv beta iota in Hrun.
  rewrite run_bind in Hrun. unfold put_game in Hrun. cbv beta iota in Hrun.
  pose proof (night_tasks_same_date (night_arrivals inp)
                (with_game (set__day (_day (game w2) + 1) (game w2)) w2))
    as Hd3.
  destruct (night_tasks_embed (night_arrivals inp)
              (with_game (set__day (_day (game w2) + 1) (game w2)) w2))
    as [evs3 Hs3].
  unfold with_game in Hd3, Hs3. rewrite run_bind in Hrun.
  destruct (night_tasks (night_arrivals inp) _) as [[[]|e] w4];
    cbn in Hd3, Hs3; [|injection Hrun as <- <-; split; [lia|done]].
  rewrite run_bind, run_get_game in Hrun. cbv beta iota in Hrun.
  rewrite run_ret in Hrun. injection Hrun as <- <-.
  split; [lia|]. intros _. split; [lia|].
  replace (_day (game w2) + 1 - 1)%Z with (_day (game w)) in Hs3 by lia.
  exists (evs1 ++ evs2), evs3. by rewrite Hs3, Hs2, Hs1, <- !app_assoc.
Qed.

(** X20.  The day counter counts the cycles.  A cycle that does not end
    the game advances the counter by exactly one, and the night it plays
    is announced with the number of the day it follows; a cycle that ends
    the game, or fails, leaves the counter where it was or one further.
    So after [n] cycles without a winner the counter has advanced by
    [n]. *)
Theorem cycles_count_days extractBests inps w :
  let r := cycles extractBests inps w in
  (_day (game w) <= _day (game r.2)
   <= _day (game w) + Z.of_nat (length inps))%Z
  /\ (r.1 = Ret false ->
      _day (game r.2) = (_day (game w) + Z.of_nat (length inps))%Z)
  /\ (forall inp,
        let c := _cycle extractBests inp w in
        c.1 = Ret false ->
        _day (game c.2) = (_day (game w) + 1)%Z
        /\ exists evs evs',
             sent c.2
             = sent w ++ evs
               ++ Send ChInfo (MNightEmbed (_day (game w))) :: evs').
Proof.
  cbv zeta. split; [|split].
  - revert w. induction inps as [|inp rest IH]; intros w;
      cbn [cycles length]; [cbn; lia|].
    rewrite run_bind.
    destruct (cycle_day extractBests inp w) as [Hc _]. cbv zeta in Hc.
    destruct (_cycle extractBests inp w) as [[[]|e] w1]; cbn in Hc;
      [cbn; lia| |cbn; lia].
    specialize (IH w1). cbv beta iota. lia.
  - revert w. induction inps as [|inp rest IH]; intros w;
      cbn [cycles length]; [cbn; lia|].
    rewrite run_bind.
    destruct (cycle_day extractBests inp w) as [_ Hc]. cbv zeta in Hc.
    destruct (_cycle extractBests inp w) as [[[]|e] w1]; cbn in Hc;
      [done| |done].
    cbv beta iota. intros Hr. specialize (IH w1 Hr).
    destruct (Hc eq_refl) as [Hd _]. lia.
  - intros inp. apply cycle_day.
Qed.

Lemma cycles_count_days_witness :
  let r := cycles exact_name [quiet_cycle; quiet_cycle] plain_start in
  r.1 = Ret false
  /\ _day (game plain_start) = 1%Z
  /\ _day (game r.2) = (_day (game plain_start) + 2)%Z.
Proof.
  cbv zeta.
  assert (Hr : (cycles exact_name [quiet_cycle; quiet_cycle] plain_start).1
               = Ret false) by (vm_compute; reflexivity).
  split; [exact Hr|]. split; [vm_compute; reflexivity|].
  exact (proj1 (proj2 (cycles_count_days exact_name
                         [quiet_cycle; quiet_cycle] plain_start)) Hr).
Defined.

(** ** A night without a godfather *)

(** X21.  When no living player is flagged as godfather, [night_tasks]
    posts the embed of the night and then fails with [AttributeError]
    when it reads the godfather's role-block flag: the mafia get no
    prompt, no player's night task is started and no block is cleared;
    the cycle that runs this night fails with it, and [mafia_kill_check]
    fails in the same way on any message in the mafia channel. *)
Theorem night_without_godfather w :
  godfather (game w) = None ->
  (forall arrivals,
     night_tasks arrivals w
     = (Raise AttributeError,
        with_sent (Send ChInfo (MNightEmbed (_day (game w) - 1))) w))
  /\ (forall inp,
        (_cycle_night inp w).1 = Raise AttributeError
        /\ players (game (_cycle_night inp w).2) = players (game w)
        /\ sent (_cycle_night inp w).2
           = sent w ++ [Send ChInfo (MNightEmbed (_day (game w)))])
  /\ (forall extractBests m,
        m_channel m = ChMafia ->
        mafia_kill_check extractBests m w = (Raise AttributeError, w)).
Proof.
  intros Hgf. split; [|split].
  - intros arrivals. unfold night_tasks.
    rewrite run_bind, run_get_game. cbv beta iota.
    rewrite run_bind, run_send. cbv beta iota. by rewrite Hgf.
  - intros inp. unfold _cycle_night, night_tasks.
    rewrite run_bind, run_get_game. cbv beta iota.
    rewrite run_bind. unfold put_game. cbv beta iota.
    rewrite run_bind, run_bind, run_get_game. cbv beta iota.
    rewrite run_bind, run_send. cbv beta iota.
    cbn [game with_sent set__day players].
    change (godfather (set__day (_day (game w) + 1) (game w)))
      with (godfather (game w)).
    rewrite Hgf. cbn. split; [done|]. split; [done|].
    by replace (_day (game w) + 1 - 1)%Z with (_day (game w)) by lia.
  - intros extractBests m Hm. unfold mafia_kill_check.
    rewrite run_bind, run_get_game. cbv beta iota.
    rewrite Hm, bool_decide_eq_true_2 by done. cbn [negb].
    by rewrite Hgf.
Qed.

Lemma night_without_godfather_witness :
  godfather (game janitor_lynch_over) = None
  /\ (_cycle_night lynch_cycle janitor_lynch_over).1 = Raise AttributeError.
Proof.
  assert (H : godfather (game janitor_lynch_over) = None)
    by (vm_compute; reflexivity).
  split; [exact H|].
  exact (proj1 (proj1 (proj2 (night_without_godfather janitor_lynch_over H))
                  lynch_cycle)).
Defined.

(** ** Who may read which channel *)

Lemma setitem_same c who o cn : setitem c who o cn c who = Some o.
Proof. unfold setitem. by rewrite decide_True. Qed.

Lemma setitem_other c who o cn c' who' :
  c' <> c \/ who' <> who -> setitem c who o cn c' who' = cn c' who'.
Proof. intros H. unfold setitem. rewrite decide_False; [done|]. tauto. Qed.

Lemma player_channels_other me i p cn c who :
  (forall j, c <> KPlayer j) -> c <> KInfo -> c <> KChat ->
  c <> KMafiaChat ->
  player_channels me i p cn c who = cn c who.
Proof.
  intros Hp Hi Hc Hm. unfold player_channels.
  rewrite !setitem_other by (left; done || apply Hp).
  destruct (is_mafia p); [|done]. by rewrite setitem_other by (by left).
Qed.

Lemma players_channels_other me ps : forall i cn c who,
  (forall j, c <> KPlayer j) -> c <> KInfo -> c <> KChat ->
  c <> KMafiaChat ->
  players_channels me ps i cn c who = cn c who.
Proof.
  induction ps as [|p ps IH]; intros i cn c who Hp Hi Hc Hm; [done|].
  cbn [players_channels]. rewrite IH by done.
  by apply player_channels_other.
Qed.

Lemma players_channels_mafia_chat me ps : forall i cn who,
  players_channels me ps i cn KMafiaChat who
  = match who with
    | User uid =>
        if plays_mafia ps uid then Some user_overwrites
        else cn KMafiaChat who
    | DefaultRole => cn KMafiaChat who
    end.
Proof.
  induction ps as [|p ps IH]; intros i cn who; [by destruct who|].
  cbn [players_channels]. rewrite IH. unfold player_channels.
  rewrite !setitem_other by (by left).
  destruct who as [|uid]; cbn [plays_mafia existsb].
  - destruct (is_mafia p); [|done]. by rewrite setitem_other by (by right).
  - fold (plays_mafia ps uid). destruct (plays_mafia ps uid);
      [by rewrite orb_true_r|]. rewrite orb_false_r.
    destruct (is_mafia p); [|done]. cbn [andb].
    destruct (Z.eqb_spec (id (member p)) uid) as [->|Hne].
    + by rewrite setitem_same.
    + rewrite setitem_other; [done|]. right. congruence.
Qed.

Lemma players_channels_public me c ps : forall i cn who,
  c = KChat \/ c = KInfo ->
  players_channels me ps i cn c who
  = match who with
    | User uid =>
        if plays ps uid then Some user_overwrites else cn c who
    | DefaultRole => cn c who
    end.
Proof.
  intros i cn who Hc. revert i cn.
  induction ps as [|p ps IH]; intros i cn; [by destruct who|].
  cbn [players_channels]. rewrite IH. unfold player_channels.
  rewrite !(setitem_other (KPlayer i)) by (left; by destruct Hc as [-> | ->]).
  assert (Hrest : forall cn1 : ChannelsNeeded,
            cn1 c who = cn c who ->
            setitem KInfo (User (id (member p))) user_overwrites
              (setitem KChat (User (id (member p))) user_overwrites cn1)
              c who
            = if decide (who = User (id (member p)))
              then Some user_overwrites else cn c who).
  { intros cn1 H1. case_decide as Hw.
    - subst who. destruct Hc as [-> | ->].
      + rewrite setitem_other by (by left). by rewrite setitem_same.
      + by rewrite setitem_same.
    - rewrite !setitem_other by (by right). done. }
  rewrite Hrest.
  2:{ destruct (is_mafia p); [|done].
      rewrite setitem_other; [done|]. left. by destruct Hc as [-> | ->]. }
  destruct who as [|uid]; cbn [plays existsb].
  - by rewrite decide_False.
  - fold (plays ps uid). destruct (plays ps uid); [by rewrite orb_true_r|].
    rewrite orb_false_r.
    destruct (Z.eqb_spec (id (member p)) uid) as [->|Hne].
    + by rewrite decide_True.
    + rewrite decide_False; [done|]. congruence.
Qed.

Lemma player_channels_private me i p cn j who :
  player_channels me i p cn (KPlayer j) who
  = if decide (j = i)
    then match who with
         | DefaultRole => Some default_role_overwrites
         | User uid =>
             if decide (uid = me) then Some bot_overwrites
             else if decide (uid = id (member p)) then Some user_overwrites
                  else cn (KPlayer j) who
         end
    else cn (KPlayer j) who.
Proof.
  unfold player_channels.
  assert (Hcn1 : (if is_mafia p
                  then setitem KMafiaChat (User (id (member p)))
                         user_overwrites cn
                  else cn) (KPlayer j) who = cn (KPlayer j) who).
  { destruct (is_mafia p); [|done]. by rewrite setitem_other by (by left). }
  case_decide as Hj.
  - subst j. destruct who as [|uid].
    + rewrite !setitem_other by (by right). by rewrite setitem_same.
    + case_decide as Hme; [subst uid; by rewrite setitem_same|].
      rewrite setitem_other by (right; congruence).
      case_decide as Hp; [subst uid; by rewrite setitem_same|].
      rewrite setitem_other by (right; congruence).
      rewrite setitem_other by (by right).
      rewrite !setitem_other by (by left). done.
  - rewrite !setitem_other by (left; congruence). done.
Qed.

Lemma players_channels_private me ps : forall i cn j who,
  players_channels me ps i cn (KPlayer j) who
  = match (if decide (i <= j) then ps !! (j - i) else None) with
    | Some p =>
        match who with
        | DefaultRole => Some default_role_overwrites
        | User uid =>
            if decide (uid = me) then Some bot_overwrites
            else if decide (uid = id (member p)) then Some user_overwrites
                 else cn (KPlayer j) who
        end
    | None => cn (KPlayer j) who
    end.
Proof.
  induction ps as [|p ps IH]; intros i cn j who.
  - cbn [players_channels]. by case_decide.
  - cbn [players_channels]. rewrite IH, !player_channels_private.
    destruct (decide (j = i)) as [->|Hne].
    + rewrite decide_False, decide_True by lia.
      by rewrite Nat.sub_diag.
    + destruct (decide (S i <= j)) as [Hle|Hgt].
      * rewrite decide_True by lia.
        replace (j - i) with (S (j - S i)) by lia. done.
      * rewrite decide_False by lia. done.
Qed.

(** X22.  The overwrites that [setup_channels] prepares.  A member other
    than the bot is granted the reading of the mafia chat exactly when it
    plays a mafia role, of the chat and the info channel exactly when it
    plays at all, and never of the dead chat or the jail; the private
    channel of a player is granted to that player's member and to the
    bot, and to nobody else; and on every channel the default role is
    denied the reading. *)
Theorem setup_channels_access me ps :
  (forall uid,
     channels_needed me ps KMafiaChat (User uid)
     = if plays_mafia ps uid then Some user_overwrites
       else if decide (uid = me) then Some bot_overwrites else None)
  /\ (forall c uid,
        c = KChat \/ c = KInfo ->
        channels_needed me ps c (User uid)
        = if plays ps uid then Some user_overwrites
          else if decide (uid = me) then Some bot_overwrites else None)
  /\ (forall c uid,
        c = KDeadChat \/ c = KJail ->
        channels_needed me ps c (User uid)
        = if decide (uid = me) then Some bot_overwrites else None)
  /\ (forall j p uid,
        ps !! j = Some p ->
        channels_needed me ps (KPlayer j) (User uid)
        = if decide (uid = me) then Some bot_overwrites
          else if decide (uid = id (member p)) then Some user_overwrites
               else None)
  /\ (forall j uid,
        length ps <= j -> channels_needed me ps (KPlayer j) (User uid) = None)
  /\ (forall c,
        match c with KPlayer j => j < length ps | _ => True end ->
        (channels_needed me ps c DefaultRole ≫= read_messages)
        = Some false).
Proof.
  unfold channels_needed. split; [|split; [|split; [|split; [|split]]]].
  - intros uid. rewrite players_channels_mafia_chat.
    destruct (plays_mafia ps uid); [done|].
    unfold special_channels.
    rewrite !(setitem_other KJail), !(setitem_other KDeadChat)
      by (by left).
    case_decide as Hme; [subst; by rewrite setitem_same|].
    rewrite setitem_other by (right; congruence).
    rewrite setitem_other by (by right).
    rewrite !setitem_other by (by left). done.
  - intros c uid Hc. rewrite players_channels_public by done.
    destruct (plays ps uid); [done|]. unfold special_channels.
    rewrite !(setitem_other KJail), !(setitem_other KDeadChat),
      !(setitem_other KMafiaChat)
      by (left; by destruct Hc as [-> | ->]).
    destruct Hc as [-> | ->].
    + case_decide as Hme; [subst; by rewrite setitem_same|].
      rewrite setitem_other by (right; congruence).
      rewrite setitem_other by (by right).
      rewrite !setitem_other by (by left). done.
    + rewrite !(setitem_other KChat) by (by left).
      case_decide as Hme; [subst; by rewrite setitem_same|].
      rewrite setitem_other by (right; congruence).
      rewrite setitem_other by (by right). done.
  - intros c uid Hc.
    rewrite players_channels_other by (by destruct Hc as [-> | ->]).
    unfold special_channels. destruct Hc as [-> | ->].
    + rewrite !(setitem_other KJail) by (by left).
      case_decide as Hme; [subst; by rewrite setitem_same|].
      rewrite setitem_other by (right; congruence).
      rewrite setitem_other by (by right).
      rewrite !setitem_other by (by left). done.
    + case_decide as Hme; [subst; by rewrite setitem_same|].
      rewrite setitem_other by (right; congruence).
      rewrite setitem_other by (by right).
      rewrite !setitem_other by (by left). done.
  - intros j p uid Hp. rewrite players_channels_private.
    rewrite decide_True, Nat.sub_0_r, Hp by lia.
    by repeat case_decide.
  - intros j uid Hj. rewrite players_channels_private.
    rewrite decide_True, Nat.sub_0_r by lia.
    rewrite (proj2 (lookup_ge_None _ _)) by done.
    unfold special_channels. by rewrite !setitem_other by (by left).
  - intros c Hc. destruct c as [| | | | |j].
    + rewrite players_channels_public by (by right).
      unfold special_channels.
      rewrite !setitem_other by (left; done || right; done). 
      rewrite setitem_other by (by right). by rewrite setitem_same.
    + rewrite players_channels_public by (by left).
      unfold special_channels.
      rewrite !(setitem_other KJail), !(setitem_other KDeadChat),
        !(setitem_other KMafiaChat) by (by left).
      rewrite setitem_other by (by right). by rewrite setitem_same.
    + rewrite players_channels_mafia_chat. unfold special_channels.
      rewrite !(setitem_other KJail), !(setitem_other KDeadChat)
        by (by left).
      rewrite setitem_other by (by right). by rewrite setitem_same.
    + rewrite players_channels_other by done. unfold special_channels.
      rewrite !(setitem_other KJail) by (by left).
      rewrite setitem_other by (by right). by rewrite setitem_same.
    + rewrite players_channels_other by done. unfold special_channels.
      rewrite setitem_other by (by right). by rewrite setitem_same.
    + rewrite players_channels_private.
      rewrite decide_True, Nat.sub_0_r by lia.
      by destruct (lookup_lt_is_Some_2 _ _ Hc) as [p ->].
Qed.

Lemma setup_channels_access_witness :
  let ps := players (game plain_world) in
  ps !! 0 = Some (the_player plain_world 0)
  /\ plays_mafia ps 7 = true
  /\ channels_needed 99 ps (KPlayer 0) (User 7) = Some user_overwrites
  /\ channels_needed 99 ps (KPlayer 0) (User 6) = None
  /\ channels_needed 99 ps KMafiaChat (User 7) = Some user_overwrites
  /\ channels_needed 99 ps KMafiaChat (User 1) = None.
Proof.
  cbv zeta.
  assert (H0 : players (game plain_world) !! 0
               = Some (the_player plain_world 0))
    by (vm_compute; reflexivity).
  destruct (setup_channels_access 99 (players (game plain_world)))
    as (Hm & _ & _ & Hp & _).
  split; [exact H0|]. split; [vm_compute; reflexivity|].
  rewrite !(Hp 0 _ _ H0), !Hm.
  repeat split; vm_compute; reflexivity.
Defined.

(** ** The questions of the setup *)

Lemma wait_for_accepted check msgs m rest :
  wait_for check msgs = Some (m, rest) -> check m = true.
Proof.
  induction msgs as [|m' msgs IH]; [done|]. cbn [wait_for].
  destruct (check m') eqn:Hc; [|exact IH]. by intros [= <- _].
Qed.

Lemma min_max_check_accepted py_int ch au min max m :
  min_max_check py_int ch au min max m = true ->
  exists amt, py_int (content m) = Some amt /\ (min <= amt <= max)%Z.
Proof.
  unfold min_max_check.
  destruct (negb (bool_decide (m_channel m = ch))); [done|].
  destruct (negb (member_eqb (author m) au)); [done|].
  destruct (py_int (content m)) as [amt|]; [|done].
  intros H. apply andb_prop in H as [H1 H2].
  exists amt. split; [done|]. lia.
Qed.

(** X23.  The numbers that the setup accepts.  [_setup_amount_players]
    returns a minimum and a maximum with [3 <= min <= max <= 25];
    [_setup_amount_mafia] returns a number of mafia that is at least 1
    and at most half of the players.  With such a number and no special
    role, [pick_players] builds the roster whenever the members are as
    many as the players counted: it has exactly that many mafia, all of
    them plain, so that a godfather can be drawn, and the others are at
    least as many. *)
Theorem setup_questions py_int ch au msgs :
  (forall min max rest,
     _setup_amount_players py_int ch au msgs = Some (min, max, rest) ->
     (3 <= min <= max)%Z /\ (max <= 25)%Z)
  /\ (forall n amount rest,
        _setup_amount_mafia py_int ch au n msgs = Some (amount, rest) ->
        (1 <= amount)%Z /\ (2 * amount <= Z.of_nat n)%Z
        /\ forall members,
             length members = n ->
             exists ps,
               pick_players {| starting_mafia := amount;
                               special_roles := [] |} members = Ret ps
               /\ Z.of_nat (total_mafia (new_game ps)) = amount
               /\ godfather_candidates (new_game ps) <> []
               /\ 2 * total_mafia (new_game ps) <= total_alive (new_game ps)).
Proof.
  split.
  - intros min max rest. unfold _setup_amount_players.
    destruct (wait_for _ msgs) as [[a1 rest1]|] eqn:Hw1; [|done]. cbn.
    apply wait_for_accepted, min_max_check_accepted in Hw1
      as (amt1 & -> & Hb1). cbn.
    destruct (wait_for _ rest1) as [[a2 rest2]|] eqn:Hw2; [|done]. cbn.
    apply wait_for_accepted, min_max_check_accepted in Hw2
      as (amt2 & -> & Hb2). cbn.
    intros [= <- <- _]. lia.
  - intros n amount rest. unfold _setup_amount_mafia.
    destruct (wait_for _ msgs) as [[a rest1]|] eqn:Hw; [|done]. cbn.
    apply wait_for_accepted, min_max_check_accepted in Hw
      as (amt & -> & Hb).
    cbn -[total_mafia total_alive godfather_candidates pick_players Z.mul].
    intros [= <- _].
    assert (Hhalf : (2 * amt <= Z.of_nat n)%Z).
    { pose proof (Z.quot_pos (Z.of_nat n) 2 ltac:(lia) ltac:(lia)).
      rewrite Z.quot_div_nonneg in Hb by lia.
      pose proof (Z.mul_div_le (Z.of_nat n) 2 ltac:(lia)). lia. }
    split; [lia|]. split; [done|].
    intros members Hlen.
    pose proof (pick_players_run {| starting_mafia := amt;
                                    special_roles := [] |} members) as Hp.
    cbv zeta in Hp. unfold plain_mafia_added, special_mafia_count in Hp.
    cbn [special_roles starting_mafia filter length app] in Hp.
    rewrite Z.sub_0_r in Hp.
    rewrite decide_True in Hp by (cbn; lia). cbn [length Nat.add] in Hp.
    rewrite Nat.sub_0_r in Hp. eexists. split; [exact Hp|].
    set (classes := replicate (Z.to_nat amt) Mafia
                    ++ replicate (length members - Z.to_nat amt) Citizen).
    assert (Hc : length classes = length (reverse members)).
    { unfold classes. rewrite length_app, !length_replicate, length_reverse.
      lia. }
    assert (Hm : total_mafia (new_game (zip_with new_player classes
                                          (reverse members)))
                 = Z.to_nat amt).
    { unfold total_mafia. cbn [players new_game].
      rewrite count_fresh_mafia by lia. unfold classes.
      rewrite filter_app, length_app, !filter_mafia_replicate. cbn. lia. }
    set (g := new_game (zip_with new_player classes (reverse members)))
      in Hm |- *.
    change (Z.of_nat (total_mafia g) = amt
            /\ godfather_candidates g <> []
            /\ 2 * total_mafia g <= total_alive g).
    subst g. split; [lia|]. split.
    + intros Hnil.
      assert (H0 : 0 ∈ godfather_candidates
                         (new_game (zip_with new_player classes
                                      (reverse members)))).
      { apply godfather_candidates_plain. cbn [players new_game].
        destruct (reverse members) as [|m ms] eqn:Hr;
          [pose proof (length_reverse members) as Hr0;
           rewrite Hr in Hr0; cbn in Hr0; lia|].
        unfold classes. destruct (Z.to_nat amt) as [|k] eqn:Hk; [lia|].
        cbn. exists (new_player Mafia m). by repeat split. }
      rewrite Hnil in H0. by apply not_elem_of_nil in H0.
    + rewrite Hm. unfold total_alive. cbn [players new_game].
      rewrite count_fresh_alive, length_zip_with_l_eq by done.
      rewrite Hc, length_reverse. lia.
Qed.

Lemma setup_questions_witness :
  let py_int := fun s : string =>
    if String.eqb s "20" then Some 20%Z
    else if String.eqb s "4" then Some 4%Z
    else if String.eqb s "2" then Some 2%Z else None in
  let au := {| name := "ann"; mention := "<@1>"; id := 1 |} in
  let say := fun text =>
    {| m_channel := ChChat; author := au; content := text |} in
  let members :=
    [au; {| name := "bob"; mention := "<@2>"; id := 2 |};
     {| name := "cyd"; mention := "<@3>"; id := 3 |};
     {| name := "dee"; mention := "<@4>"; id := 4 |}] in
  _setup_amount_players py_int ChChat au [say "hello"; say "20"; say "4"]
    = Some (4, 20, [])%Z
  /\ _setup_amount_mafia py_int ChChat au 4 [say "3"; say "2"]
     = Some (2%Z, [])
  /\ ((3 <= 4 <= 20)%Z /\ (20 <= 25)%Z)
  /\ exists ps,
       pick_players {| starting_mafia := 2; special_roles := [] |} members
       = Ret ps
       /\ Z.of_nat (total_mafia (new_game ps)) = 2%Z
       /\ godfather_candidates (new_game ps) <> []
       /\ 2 * total_mafia (new_game ps) <= total_alive (new_game ps).
Proof.
  cbv zeta.
  match goal with
  | |- _setup_amount_players ?py ?ch ?au ?msgs = _
       /\ _setup_amount_mafia _ _ _ ?n ?msgs' = _ /\ _ =>
      pose proof (setup_questions py ch au msgs) as [Hp _];
      pose proof (setup_questions py ch au msgs') as [_ Hm];
      assert (H1 : _setup_amount_players py ch au msgs = Some (4, 20, [])%Z)
        by (vm_compute; reflexivity);
      assert (H2 : _setup_amount_mafia py ch au n msgs' = Some (2%Z, []))
        by (vm_compute; reflexivity)
  end.
  split; [exact H1|]. split; [exact H2|].
  split; [exact (Hp _ _ _ H1)|].
  apply (proj2 (proj2 (Hm _ _ _ H2))). reflexivity.
Defined.

(** ** A game that is over before its first day *)

Lemma startup_loop_without_executioner l : forall w,
  Forall (fun p => cls p <> Executioner) (players (game w)) ->
  Forall (fun i => i < length (players (game w))) l ->
  for_each l startup_channel_message w = (Ret tt, w).
Proof.
  induction l as [|i l IH]; intros w Hno Hl; [done|].
  apply Forall_cons in Hl as [Hi Hl]. cbn [for_each]. rewrite run_bind.
  unfold startup_channel_message at 1. rewrite run_bind, run_get_player.
  destruct (lookup_lt_is_Some_2 _ _ Hi) as [me Hme]. rewrite Hme.
  cbv beta iota.
  assert (Hc : cls me <> Executioner).
  { eapply Forall_forall in Hno; [exact Hno|].
    by eapply list_elem_of_lookup_2. }
  destruct (cls me); try done; rewrite run_ret; by apply IH.
Qed.

Lemma count_players_standing (f : Player -> bool) ps : forall ps',
  (forall p q, standing q = standing p -> f q = f p) ->
  map standing ps' = map standing ps ->
  count_players f ps' = count_players f ps /\ existsb f ps' = existsb f ps.
Proof.
  unfold count_players.
  induction ps as [|p ps IH]; intros [|q qs] Hf Hs; try done.
  cbn [map] in Hs. apply (f_equal head) in Hs as Hq.
  apply (f_equal tail) in Hs. cbn in Hq, Hs.
  assert (Hq' : standing q = standing p) by congruence. clear Hq.
  rename Hq' into Hq.
  destruct (IH qs Hf Hs) as [Hc He].
  cbn [existsb]. rewrite !filter_cons, (Hf p q Hq), He.
  split; [|done]. case_decide; cbn; by rewrite Hc.
Qed.

Lemma win_counts_standing g g' :
  map standing (players g') = map standing (players g) ->
  total_mafia g' = total_mafia g /\ total_alive g' = total_alive g
  /\ any_can_kill_mafia_at_night g' = any_can_kill_mafia_at_night g.
Proof.
  intros Hs. unfold total_mafia, total_alive, any_can_kill_mafia_at_night.
  assert (H : forall f,
            (forall p q, standing q = standing p -> f q = f p) ->
            count_players f (players g') = count_players f (players g)
            /\ existsb f (players g') = existsb f (players g))
    by (intros f Hf; by apply count_players_standing).
  assert (Hcls : forall p q, standing q = standing p ->
                             cls q = cls p /\ dead q = dead p).
  { intros p q [= -> _ -> _]. done. }
  split; [|split]; apply H; intros p q Hq;
    destruct (Hcls p q Hq) as [Hc Hd];
    unfold is_mafia, can_kill_mafia_at_night; by rewrite ?Hc, ?Hd.
Qed.

Lemma fresh_classes roles : forall ms : list Member,
  length roles = length ms -> map cls (zip_with new_player roles ms) = roles.
Proof.
  induction roles as [|c cs IH]; intros [|m ms] H; try done.
  cbn. f_equal. apply IH. cbn [length] in H. lia.
Qed.

Lemma fresh_standing roles : forall ms : list Member,
  Forall (fun p => dead p = false /\ lynched p = false
                   /\ killed_by p = None)
         (zip_with new_player roles ms).
Proof.
  induction roles as [|c cs IH]; intros [|m ms]; cbn; try done.
  constructor; [done|apply IH].
Qed.

Lemma elem_of_get_winners g i :
  i ∈ get_winners g <->
  exists p, players g !! i = Some p /\ win_condition g p = true.
Proof.
  unfold get_winners. rewrite list_elem_of_fmap. split.
  - intros ([j p] & -> & H). apply list_elem_of_filter in H as [Hw H].
    apply elem_of_indexed in H. cbn in *. by exists p.
  - intros (p & Hp & Hw). exists (i, p). split; [done|].
    apply list_elem_of_filter. split; [done|]. by apply elem_of_indexed.
Qed.

Lemma standing_tidy p : standing (tidy p) = standing p.
Proof. unfold tidy. by destruct (dead p) eqn:Hd. Qed.

(** X24.  A game in which the mafia are half of the players is over
    before its first day.  With no Sheriff and no Executioner among the
    special roles, at least one plain Mafia, and members at most twice as
    many as the mafia configured -- a number that the setup accepts --
    [play] draws the godfather, posts the embed of day 1 and finds the
    winners at once: nothing else is posted in the info or the chat
    channel up to the end of the loop of cycles, the day counter stays at
    1, everybody is alive, and the winners are the mafia, together with
    any Survivor. *)
Theorem mafia_at_parity_wins_at_once
    extractBests config members rand inp inps :
  Sheriff ∉ special_roles config ->
  Executioner ∉ special_roles config ->
  (Z.of_nat (special_mafia_count config) < starting_mafia config)%Z ->
  length (special_roles config) + plain_mafia_added config
    <= length members ->
  (Z.of_nat (length members) <= 2 * starting_mafia config)%Z ->
  let r := play extractBests config members rand (inp :: inps) in
  r.1 = Ret true
  /\ filter (fun e => public (channel e) = true) (sent r.2)
     = [Send ChInfo (MDayEmbed false 1 false (roles_alive (game r.2))
                       [NGameStarted])]
  /\ _day (game r.2) = 1%Z
  /\ map member (players (game r.2)) = reverse members
  /\ forall i p,
       players (game r.2) !! i = Some p ->
       dead p = false
       /\ (i ∈ get_winners (game r.2)
           <-> is_mafia p = true \/ cls p = Survivor).
Proof.
  intros Hsh Hex Hplain Hfit Hpar. cbv zeta. unfold play.
  rewrite pick_players_run. cbv zeta. rewrite decide_True by done.
  set (k := length (special_roles config)) in *.
  set (n := plain_mafia_added config) in *.
  set (roles := special_roles config ++ replicate n Mafia
                ++ replicate (length members - k - n) Citizen).
  set (ps := zip_with new_player roles (reverse members)).
  assert (Hn : 0 < n) by (unfold n, plain_mafia_added; lia).
  assert (Hlr : length roles = length members).
  { unfold roles. rewrite !length_app, !length_replicate. fold k. lia. }
  assert (Hlen : length ps = length members).
  { unfold ps. rewrite length_zip_with_l_eq; [done|].
    by rewrite length_reverse. }
  assert (Hcls : map cls ps = roles).
  { apply fresh_classes. by rewrite length_reverse. }
  assert (Hroles : forall c, c ∈ roles ->
                     c ∈ special_roles config \/ c = Mafia \/ c = Citizen).
  { intros c Hc. unfold roles in Hc.
    apply elem_of_app in Hc as [Hc|Hc]; [by left|right].
    apply elem_of_app in Hc as [Hc|Hc];
      apply elem_of_replicate in Hc as [-> _]; auto. }
  assert (Hfresh := fresh_standing roles (reverse members)). fold ps in Hfresh.
  assert (Hm0 : total_mafia (new_game ps) = special_mafia_count config + n).
  { unfold total_mafia, ps. cbn [players new_game].
    rewrite count_fresh_mafia by (rewrite length_reverse; lia).
    unfold roles. rewrite !filter_app, !length_app, !filter_mafia_replicate.
    cbn. unfold special_mafia_count. lia. }
  assert (Ha0 : total_alive (new_game ps) = length members).
  { unfold total_alive. cbn [players new_game]. unfold ps at 1.
    rewrite count_fresh_alive. exact Hlen. }
  assert (Hk0 : any_can_kill_mafia_at_night (new_game ps) = false).
  { apply not_true_is_false. intros Hk.
    apply any_can_kill_mafia_at_night_iff in Hk as (p & Hp & _ & Hk).
    assert (Hc : cls p ∈ roles).
    { rewrite <- Hcls. apply list_elem_of_fmap. by exists p. }
    unfold can_kill_mafia_at_night in Hk.
    destruct (Hroles _ Hc) as [Hs|[Hs|Hs]];
      destruct (cls p); try done; by rewrite Hs in Hk. }
  unfold _start. rewrite run_bind. unfold _start_setup.
  rewrite run_bind, run_get_game. cbv beta iota. rewrite run_bind.
  rewrite startup_loop_without_executioner.
  2:{ cbn [game new_world players new_game].
      apply Forall_forall. intros p Hp Hc.
      assert (Hr : cls p ∈ roles).
      { rewrite <- Hcls. apply list_elem_of_fmap. by exists p. }
      rewrite Hc in Hr. by destruct (Hroles _ Hr) as [Hs|[Hs|Hs]]. }
  2:{ apply Forall_forall. intros i Hi.
      unfold roster_indices in Hi. apply elem_of_seq in Hi. lia. }
  destruct (godfather_candidates (game (new_world ps rand)))
    as [|x l] eqn:Hcand.
  { exfalso.
    assert (H : k ∈ godfather_candidates (game (new_world ps rand))).
    { apply godfather_candidates_plain. cbn [game new_world players new_game].
      assert (Hk : roles !! k = Some Mafia).
      { unfold roles. rewrite lookup_app_r by (fold k; lia).
        fold k. rewrite Nat.sub_diag.
        destruct n; [lia|]. done. }
      destruct (lookup_lt_is_Some_2 ps k ltac:(lia)) as [p Hp].
      exists p. split; [done|].
      assert (Hc : cls p = Mafia).
      { rewrite <- Hcls in Hk. rewrite list_lookup_fmap, Hp in Hk.
        by injection Hk. }
      unfold is_mafia. by rewrite Hc. }
    rewrite Hcand in H. by apply not_elem_of_nil in H. }
  rewrite choose_godfather_run, Hcand. cbv zeta.
  set (gf := drawn_candidate (new_world ps rand) x l).
  set (w1 := with_sent _ _).
  cbn [cycles]. rewrite run_bind. unfold _cycle. rewrite run_bind.
  unfold pre_day. rewrite run_bind, run_get_game. cbv beta iota.
  change (bool_decide (1 < _day (game w1))%Z) with false. cbv iota.
  rewrite run_bind, day_notification_run. cbv beta iota zeta.
  rewrite cleanup_everyone_tidy. rewrite run_bind, run_get_game.
  cbv beta iota.
  set (wf := with_players (map tidy) _).
  assert (Hst : map standing (players (game wf)) = map standing ps).
  { unfold wf, w1.
    cbn [with_players with_game with_sent game players set_players
         after_draw new_world new_game set__day_notifications].
    rewrite map_map. erewrite map_ext; [|intros; apply standing_tidy].
    by apply map_alter_same. }
  destruct (win_counts_standing (new_game ps) (game wf) Hst)
    as (Hm & Ha & Hk).
  assert (Hwin : Mafia_win_condition (game wf) = true).
  { rewrite Mafia_win_condition_counts.
    change (is_day (game wf)) with true. cbv iota.
    rewrite Hk, Hk0, Hm, Ha, Hm0, Ha0. cbn [negb andb].
    apply bool_decide_eq_true. unfold n, plain_mafia_added. lia. }
  assert (Hlook : forall i p,
            players (game wf) !! i = Some p ->
            exists q, ps !! i = Some q /\ standing p = standing q).
  { intros i p Hp.
    assert (Hi : map standing (players (game wf)) !! i
                 = map standing ps !! i) by (by rewrite Hst).
    rewrite !list_lookup_fmap, Hp in Hi.
    destruct (ps !! i) as [q|]; [|done]. exists q. split; [done|].
    cbn in Hi. congruence. }
  assert (Hwc : forall i p,
            players (game wf) !! i = Some p ->
            dead p = false
            /\ (win_condition (game wf) p = true
                <-> is_mafia p = true \/ cls p = Survivor)).
  { intros i p Hp. destruct (Hlook i p Hp) as (q & Hq & Hpq).
    assert (Hq' : q ∈ ps) by (by eapply list_elem_of_lookup_2).
    pose proof (proj1 (Forall_forall _ _) Hfresh q Hq') as (Hd & Hl & _).
    assert (Hc : cls q ∈ roles).
    { rewrite <- Hcls. apply list_elem_of_fmap. by exists q. }
    injection Hpq as Hpc _ Hpd Hpl. rewrite <- Hpc in Hc.
    rewrite Hd in Hpd. rewrite Hl in Hpl. split; [done|].
    unfold win_condition, is_mafia, Citizen_win_condition,
      killed_by_non_mafia.
    rewrite Hwin, Hpd, Hpl, Hm, Ha, Hm0, Ha0. cbn [negb orb andb].
    destruct (Hroles _ Hc) as [Hs|[Hs|Hs]];
      destruct (cls p) eqn:Hcp; try done; cbn;
      try (split; [done|by intros [?|?]]);
      try (split; [done|by auto]);
      try (split; [intros H0; apply Nat.eqb_eq in H0; lia
                  |by intros [?|?]]);
      try (split; by auto).
    assert (0 < k).
    { unfold k. destruct (special_roles config); [|cbn; lia].
      by apply not_elem_of_nil in Hs. }
    split; [|by intros [?|?]].
    rewrite andb_true_r. intros H1. apply Nat.eqb_eq in H1. lia. }
  assert (Hcw : check_winner (game wf) = true).
  { unfold check_winner. apply existsb_exists.
    assert (Hx : x ∈ godfather_candidates (game (new_world ps rand)))
      by (rewrite Hcand; apply list_elem_of_here).
    apply godfather_candidates_plain in Hx as (q & Hq & Hqm & _).
    cbn [game new_world players new_game] in Hq.
    assert (Hi : map standing (players (game wf)) !! x
                 = map standing ps !! x) by (by rewrite Hst).
    rewrite !list_lookup_fmap, Hq in Hi.
    destruct (players (game wf) !! x) as [p|] eqn:Hp; [|done].
    cbn in Hi. injection Hi as Hpc _ _ _.
    exists p. split; [apply list_elem_of_In; by eapply list_elem_of_lookup_2|].
    assert (Hpm : is_mafia p = true) by (unfold is_mafia; by rewrite Hpc).
    rewrite (proj2 (proj2 (Hwc x p Hp)) (or_introl Hpm)).
    unfold win_is_multi. unfold is_mafia in Hpm. by destruct (cls p). }
  rewrite Hcw, run_ret. cbv beta iota. rewrite run_ret.
  cbn [fst snd].
  split; [done|]. split.
  { assert (Hra : roles_alive (game wf) = roles_alive (game w1)).
    { apply roles_alive_ext. unfold wf. cbn [with_players with_game game
        players set_players set__day_notifications with_sent].
      rewrite map_map. apply map_ext. intros p.
      by rewrite tidy_cls, tidy_dead. }
    rewrite Hra. unfold wf, w1. clearbody gf.
    cbn [with_players with_game with_sent sent game after_draw new_world
         new_game _day _day_notifications set_players players
         set__day_notifications app].
    unfold edits_embed. cbn [_day_notifications _day set_players new_game].
    rewrite lookup_empty.
    rewrite bool_decide_eq_false_2 by apply is_Some_None.
    rewrite !filter_cons. cbn. reflexivity. }
  split; [done|]. split.
  { transitivity (map (fun s : PlayerClass * Member * bool * bool => s.1.1.2)
                      (map standing (players (game wf))));
      [by rewrite map_map|].
    rewrite Hst, map_map.
    change (map (fun x => (standing x).1.1.2) ps) with (map member ps).
    unfold ps.
    apply fmap_zip_with_r; [done|]. rewrite length_reverse. lia. }
  intros i p Hp. destruct (Hwc i p Hp) as [Hd Hw]. split; [done|].
  rewrite elem_of_get_winners. split.
  - intros (p' & Hp' & Hw'). rewrite Hp in Hp'. injection Hp' as <-.
    by apply Hw.
  - intros H. exists p. split; [done|]. by apply Hw.

Qed.

Lemma mafia_at_parity_wins_at_once_witness :
  let config := {| starting_mafia := 2; special_roles := [Doctor; Survivor] |} in
  let members := [mk_member "ann" 1; mk_member "bob" 2;
                  mk_member "cat" 3; mk_member "dan" 4] in
  let r := play exact_name config members (fun _ => 0) [quiet_cycle] in
  r.1 = Ret true
  /\ filter (fun e => public (channel e) = true) (sent r.2)
     = [Send ChInfo (MDayEmbed false 1 false (roles_alive (game r.2))
                       [NGameStarted])]
  /\ roles_alive (game r.2) = [("Doctor", 1); ("Survivor", 1); ("Mafia", 2)]
  /\ _day (game r.2) = 1%Z
  /\ get_winners (game r.2) = [1; 2; 3].
Proof.
  cbv zeta.
  match goal with
  | |- (play ?e ?config ?members ?rand (?inp :: ?inps)).1 = _ /\ _ =>
      pose proof (mafia_at_parity_wins_at_once e config members rand inp inps)
        as H
  end.
  destruct H as (H1 & H2 & H3 & _).
  - apply (bool_decide_unpack _). vm_compute. exact Logic.I.
  - apply (bool_decide_unpack _). vm_compute. exact Logic.I.
  - vm_compute. reflexivity.
  - vm_compute. lia.
  - vm_compute. by intros [=].
  - split; [exact H1|]. split; [exact H2|].
    split; [vm_compute; reflexivity|]. split; [exact H3|].
    vm_compute. reflexivity.
Defined.

(** ** The Jailor's execution *)

(** X25.  The Jailor cannot execute.  When the Jailor orders the
    execution of its prisoner, a living player that is still under the
    Jailor's protection (where [Jailor.day_task] put it), the prisoner is
    marked as killed and visited by the Jailor, and nothing is sent;
    [pre_day] then compares the Jailor's unstoppable attack with the
    Jailor's own powerful defense, finds the attack greater and takes
    the branch of the saved: the prisoner is told that the Jailor saved
    it, is not marked dead, and no line is added for the day. *)
Theorem jailor_execution_fails w self me player p loc :
  players (game w) !! self = Some me -> cls me = Jailor ->
  jailed me = JPlayer player ->
  players (game w) !! player = Some p -> dead p = false ->
  protected_by p = Some self ->
  let w1 := with_players (alter (kill self) player) w in
  let w2 := with_sent (Send (ChPlayer player) (MSavedYou self)) w1 in
  night_task_finish self [] [] w = (Ret tt, w1)
  /\ pre_day_player player loc w1 = (Ret loc, w2)
  /\ render (players (game w2)) (MSavedYou self)
     = Some "You were killed last night, but Jailor saved you!"
  /\ dead_at w2 player = Some false.
Proof.
  intros Hme Hcls Hj Hp Hd Hprot. cbv zeta.
  assert (Hp1 : players (game (with_players (alter (kill self) player) w))
                !! player = Some (kill self p)).
  { cbn. by rewrite list_lookup_alter_eq, Hp. }
  assert (Hme1 : exists me1,
            players (game (with_players (alter (kill self) player) w))
            !! self = Some me1 /\ cls me1 = Jailor).
  { cbn. destruct (decide (self = player)) as [->|Hne].
    - rewrite list_lookup_alter_eq, Hp. eexists. split; [done|].
      rewrite Hp in Hme. injection Hme as ->. exact Hcls.
    - rewrite list_lookup_alter_ne by done. by exists me. }
  destruct Hme1 as (me1 & Hme1 & Hcls1).
  split; [|split; [|split]].
  - unfold night_task_finish. rewrite run_bind, run_get_player, Hme.
    cbv beta iota. rewrite Hcls, Hj.
    by rewrite run_update_player.
  - unfold pre_day_player. rewrite run_bind, run_get_player, Hp1.
    cbv beta iota.
    change (dead (kill self p)) with (dead p). rewrite Hd.
    change (killed_by (kill self p)) with (Some self). cbv iota.
    rewrite run_bind, run_get_player, Hme1. cbv beta iota.
    rewrite run_bind, run_get_game. cbv beta iota.
    unfold pre_day_saved.
    change (protected_by (kill self p)) with (protected_by p).
    rewrite Hprot, Hme1. unfold attack_type, defense_type. rewrite Hcls1.
    cbn [class_attack_type class_defense_type attack_gt].
    rewrite run_bind. unfold lift. cbv beta iota.
    change (DefenseType.value DefenseType.powerful
            <? AttackType.value AttackType.unstoppable)%Z with true.
    cbv iota. unfold pre_day_survives.
    change (protected_by (kill self p)) with (protected_by p).
    rewrite Hprot. rewrite run_bind, run_send. cbv beta iota.
    unfold is_mafia. rewrite Hcls1. cbn [class_is_mafia when].
    rewrite run_bind, run_ret. cbv beta iota. by rewrite run_ret.
  - cbn [render]. unfold render_saved, role_name.
    change (players (game (with_sent ?e ?w0))) with (players (game w0)).
    rewrite Hme1. cbn [from_option]. unfold str. by rewrite Hcls1.
  - unfold dead_at, player_at.
    change (players (game (with_sent ?e ?w0))) with (players (game w0)).
    rewrite Hp1. cbn. by rewrite Hd.
Qed.

Lemma jailor_execution_fails_witness :
  let w := (day_task_finish 2 [] [5]
              (first_morning protection_config (fun _ => 0))).2 in
  cls (the_player w 2) = Jailor
  /\ jailed (the_player w 2) = JPlayer 5
  /\ protected_by (the_player w 5) = Some 2
  /\ (pre_day_player 5 ([], [])
        (night_task_finish 2 [] [] w).2).1 = Ret ([], [])
  /\ dead_at (pre_day_player 5 ([], []) (night_task_finish 2 [] [] w).2).2 5
     = Some false.
Proof.
  cbv zeta.
  set (w := (day_task_finish 2 [] [5]
               (first_morning protection_config (fun _ => 0))).2).
  assert (H2 : players (game w) !! 2 = Some (the_player w 2))
    by (vm_compute; reflexivity).
  assert (Hc : cls (the_player w 2) = Jailor) by (vm_compute; reflexivity).
  assert (Hj : jailed (the_player w 2) = JPlayer 5)
    by (vm_compute; reflexivity).
  assert (H5 : players (game w) !! 5 = Some (the_player w 5))
    by (vm_compute; reflexivity).
  assert (Hd : dead (the_player w 5) = false) by (vm_compute; reflexivity).
  assert (Hp : protected_by (the_player w 5) = Some 2)
    by (vm_compute; reflexivity).
  destruct (jailor_execution_fails w 2 (the_player w 2) 5 (the_player w 5)
              ([], []) H2 Hc Hj H5 Hd Hp) as (Hn & Hpre & _ & Hdead).
  split; [exact Hc|]. split; [exact Hj|]. split; [exact Hp|].
  rewrite Hn. cbn [snd]. rewrite Hpre. cbn [fst snd].
  split; [reflexivity|exact Hdead].
Defined.
